(** * Abkhazia: preparation of the Wall Street Journal corpus

    A shallow embedding of [abkhazia/corpora/prepare_wsj.py] and of
    [abkhazia/corpora/utils/abstract_preparator.py], and the properties of
    the preparation pipeline established over it.

    Python text is modelled by [string]; the characters are 8-bit and the
    case conversion acts on the letters a-z only.  Python integers are [Z].
    A call that may raise returns a [result]; code that reads or writes the
    file system runs in the monad [io], which threads a directory tree and
    keeps what was written before an exception was raised. *)

From Stdlib Require Import String Ascii ZArith List Bool Lia.
Import ListNotations.

Local Open Scope string_scope.
Local Open Scope Z_scope.

(** ** Fragments of the Python runtime *)

Module Py.

(** The exceptions the modelled code can raise.  All of them derive from
    [Exception] but [SystemExit] and [KeyboardInterrupt]. *)
Inductive exception : Type :=
| IndexError
| AttributeError
| ValueError
| NotImplementedError
| IOError (msg : string)
| OSError (msg : string)
| SystemExit (code : Z)
| KeyboardInterrupt.

(** [isinstance(e, Exception)] *)
Definition is_Exception (e : exception) : bool :=
  match e with
  | SystemExit _ | KeyboardInterrupt => false
  | _ => true
  end.

(** [str(e)]: the message the exception was built with.  The messages
    of the exceptions of the interpreter and of the operating system are
    given in short. *)
Definition str_of_exception (e : exception) : string :=
  match e with
  | IOError msg | OSError msg => msg
  | IndexError => "string index out of range"
  | AttributeError => "'NoneType' object has no attribute 'group'"
  | ValueError => "need more than 1 value to unpack"
  | NotImplementedError => ""
  | SystemExit _ => ""
  | KeyboardInterrupt => ""
  end.

Inductive result (A : Type) : Type :=
| Ok (a : A)
| Raise (e : exception).
Arguments Ok {A} a.
Arguments Raise {A} e.

Definition bind {A B} (m : result A) (k : A -> result B) : result B :=
  match m with
  | Ok a => k a
  | Raise e => Raise e
  end.

(** [a and b], [a or b]: the right operand is evaluated only when the left
    one does not decide, so an exception in it is raised only then. *)
Definition and_ (a b : result bool) : result bool :=
  bind a (fun x => if x then b else Ok false).

Definition or_ (a b : result bool) : result bool :=
  bind a (fun x => if x then Ok true else b).

(** [a == lit] where evaluating [a] may raise. *)
Definition eq_ (a : result string) (lit : string) : result bool :=
  bind a (fun x => Ok (String.eqb x lit)).

(** *** Characters *)

Definition newline : ascii := ascii_of_nat 10.

(** [c.upper()] on one character. *)
Definition upper_ascii (c : ascii) : ascii :=
  let n := nat_of_ascii c in
  if (Nat.leb 97 n && Nat.leb n 122)%bool then ascii_of_nat (n - 32) else c.

(** The characters [str.strip()] removes: space, tab, line feed, vertical
    tab, form feed and carriage return. *)
Definition is_space (c : ascii) : bool :=
  let n := nat_of_ascii c in
  (Nat.eqb n 32 || (Nat.leb 9 n && Nat.leb n 13))%bool.

(** The class [[0-9]] of the regular expressions. *)
Definition is_digit (c : ascii) : bool :=
  let n := nat_of_ascii c in
  (Nat.leb 48 n && Nat.leb n 57)%bool.

(** *** Strings *)

Definition len (s : string) : Z := Z.of_nat (String.length s).

(** [s.upper()] *)
Fixpoint upper (s : string) : string :=
  match s with
  | EmptyString => EmptyString
  | String c s' => String (upper_ascii c) (upper s')
  end.

(** [s.replace(old, new)] for a non-empty [old]: the occurrences of [old]
    are found from the left and do not overlap.  [skip] counts the
    characters of the current occurrence that are still to be passed. *)
Fixpoint replace_from (old new : string) (skip : nat) (s : string) : string :=
  match s with
  | EmptyString => EmptyString
  | String c s' =>
      match skip with
      | S k => replace_from old new k s'
      | O =>
          if String.prefix old s
          then new ++ replace_from old new (String.length old - 1) s'
          else String c (replace_from old new O s')
      end
  end.

Definition replace (old new s : string) : string := replace_from old new O s.

(** [s[i]]: a negative index counts from the end; out of range raises. *)
Definition getitem (s : string) (i : Z) : result string :=
  let j := if i <? 0 then i + len s else i in
  if (j <? 0) || (len s <=? j) then Raise IndexError
  else match String.get (Z.to_nat j) s with
       | Some c => Ok (String c EmptyString)
       | None => Raise IndexError
       end.

(** A bound of a slice, brought into [0, len s]. *)
Definition slice_bound (s : string) (default : Z) (b : option Z) : Z :=
  match b with
  | None => default
  | Some i =>
      let j := if i <? 0 then i + len s else i in
      Z.max 0 (Z.min (len s) j)
  end.

(** [s[lo:hi]]; never raises. *)
Definition slice (lo hi : option Z) (s : string) : string :=
  let a := slice_bound s 0 lo in
  let b := slice_bound s (len s) hi in
  String.substring (Z.to_nat a) (Z.to_nat (b - a)) s.

(** [s.lstrip()], [s.rstrip()], [s.strip()] *)
Fixpoint lstrip (s : string) : string :=
  match s with
  | EmptyString => EmptyString
  | String c s' => if is_space c then lstrip s' else s
  end.

Fixpoint rstrip (s : string) : string :=
  match s with
  | EmptyString => EmptyString
  | String c s' =>
      let r := rstrip s' in
      if (is_space c && String.eqb r EmptyString)%bool then EmptyString
      else String c r
  end.

Definition strip (s : string) : string := rstrip (lstrip s).

(** [s.split(sep)] for a non-empty [sep]: [cur] is the piece being read,
    [skip] the characters of the separator still to be passed. *)
Fixpoint split_from (sep : string) (skip : nat) (cur : string) (s : string)
  : list string :=
  match s with
  | EmptyString => [cur]
  | String c s' =>
      match skip with
      | S k => split_from sep k cur s'
      | O =>
          if String.prefix sep s
          then cur :: split_from sep (String.length sep - 1) EmptyString s'
          else split_from sep O (cur ++ String c EmptyString) s'
      end
  end.

Definition split (sep s : string) : list string :=
  split_from sep O EmptyString s.

(** [sep.join(l)] *)
Definition join (sep : string) (l : list string) : string :=
  String.concat sep l.

(** [needle in s] *)
Fixpoint contains (needle s : string) : bool :=
  match s with
  | EmptyString => String.eqb needle EmptyString
  | String _ s' => (String.prefix needle s || contains needle s')%bool
  end.

(** [x in l] and [x not in l] on a list of strings. *)
Definition mem (x : string) (l : list string) : bool :=
  existsb (String.eqb x) l.

(** [f.readlines()] on the content of a file: the lines keep their line
    feed; a last line without one is a line too.  The line feed is the
    only end of line of the model. *)
Fixpoint readlines_from (cur : string) (s : string) : list string :=
  match s with
  | EmptyString => if String.eqb cur EmptyString then [] else [cur]
  | String c s' =>
      if Ascii.eqb c newline
      then (cur ++ String c EmptyString) :: readlines_from EmptyString s'
      else readlines_from (cur ++ String c EmptyString) s'
  end.

Definition readlines (content : string) : list string :=
  readlines_from EmptyString content.

(** *** The three regular expressions of the preparator

    They are matched the way the backtracking matcher of [re] does: a
    starred group first takes as much as it can, [.] stops at a line feed,
    and [re.match] anchors the pattern at the start of the text only. *)

(** The pattern of a transcription line has a first starred group, a
    space, an opening parenthesis, a second starred group and a closing
    parenthesis.  [utt_group2] matches the second group and the closing
    parenthesis at the start of [t]. *)
Fixpoint utt_group2 (t : string) : option string :=
  match t with
  | EmptyString => None
  | String c t' =>
      match (if Ascii.eqb c newline then None else utt_group2 t') with
      | Some g2 => Some (String c g2)
      | None => if Ascii.eqb c ")" then Some EmptyString else None
      end
  end.

(** [re.match] of the pattern of a transcription line on [s]: the groups
    1 and 2 of the match, or [None]. *)
Fixpoint re_match_utt (s : string) : option (string * string) :=
  match s with
  | EmptyString => None
  | String c s' =>
      match (if Ascii.eqb c newline then None else re_match_utt s') with
      | Some (g1, g2) => Some (String c g1, g2)
      | None =>
          match s' with
          | String d t =>
              if (Ascii.eqb c " " && Ascii.eqb d "(")%bool
              then match utt_group2 t with
                   | Some g2 => Some (EmptyString, g2)
                   | None => None
                   end
              else None
          | EmptyString => None
          end
      end
  end.

(** The pattern of an alternative pronunciation has a starred group, an
    opening parenthesis, one digit or more, a closing parenthesis and the
    end anchor, which matches at the end of the text and before a final
    line feed.  [alt_digits] matches the digits, the parenthesis and the
    anchor at the start of [s]; [seen] tells that a digit was read. *)
Fixpoint alt_digits (seen : bool) (s : string) : bool :=
  match s with
  | EmptyString => false
  | String c s' =>
      if is_digit c then alt_digits true s'
      else (seen && Ascii.eqb c ")"
            && (String.eqb s' EmptyString
                || String.eqb s' (String newline EmptyString)))%bool
  end.

(** [re.match] of the pattern of an alternative pronunciation on [s]
    finds a match. *)
Fixpoint re_match_alt (s : string) : bool :=
  match s with
  | EmptyString => false
  | String c s' =>
      ((if Ascii.eqb c newline then false else re_match_alt s')
       || (Ascii.eqb c "(" && alt_digits false s'))%bool
  end.

(** [re.sub] of every run of digits by the empty string. *)
Fixpoint re_sub_digits (s : string) : string :=
  match s with
  | EmptyString => EmptyString
  | String c s' =>
      if is_digit c then re_sub_digits s' else String c (re_sub_digits s')
  end.

End Py.

Import Py.

Declare Scope py_scope.
Delimit Scope py_scope with py.
Notation "x <- m ;; k" := (bind m (fun x => k))
  (at level 61, m at next level, right associativity) : py_scope.
Notation "a &&& b" := (and_ a b)
  (at level 40, left associativity) : py_scope.
Notation "a ||| b" := (or_ a b)
  (at level 50, left associativity) : py_scope.
Notation "a == b" := (eq_ a b) (at level 55, no associativity) : py_scope.
Notation "s =? t" := (Ok (String.eqb s t)) (at level 70) : py_scope.

(** ** The file system

    A snapshot of the file system is a tree: a directory lists its entries
    in the order [os.listdir] returns them.  A path is the list of the
    names from the root; [os.path.join p name] is [p ++ [name]].  Symbolic
    links, permissions and the other failures of the operating system are
    outside the model. *)

Module Fs.

Local Open Scope py_scope.

Definition path : Type := list string.

#[warnings="-register-all"]
Inductive node : Type :=
| File (content : string)
| Dir (entries : list (string * node)).

(** The text of a path, as [format] prints it. *)
Definition path_str (p : path) : string :=
  "/" ++ String.concat "/" p.

(** [os.path.basename] *)
Definition basename (p : path) : string := last p "".

Fixpoint lookup_entry (name : string) (es : list (string * node))
  : option node :=
  match es with
  | [] => None
  | (n, x) :: es' =>
      if String.eqb n name then Some x else lookup_entry name es'
  end.

Fixpoint set_entry (name : string) (x : node) (es : list (string * node))
  : list (string * node) :=
  match es with
  | [] => [(name, x)]
  | (n, y) :: es' =>
      if String.eqb n name then (n, x) :: es'
      else (n, y) :: set_entry name x es'
  end.

Definition remove_entry (name : string) (es : list (string * node))
  : list (string * node) :=
  filter (fun e => negb (String.eqb (fst e) name)) es.

Fixpoint lookup (p : path) (n : node) : option node :=
  match p with
  | [] => Some n
  | c :: p' =>
      match n with
      | File _ => None
      | Dir es =>
          match lookup_entry c es with
          | Some x => lookup p' x
          | None => None
          end
      end
  end.

(** [os.path.exists], [os.path.isdir], [os.path.isfile] *)
Definition path_exists (fs : node) (p : path) : bool :=
  match lookup p fs with Some _ => true | None => false end.

Definition isdir (fs : node) (p : path) : bool :=
  match lookup p fs with Some (Dir _) => true | _ => false end.

Definition isfile (fs : node) (p : path) : bool :=
  match lookup p fs with Some (File _) => true | _ => false end.

(** No two entries of a directory have the same name. *)
Fixpoint distinct (l : list string) : bool :=
  match l with
  | [] => true
  | x :: l' => negb (mem x l') && distinct l'
  end.

Fixpoint wf (n : node) : bool :=
  match n with
  | File _ => true
  | Dir es => distinct (map fst es) && forallb (fun e => wf (snd e)) es
  end.

(** The entry [p] of the tree is replaced by what [f] makes of it; [err]
    is raised when the directory that holds [p] is not there. *)
Fixpoint alter_at (err : exception) (p : path)
    (f : option node -> result (option node)) (n : node) : result node :=
  match n with
  | File _ => Raise err
  | Dir es =>
      match p with
      | [] => Raise err
      | c :: p' =>
          match p' with
          | [] =>
              r <- f (lookup_entry c es) ;;
              Ok (Dir (match r with
                       | Some x => set_entry c x es
                       | None => remove_entry c es
                       end))
          | _ :: _ =>
              match lookup_entry c es with
              | Some child =>
                  child' <- alter_at err p' f child ;;
                  Ok (Dir (set_entry c child' es))
              | None => Raise err
              end
          end
      end
  end.

(** A file opened for writing and closed with [content] in it. *)
Definition put_file (p : path) (content : string) (cur : option node)
  : result (option node) :=
  match cur with
  | Some (Dir _) => Raise (IOError ("Is a directory: " ++ path_str p))
  | _ => Ok (Some (File content))
  end.

Definition write_file (p : path) (content : string) (fs : node)
  : result node :=
  alter_at (IOError ("No such file or directory: " ++ path_str p)) p
    (put_file p content) fs.

(** The content of a file opened for reading. *)
Definition read_file (p : path) (fs : node) : result string :=
  match lookup p fs with
  | Some (File content) => Ok content
  | Some (Dir _) => Raise (IOError ("Is a directory: " ++ path_str p))
  | None => Raise (IOError ("No such file or directory: " ++ path_str p))
  end.

(** [os.makedirs]: the missing directories of [p] are made, the last one
    must be missing. *)
Fixpoint chain (p : path) : node :=
  match p with
  | [] => Dir []
  | c :: p' => Dir [(c, chain p')]
  end.

Fixpoint makedirs (p : path) (n : node) : result node :=
  match p with
  | [] => Raise (OSError "File exists")
  | c :: p' =>
      match n with
      | File _ => Raise (OSError "Not a directory")
      | Dir es =>
          match lookup_entry c es with
          | Some child =>
              child' <- makedirs p' child ;;
              Ok (Dir (set_entry c child' es))
          | None => Ok (Dir (set_entry c (chain p') es))
          end
      end
  end.

(** [shutil.rmtree]: [p] must be a directory. *)
Definition rmtree (p : path) (fs : node) : result node :=
  alter_at (OSError ("No such file or directory: " ++ path_str p)) p
    (fun cur => match cur with
                | Some (Dir _) => Ok None
                | Some (File _) =>
                    Raise (OSError ("Not a directory: " ++ path_str p))
                | None =>
                    Raise (OSError ("No such file or directory: "
                                    ++ path_str p))
                end) fs.

(** The names of the directories and of the files among the entries. *)
Fixpoint dirnames (es : list (string * node)) : list string :=
  match es with
  | [] => []
  | (n, Dir _) :: es' => n :: dirnames es'
  | (_, File _) :: es' => dirnames es'
  end.

Fixpoint filenames (es : list (string * node)) : list string :=
  match es with
  | [] => []
  | (n, File _) :: es' => n :: filenames es'
  | (_, Dir _) :: es' => filenames es'
  end.

(** [os.walk(top)], top down, where [n] is what is found at [top]: a
    triple per directory, the directory itself first.  Nothing is yielded
    when [top] is not a directory. *)
Fixpoint walk (top : path) (n : node) : list (path * list string * list string) :=
  match n with
  | File _ => []
  | Dir es =>
      (top, dirnames es, filenames es)
        :: flat_map (fun e => walk (top ++ [fst e])%list (snd e)) es
  end.

Definition os_walk (fs : node) (top : path)
  : list (path * list string * list string) :=
  match lookup top fs with
  | Some n => walk top n
  | None => []
  end.

(** Code that reads and writes the file system: the tree is threaded, and
    an exception leaves the tree as it was when it was raised. *)
Definition io (A : Type) : Type := node -> result A * node.

Definition ret {A} (a : A) : io A := fun fs => (Ok a, fs).

Definition raise {A} (e : exception) : io A := fun fs => (Raise e, fs).

Definition bind_io {A B} (m : io A) (k : A -> io B) : io B :=
  fun fs =>
    match m fs with
    | (Ok a, fs') => k a fs'
    | (Raise e, fs') => (Raise e, fs')
    end.

(** A pure call that may raise. *)
Definition lift {A} (r : result A) : io A := fun fs => (r, fs).

(** A question to the file system. *)
Definition ask {A} (q : node -> A) : io A := fun fs => (Ok (q fs), fs).

(** A change of the file system, which may raise and then changes
    nothing. *)
Definition change (c : node -> result node) : io unit :=
  fun fs =>
    match c fs with
    | Ok fs' => (Ok tt, fs')
    | Raise e => (Raise e, fs)
    end.

(** [with open(p, 'w') as out: body]: the file is made or emptied, the
    body runs, and what the body wrote is in the file when it is closed,
    also when the body raised.  The body returns the text it wrote and how
    it ended. *)
Definition with_open_w {A} (p : path) (body : io (string * result A))
  : io A :=
  bind_io (change (write_file p ""))
    (fun _ =>
       bind_io body
         (fun out =>
            bind_io (change (write_file p (fst out)))
              (fun _ => lift (snd out)))).

End Fs.

(** ** The token normalizer *)

Module Normalizer.

Local Open Scope py_scope.

(** [WallStreetJournalPreparator.correct_word] *)
Definition correct_word (word : string) : result string :=
  if String.eqb word "" then Ok ""
  else
    (* correct word formating and ignore <> (means verbal deletion) *)
    let word := upper word in
    let word := replace "\" "" word in
    let word := replace ".POINT" "POINT" (replace "%PERCENT" "PERCENT" word) in
    unwrap <- (getitem word 0 == "<") &&& (getitem word (-1) == ">") ;;
    let word := if (unwrap : bool)
                then slice (Some 1) (Some (-1)) word else word in
    (* ignore some words *)
    ignored <-
      (word =? "~") ||| (word =? ".") |||
      ((slice None (Some 1) word =? "[<") &&& (getitem word (-1) == "]")) |||
      ((getitem word 0 == "[") &&& (slice (Some (-2)) None word =? ">]")) |||
      ((getitem word 0 == "[") &&& (slice (Some (-2)) None word =? "/]")) |||
      ((slice None (Some 1) word =? "[/") &&& (getitem word (-1) == "]")) ;;
    if (ignored : bool) then Ok ""
    else
      (* correct noise indications *)
      noise <- (getitem word 0 == "[") &&& (getitem word (-1) == "]") ;;
      if (noise : bool) then Ok "<noise>"
      else if String.eqb word "--DASH" then Ok "-DASH"
      else Ok word.

End Normalizer.

Import Fs.

Notation "x <-- m ;; k" := (bind_io m (fun x => k))
  (at level 61, m at next level, right associativity) : py_scope.

(** Loops over a list whose body may raise: the first exception ends the
    loop. *)
Fixpoint filter_r {A} (f : A -> result bool) (l : list A) : result (list A) :=
  match l with
  | [] => Ok []
  | x :: l' =>
      (b <- f x ;;
       r <- filter_r f l' ;;
       Ok (if (b : bool) then x :: r else r))%py
  end.

Fixpoint concat_map_r {A B} (f : A -> result (list B)) (l : list A)
  : result (list B) :=
  match l with
  | [] => Ok []
  | x :: l' =>
      (ys <- f x ;;
       r <- concat_map_r f l' ;;
       Ok (ys ++ r)%list)%py
  end.

(** ** The file selector and the corrupted-utterance detector *)

Module Selector.

Local Open Scope py_scope.

(** The class attributes that select a part of the corpus.  [dir_pattern]
    is an attribute of [JournalistReadPreparator] only, and nothing reads
    it. *)
Record variant : Type := {
  name : string;
  directory_pattern : option (list string);
  file_pattern : option string;
  dir_pattern : option (list string)
}.

Definition WallStreetJournalPreparator : variant :=
  {| name := "WallStreetJournal";
     directory_pattern := None;
     file_pattern := None;
     dir_pattern := None |}.

Definition JournalistReadPreparator : variant :=
  {| name := name WallStreetJournalPreparator ++ "-journalist-read";
     directory_pattern := directory_pattern WallStreetJournalPreparator;
     file_pattern := Some "c";
     dir_pattern := Some ["si_tr_j"] |}.

Definition JournalistSpontaneousPreparator : variant :=
  {| name := name WallStreetJournalPreparator ++ "-journalist-spontaneous";
     directory_pattern := Some ["si_tr_jd"];
     file_pattern := Some "s";
     dir_pattern := None |}.

Definition MainReadPreparator : variant :=
  {| name := name WallStreetJournalPreparator ++ "-main-read";
     directory_pattern := Some ["si_tr_s"; "si_tr_l"; "sd_tr_s"; "sd_tr_l"];
     file_pattern := Some "c";
     dir_pattern := None |}.

(** The predicates [__init__] builds from the class attributes. *)
Definition dir_filter (cls : variant) (d : string) : bool :=
  match directory_pattern cls with
  | None => true
  | Some pattern => mem d pattern
  end.

Definition filter_ext (cls : variant) (ext : string) (f : string)
  : result bool :=
  match file_pattern cls with
  | None => slice (Some (-4)) None f =? ext
  | Some pattern =>
      (getitem f 3 == pattern) &&& (slice (Some (-4)) None f =? ext)
  end.

Definition filter_dot (cls : variant) : string -> result bool :=
  filter_ext cls ".dot".

Definition filter_wv1 (cls : variant) : string -> result bool :=
  filter_ext cls ".wv1".

(** [WallStreetJournalPreparator.list_files], on the tree [fs]. *)
Definition list_files (fs : node) (input_dir : path)
    (dir_filter : string -> bool) (file_filter : string -> result bool)
  : result (list path) :=
  concat_map_r
    (fun triple : path * list string * list string =>
       let '(path, dirs, _) := triple in
       concat_map_r
         (fun d =>
            concat_map_r
              (fun triple' : Fs.path * list string * list string =>
                 let '(d_path, _, files) := triple' in
                 kept <- filter_r file_filter files ;;
                 Ok (map (fun f => (d_path ++ [f])%list) kept))
              (os_walk fs (path ++ [d])%list))
         (filter dir_filter dirs))
    (os_walk fs input_dir).

(** The body of the loop that looks for corrupted utterances: the
    utterance of a line that holds the tag, if the line holds it. *)
Definition bad_utt_of_line (line : string) : result (option string) :=
  if contains "[bad_recording]" line
  then match re_match_utt line with
       | Some (_, utt_id) => Ok (Some utt_id)
       | None => Raise AttributeError
       end
  else Ok None.

Fixpoint bad_utts_of_lines (bad_utts : list string) (lines : list string)
  : result (list string) :=
  match lines with
  | [] => Ok bad_utts
  | line :: lines' =>
      r <- bad_utt_of_line line ;;
      bad_utts_of_lines
        (match r with
         | Some utt_id => (bad_utts ++ [utt_id])%list
         | None => bad_utts
         end) lines'
  end.

(** The loop over the transcription files; each file is opened when its
    turn comes. *)
Fixpoint find_bad_utts (fs : node) (bad_utts : list string)
    (transcriptions : list path) : result (list string) :=
  match transcriptions with
  | [] => Ok bad_utts
  | trs :: rest =>
      content <- read_file trs fs ;;
      bad_utts' <- bad_utts_of_lines bad_utts (readlines content) ;;
      find_bad_utts fs bad_utts' rest
  end.

End Selector.

(** ** The preparator: initialization and the manifest emitters

    The log is left out of the model: [get_log] and the calls to
    [self.log]. *)

Module Preparator.

Import Selector Normalizer.
Local Open Scope py_scope.

Definition nl : string := String newline "".

(** The object [self]. *)
Record preparator : Type := {
  cls : variant;
  verbose : bool;
  input_dir : path;
  output_dir : path;
  data_dir : path;
  wavs_dir : path;
  segments_file : path;
  speaker_file : path;
  transcription_file : path;
  lexicon_file : path;
  phones_file : path;
  variants_file : path;
  silences_file : path;
  logs_dir : path;
  cmu_dict : path;
  input_recordings : list path;
  input_transcriptions : list path;
  bad_utts : list string
}.

(** The class attributes [phones], [silences] and [variants] of
    [WallStreetJournalPreparator]; [phones] is listed in the order the
    dictionary is iterated. *)
Definition phones : list (string * string) :=
  [("IY", "iː"); ("IH", "ɪ"); ("EH", "ɛ"); ("EY", "eɪ"); ("AE", "æ");
   ("AA", "ɑː"); ("AW", "aʊ"); ("AY", "aɪ"); ("AH", "ʌ"); ("AO", "ɔː");
   ("OY", "ɔɪ"); ("OW", "oʊ"); ("UH", "ʊ"); ("UW", "uː"); ("ER", "ɝ");
   ("JH", "ʤ"); ("CH", "ʧ"); ("B", "b"); ("D", "d"); ("G", "g");
   ("P", "p"); ("T", "t"); ("K", "k"); ("S", "s"); ("SH", "ʃ");
   ("Z", "z"); ("ZH", "ʒ"); ("F", "f"); ("TH", "θ"); ("V", "v");
   ("DH", "ð"); ("M", "m"); ("N", "n"); ("NG", "ŋ"); ("L", "l");
   ("R", "r"); ("W", "w"); ("Y", "j"); ("HH", "h")].

Definition silences : list string := ["NSN"].

Definition variants : list (list string) := [].

(** The text a loop writes to an open file, and how the loop ended: the
    body gives the line to write for an item, if any, or raises. *)
Fixpoint write_loop {A} (body : A -> result (option string)) (items : list A)
  : string * result unit :=
  match items with
  | [] => ("", Ok tt)
  | x :: rest =>
      match body x with
      | Raise e => ("", Raise e)
      | Ok line =>
          let (text, r) := write_loop body rest in
          (match line with Some l => l | None => "" end ++ text, r)
      end
  end.

Section WithDefaultOutputDir.

(** The constant [DEFAULT_OUTPUT_DIR] of [abkhazia.corpora.utils]. *)
Variable DEFAULT_OUTPUT_DIR : path.

(** [AbstractPreparator.__init__] *)
Definition abstract_init (cls : variant) (input_dir : path)
    (output_dir : option path) (verbose overwrite : bool) : io preparator :=
  (* init input directory *)
  input_ok <-- ask (fun fs => isdir fs input_dir) ;;
  if negb input_ok
  then raise (IOError ("input directory does not exist:" ++ nl
                       ++ path_str input_dir))
  else
    (* init output directory *)
    let output_dir :=
      match output_dir with
      | None => (DEFAULT_OUTPUT_DIR ++ [name cls])%list
      | Some d => d
      end in
    (* check if output directory already exists *)
    _ <-- (if overwrite then change (rmtree output_dir)
           else
             present <-- ask (fun fs => path_exists fs output_dir) ;;
             if (present : bool)
             then raise (IOError ("output directory already exists:" ++ nl
                                  ++ path_str output_dir))
             else ret tt) ;;
    (* create empty hierarchy output_dir/data/wavs *)
    let data_dir := (output_dir ++ ["data"])%list in
    let wavs_dir := (data_dir ++ ["wavs"])%list in
    _ <-- change (makedirs wavs_dir) ;;
    (* init output files that will be populated by prepare() *)
    let fname := fun name : string => (data_dir ++ [name])%list in
    (* create the log dir if not existing *)
    let logs_dir := (output_dir ++ ["logs"])%list in
    _ <-- change (makedirs logs_dir) ;;
    ret {| cls := cls;
           verbose := verbose;
           input_dir := input_dir;
           output_dir := output_dir;
           data_dir := data_dir;
           wavs_dir := wavs_dir;
           segments_file := fname "segments.txt";
           speaker_file := fname "utt2spk.txt";
           transcription_file := fname "text.txt";
           lexicon_file := fname "lexicon.txt";
           phones_file := fname "phones.txt";
           variants_file := fname "variants.txt";
           silences_file := fname "silences.txt";
           logs_dir := logs_dir;
           cmu_dict := [];
           input_recordings := [];
           input_transcriptions := [];
           bad_utts := [] |}.

(** [WallStreetJournalPreparator.__init__], for the class [cls] of the
    object. *)
Definition wsj_init (cls : variant) (input_dir cmu_dict : path)
    (output_dir : option path) (verbose : bool) : io preparator :=
  (* call the AbstractPreparator __init__ *)
  self <-- abstract_init cls input_dir output_dir verbose false ;;
  (* init path to the CMU dictionary *)
  dict_ok <-- ask (fun fs => isfile fs cmu_dict) ;;
  if negb dict_ok
  then raise (IOError ("CMU dictionary does not exist: "
                       ++ path_str cmu_dict))
  else
    recordings <-- (fun fs =>
      (list_files fs (Preparator.input_dir self) (dir_filter cls)
         (filter_wv1 cls), fs)) ;;
    transcriptions <-- (fun fs =>
      (list_files fs (Preparator.input_dir self) (dir_filter cls)
         (filter_dot cls), fs)) ;;
    (* filter out the corrupted utterances from recordings *)
    bad <-- (fun fs => (find_bad_utts fs [] transcriptions, fs)) ;;
    ret {| cls := cls;
           verbose := Preparator.verbose self;
           input_dir := Preparator.input_dir self;
           output_dir := Preparator.output_dir self;
           data_dir := Preparator.data_dir self;
           wavs_dir := Preparator.wavs_dir self;
           segments_file := Preparator.segments_file self;
           speaker_file := Preparator.speaker_file self;
           transcription_file := Preparator.transcription_file self;
           lexicon_file := Preparator.lexicon_file self;
           phones_file := Preparator.phones_file self;
           variants_file := Preparator.variants_file self;
           silences_file := Preparator.silences_file self;
           logs_dir := Preparator.logs_dir self;
           cmu_dict := cmu_dict;
           input_recordings := recordings;
           input_transcriptions := transcriptions;
           bad_utts := bad |}.

End WithDefaultOutputDir.

(** Modelled from the spec: [list_directory] of [abkhazia.corpora.utils]
    is not among the sources.  The segments manifest has one line per
    recording of the [wavs] directory, with the path of the recording, so
    the helper is taken to return the entries of the directory, each joined
    to the path of the directory, in the order they are listed. *)
Definition list_directory (d : path) : io (list path) :=
  fun fs =>
    match lookup d fs with
    | Some (Dir es) => (Ok (map (fun e => (d ++ [fst e])%list) es), fs)
    | _ => (Raise (OSError ("Not a directory: " ++ path_str d)), fs)
    end.

(** Modelled from the spec: [sph2wav] of [abkhazia.corpora.utils] is not
    among the sources.  It converts a recording into the file [wav]; the
    conversion of the audio is outside the model and the content is
    copied. *)
Definition sph2wav (sph wav : path) : io unit :=
  content <-- (fun fs => (read_file sph fs, fs)) ;;
  change (write_file wav content).

(** The body of a loop of statements, run for each item in turn. *)
Fixpoint for_each {A} (body : A -> io unit) (items : list A) : io unit :=
  match items with
  | [] => ret tt
  | x :: rest => _ <-- body x ;; for_each body rest
  end.

(** [WallStreetJournalPreparator.make_wavs] *)
Definition make_wavs (self : preparator) : io unit :=
  for_each
    (fun sph =>
       let utt_id := replace ".wv1" "" (basename sph) in
       if negb (mem utt_id (bad_utts self))  (* exclude some utterances *)
       then
         let wav := (wavs_dir self ++ [(utt_id ++ ".wav")%string])%list in
         present <-- ask (fun fs => path_exists fs wav) ;;
         if negb present then sph2wav sph wav else ret tt
       else ret tt)
    (input_recordings self).

(** [WallStreetJournalPreparator.make_segment] *)
Definition segment_line (wav : path) : result (option string) :=
  let utt_id := replace ".wav" "" (basename wav) in
  Ok (Some (utt_id ++ " " ++ path_str wav ++ nl)).

Definition make_segment (self : preparator) : io unit :=
  with_open_w (segments_file self)
    (wavs <-- list_directory (wavs_dir self) ;;
     ret (write_loop segment_line wavs)).

(** [WallStreetJournalPreparator.make_speaker] *)
Definition speaker_line (wav : path) : result (option string) :=
  let utt_id := replace ".wav" "" (basename wav) in
  (* speaker_id are the first 3 characters of the filename *)
  Ok (Some (utt_id ++ " " ++ slice None (Some 3) utt_id ++ nl)).

Definition make_speaker (self : preparator) : io unit :=
  with_open_w (speaker_file self)
    (wavs <-- list_directory (wavs_dir self) ;;
     ret (write_loop speaker_line wavs)).

(** [WallStreetJournalPreparator.make_transcription] *)
Fixpoint read_all_lines (files : list path) : io (list string) :=
  match files with
  | [] => ret []
  | trs :: rest =>
      content <-- (fun fs => (read_file trs fs, fs)) ;;
      lines <-- read_all_lines rest ;;
      ret (readlines content ++ lines)%list
  end.

Definition transcription_line (bad_utts : list string) (line : string)
  : result (option string) :=
  (* parse utt_id and text *)
  match re_match_utt (strip line) with
  | None => Raise AttributeError
  | Some (text, utt_id) =>
      (* skip bad utterances *)
      if negb (mem utt_id bad_utts)
      then
        (* re-format text and remove empty words *)
        words <- concat_map_r
                   (fun w => w' <- correct_word w ;; Ok [w'])
                   (split " " text) ;;
        let text :=
          join " " (filter (fun w => negb (String.eqb w "")) words) in
        (* output to file *)
        Ok (Some (utt_id ++ " " ++ text ++ nl))
      else Ok None
  end.

Definition make_transcription (self : preparator) : io unit :=
  (* concatenate all the transcription files *)
  transcription <-- read_all_lines (input_transcriptions self) ;;
  (* parse each line and write it to output file in abkhazia format *)
  with_open_w (transcription_file self)
    (ret (write_loop (transcription_line (bad_utts self)) transcription)).

(** [WallStreetJournalPreparator.make_lexicon] *)
Definition lexicon_line (line : string) : result (option string) :=
  (* remove newline and trailing spaces *)
  let line := strip line in
  (* skip comments *)
  if negb ((3 <=? len line) && String.eqb (slice None (Some 3) line) ";;;")
  then
    (* parse line *)
    match split "  " line with
    | [word; phones] =>
        (* skip alternative pronunciations *)
        if negb (re_match_alt word)
        then
          (* ignore stress variants of phones *)
          let phones := re_sub_digits phones in
          (* write to output file *)
          Ok (Some (word ++ " " ++ phones ++ nl))
        else Ok None
    | _ => Raise ValueError
    end
  else Ok None.

Definition noise_entry : string := "<noise> NSN" ++ nl.

Definition lexicon_text (lines : list string) : string * result unit :=
  let (text, r) := write_loop lexicon_line lines in
  match r with
  | Ok _ => (text ++ noise_entry, Ok tt)   (* add special word *)
  | Raise e => (text, Raise e)
  end.

Definition make_lexicon (self : preparator) : io unit :=
  with_open_w (lexicon_file self)
    (content <-- (fun fs => (read_file (cmu_dict self) fs, fs)) ;;
     ret (lexicon_text (readlines content))).

(** [AbstractPreparator.make_phones]: the comparisons [is not []] hold
    whatever the lists are. *)
Definition make_phones (self : preparator) : io unit :=
  _ <-- with_open_w (phones_file self)
          (ret (write_loop
                  (fun ph : string * string =>
                     Ok (Some (fst ph ++ " " ++ snd ph ++ nl)))
                  phones)) ;;
  _ <-- with_open_w (silences_file self)
          (ret (write_loop (fun sil : string => Ok (Some (sil ++ nl)))
                  silences)) ;;
  with_open_w (variants_file self)
    (ret (write_loop
            (fun var : list string => Ok (Some (join " " var ++ nl)))
            variants)).

(** The methods [prepare] calls on the object; a class gives them. *)
Record methods : Type := {
  link_wavs : preparator -> io unit;
  meth_make_segment : preparator -> io unit;
  meth_make_speaker : preparator -> io unit;
  meth_make_transcription : preparator -> io unit;
  meth_make_lexicon : preparator -> io unit;
  meth_make_phones : preparator -> io unit
}.

(** [AbstractPreparator]: the steps a child class must implement raise. *)
Definition AbstractPreparator_methods : methods :=
  {| link_wavs := fun _ => raise NotImplementedError;
     meth_make_segment := fun _ => raise NotImplementedError;
     meth_make_speaker := fun _ => raise NotImplementedError;
     meth_make_transcription := fun _ => raise NotImplementedError;
     meth_make_lexicon := fun _ => raise NotImplementedError;
     meth_make_phones := make_phones |}.

(** [WallStreetJournalPreparator] and its three child classes: the class
    defines [make_wavs], [make_segment], [make_speaker],
    [make_transcription] and [make_lexicon]; [link_wavs] and [make_phones]
    are those of [AbstractPreparator]. *)
Definition WallStreetJournal_methods : methods :=
  {| link_wavs := link_wavs AbstractPreparator_methods;
     meth_make_segment := make_segment;
     meth_make_speaker := make_speaker;
     meth_make_transcription := make_transcription;
     meth_make_lexicon := make_lexicon;
     meth_make_phones := meth_make_phones AbstractPreparator_methods |}.

(** [AbstractPreparator.prepare] *)
Definition prepare (m : methods) (self : preparator) : io unit :=
  let steps :=
    [link_wavs m; meth_make_segment m; meth_make_speaker m;
     meth_make_transcription m; meth_make_lexicon m; meth_make_phones m] in
  for_each (fun step => step self) steps.

End Preparator.

(** ** The command-line entry point *)

Module Cli.

Import Selector Preparator.
Local Open Scope py_scope.

(** The namespace [parse_args] returns. *)
Record args : Type := {
  arg_input_dir : path;
  arg_cmu_dict : path;
  arg_output_dir : option path;
  arg_verbose : bool;
  arg_selection : option Z;
  arg_no_validation : bool
}.

(** mapping of the three WSJ variations *)
Definition selection : list (string * variant) :=
  [("journalist-read", JournalistReadPreparator);
   ("journalist-spontaneous", JournalistSpontaneousPreparator);
   ("main-read", MainReadPreparator)].

(** [l[i]] on a list. *)
Definition list_getitem {A} (l : list A) (i : Z) : result A :=
  let j := if i <? 0 then i + Z.of_nat (length l) else i in
  if j <? 0 then Raise IndexError
  else match nth_error l (Z.to_nat j) with
       | Some x => Ok x
       | None => Raise IndexError
       end.

(** What the process prints on its standard output, and how it ends. *)
Definition exit_code {A} (r : result A) : Z :=
  match r with
  | Ok _ => 0
  | Raise (SystemExit code) => code
  | Raise _ => 1
  end.

Section WithEnvironment.

Variable DEFAULT_OUTPUT_DIR : path.

(** [validation.validate] of [abkhazia.corpora.utils], which is not among
    the sources. *)
Variable validate : path -> bool -> io unit.

(** What [parser.parse_args()] makes of the command line: the namespace,
    or [SystemExit] when the command line is refused. *)
Variable parse_args : result args.

(** The body of the [try] statement of [main]. *)
Definition main_try : io unit :=
  (* parse command line arguments *)
  a <-- lift parse_args ;;
  (* select the preparator *)
  preparator <-- lift
    (match arg_selection a with
     | None => Ok WallStreetJournalPreparator
     | Some i => entry <- list_getitem selection (i - 1) ;; Ok (snd entry)
     end) ;;
  (* prepare the corpus *)
  corpus_prep <-- wsj_init DEFAULT_OUTPUT_DIR preparator
                    (arg_input_dir a) (arg_cmu_dict a) (arg_output_dir a)
                    (arg_verbose a) ;;
  _ <-- prepare WallStreetJournal_methods corpus_prep ;;
  if negb (arg_no_validation a)
  then validate (output_dir corpus_prep) (verbose corpus_prep)
  else ret tt.

(** [main]: the lines printed, and how the call ended. *)
Definition main (fs : node) : list string * result unit * node :=
  match main_try fs with
  | (Ok _, fs') => ([], Ok tt, fs')
  | (Raise err, fs') =>
      if is_Exception err
      then (["fatal error: " ++ str_of_exception err], Ok tt, fs')
      else ([], Raise err, fs')
  end.

(** The exit code of the process that runs [main] as a script. *)
Definition process_exit_code (fs : node) : Z :=
  exit_code (snd (fst (main fs))).

End WithEnvironment.

End Cli.

(** ** Notions the properties are stated with *)

Module NormalizerSpec.

Import Normalizer.
Local Open Scope py_scope.

(** The word once the case, the backslashes and the two prefixes are
    corrected, before the angle brackets are looked at. *)
Definition corrected_form (word : string) : string :=
  replace ".POINT" "POINT"
    (replace "%PERCENT" "PERCENT" (replace "\" "" (upper word))).

(** The end of [correct_word], from the ignore rules on. *)
Definition finish_word (word : string) : result string :=
  ignored <-
    (word =? "~") ||| (word =? ".") |||
    ((slice None (Some 1) word =? "[<") &&& (getitem word (-1) == "]")) |||
    ((getitem word 0 == "[") &&& (slice (Some (-2)) None word =? ">]")) |||
    ((getitem word 0 == "[") &&& (slice (Some (-2)) None word =? "/]")) |||
    ((slice None (Some 1) word =? "[/") &&& (getitem word (-1) == "]")) ;;
  if (ignored : bool) then Ok ""
  else
    noise <- (getitem word 0 == "[") &&& (getitem word (-1) == "]") ;;
    if (noise : bool) then Ok "<noise>"
    else if String.eqb word "--DASH" then Ok "-DASH"
    else Ok word.

End NormalizerSpec.

Module FsSpec.

(** What is found at a path: nothing, a file with its content, or a
    directory. *)
Inductive kind : Type :=
| Absent
| IsFile (content : string)
| IsDir.

Definition kind_at (fs : node) (p : path) : kind :=
  match lookup p fs with
  | None => Absent
  | Some (File content) => IsFile content
  | Some (Dir _) => IsDir
  end.

(** [q] is [p] or a directory above it. *)
Fixpoint is_prefix (q p : path) : bool :=
  match q, p with
  | [], _ => true
  | c :: q', d :: p' => String.eqb c d && is_prefix q' p'
  | _ :: _, [] => false
  end.

Fixpoint path_eqb (q p : path) : bool :=
  match q, p with
  | [], [] => true
  | c :: q', d :: p' => String.eqb c d && path_eqb q' p'
  | _, _ => false
  end.

End FsSpec.

Module DetectorSpec.

Import Selector.



(** No line feed in the text. *)
Fixpoint no_nl (s : string) : bool :=
  match s with
  | EmptyString => true
  | String c s' => negb (Ascii.eqb c newline) && no_nl s'
  end.

(** The format of a transcription line: a text, a space, and the
    utterance between parentheses, on one line. *)
Definition utt_format (line : string) : Prop :=
  exists text utt_id rest,
    no_nl text = true /\ no_nl utt_id = true /\
    line = text ++ " (" ++ utt_id ++ ")" ++ rest.

(** The lines of the transcription files, in the order they are read. *)
Definition transcription_lines (fs : node) (files : list path) : list string :=
  flat_map (fun trs => match read_file trs fs with
                       | Ok content => readlines content
                       | Raise _ => []
                       end) files.

End DetectorSpec.

Module LexiconSpec.

Import Preparator DetectorSpec.

(** A comment of the dictionary, once the blanks around the line are
    removed. *)
Definition comment_line (line : string) : Prop :=
  exists rest, strip line = ";;;" ++ rest.

(** An entry of the dictionary: a word and its phones, two spaces
    between them. *)
Definition entry_line (line word phones : string) : Prop :=
  split "  " (strip line) = [word; phones].




(** The lines written to a file, one after the other. *)
Definition concat_lines (out : list string) : string :=
  fold_right String.append "" out.

End LexiconSpec.

Module SelectorSpec.

Import Selector FsSpec.
Local Open Scope list_scope.

(** The paths of the files of one triple of a walk that the predicate on
    the names of the files keeps. *)
Definition kept_files (ff : string -> bool)
    (triple : path * list string * list string) : list path :=
  let '(d_path, _, files) := triple in
  map (fun f => d_path ++ [f]) (filter ff files).

(** What one triple of the outer walk adds to the list. *)
Definition matched_below (fs : node) (df ff : string -> bool)
    (triple : path * list string * list string) : list path :=
  let '(path, dirs, _) := triple in
  flat_map (fun d => flat_map (kept_files ff) (os_walk fs (path ++ [d])))
    (filter df dirs).

(** [list_files] for predicates that do not raise. *)
Definition list_files_pure (fs : node) (input_dir : path)
    (df ff : string -> bool) : list path :=
  flat_map (matched_below fs df ff) (os_walk fs input_dir).

(** The files of a tree that the predicate keeps, by their paths from the
    top of the tree. *)
Fixpoint files_rel (ff : string -> bool) (n : node) : list path :=
  match n with
  | File _ => []
  | Dir es =>
      map (fun f => [f]) (filter ff (filenames es))
        ++ flat_map (fun e => map (cons (fst e)) (files_rel ff (snd e))) es
  end.

(** The files under the directories of a tree that the predicate on the
    names of the directories keeps, once for each such directory. *)
Fixpoint selected_rel (df ff : string -> bool) (n : node) : list path :=
  match n with
  | File _ => []
  | Dir es =>
      flat_map
        (fun e =>
           (if df (fst e)
            then map (cons (fst e)) (files_rel ff (snd e)) else [])
             ++ map (cons (fst e)) (selected_rel df ff (snd e)))
        es
  end.

(** How many times a path is in a list. *)
Definition count (p : path) (l : list path) : nat :=
  length (filter (path_eqb p) l).

(** Induction on a tree, with the property for the entries of a
    directory. *)
Fixpoint node_rect' (P : node -> Prop)
    (HFile : forall content, P (File content))
    (HDir : forall es, Forall (fun e => P (snd e)) es -> P (Dir es))
    (n : node) : P n :=
  match n with
  | File content => HFile content
  | Dir es =>
      HDir es
        ((fix entries (es : list (string * node))
            : Forall (fun e => P (snd e)) es :=
            match es with
            | [] => Forall_nil _
            | e :: es' =>
                Forall_cons e (node_rect' P HFile HDir (snd e)) (entries es')
            end) es)
  end.

(** The path names a file of the tree that the predicate keeps. *)
Definition selected_file (ff : string -> bool) (n : node) (r : path) : bool :=
  match r with
  | [] => false
  | _ :: _ => isfile n r && ff (last r "")
  end.

Definition nat_of_bool (b : bool) : nat := if b then 1 else 0.

End SelectorSpec.

Module InitSpec.

Import Selector.
Local Open Scope list_scope.

(** The output directory of the object: the one that is given, or the
    default one for the corpus. *)
Definition chosen_output_dir (default_dir : path) (cls : variant)
    (output_dir : option path) : path :=
  match output_dir with
  | None => default_dir ++ [name cls]
  | Some d => d
  end.

End InitSpec.

Module WordSpec.

(** Every character of the text satisfies the predicate. *)
Fixpoint all_chars (p : ascii -> bool) (s : string) : bool :=
  match s with
  | EmptyString => true
  | String c s' => p c && all_chars p s'
  end.

(** A lower-case letter, from [a] to [z]. *)
Definition is_lower (c : ascii) : bool :=
  let n := nat_of_ascii c in
  (Nat.leb 97 n && Nat.leb n 122)%bool.

(** Neither a lower-case letter nor a backslash. *)
Definition plain (c : ascii) : bool :=
  negb (is_lower c) && negb (Ascii.eqb c "\").

(** The characters the corrections look at: the backslash, the first
    characters of the two prefixes, the brackets that open an annotation,
    the signs of a truncation and of a pause, and the dash. *)
Definition special (c : ascii) : bool :=
  existsb (Ascii.eqb c) ["\"; "%"; "."; "<"; "["; "~"; "-"]%char.

End WordSpec.

Module RemovalSpec.

(** An entry that is removed when it is a directory, and on which the
    removal raises otherwise. *)
Definition removes_dirs (f : option node -> result (option node)) : Prop :=
  forall cur,
    match cur with
    | Some (Dir _) => f cur = Ok None
    | _ => exists e, f cur = Raise e
    end.

End RemovalSpec.

Module ObjectSpec.

Import Selector Preparator InitSpec.
Local Open Scope list_scope.

(** The object [AbstractPreparator.__init__] makes. *)
Definition init_object (default_dir : path) (cls : variant)
    (input_dir : path) (output_dir : option path) (verbose : bool)
  : preparator :=
  let out := chosen_output_dir default_dir cls output_dir in
  let data := out ++ ["data"] in
  {| Preparator.cls := cls;
     Preparator.verbose := verbose;
     Preparator.input_dir := input_dir;
     Preparator.output_dir := out;
     data_dir := data;
     wavs_dir := data ++ ["wavs"];
     segments_file := data ++ ["segments.txt"];
     speaker_file := data ++ ["utt2spk.txt"];
     transcription_file := data ++ ["text.txt"];
     lexicon_file := data ++ ["lexicon.txt"];
     phones_file := data ++ ["phones.txt"];
     variants_file := data ++ ["variants.txt"];
     silences_file := data ++ ["silences.txt"];
     logs_dir := out ++ ["logs"];
     cmu_dict := [];
     input_recordings := [];
     input_transcriptions := [];
     bad_utts := [] |}.

End ObjectSpec.

Module SelectorMoreSpec.

(** The function raises [IndexError] only. *)
Definition only_IndexError {A B} (f : A -> result B) : Prop :=
  forall x e, f x = Raise e -> e = IndexError.

(** The name ends with the extension, a dot and three characters. *)
Definition has_ext (ext f : string) : bool :=
  String.eqb (slice (Some (-4)%Z) None f) ext.

(** The fourth character of the name is [c]. *)
Definition fourth_is (c : ascii) (f : string) : bool :=
  match String.get 3 f with
  | Some c' => Ascii.eqb c' c
  | None => false
  end.

End SelectorMoreSpec.

Module ManifestSpec.

Import Normalizer Preparator.
Local Open Scope list_scope.

(** The words of a transcription that are kept, corrected. *)
Definition words_of (text : string) : list string :=
  flat_map (fun w => match correct_word w with
                     | Ok w' => if String.eqb w' "" then [] else [w']
                     | Raise _ => []
                     end)
    (split " " text).

(** The line of the transcription manifest for a line of a transcription
    file, if it has one. *)
Definition text_entry (bad_utts : list string) (line : string) : list string :=
  match re_match_utt (strip line) with
  | Some (text, utt_id) =>
      if mem utt_id bad_utts then []
      else [(utt_id ++ " " ++ join " " (words_of text) ++ nl)%string]
  | None => []
  end.

(** The line of the lexicon for a line of the dictionary, if it has
    one. *)
Definition lexicon_entry (line : string) : list string :=
  match lexicon_line line with
  | Ok (Some l) => [l]
  | _ => []
  end.

End ManifestSpec.

Module RecordingSpec.

Import Preparator.
Local Open Scope list_scope.
Local Open Scope py_scope.

(** The utterance of a recording, and the file [make_wavs] converts it
    to. *)
Definition utt_of (sph : path) : string :=
  replace ".wv1" "" (basename sph).

Definition wav_of (self : preparator) (utt_id : string) : path :=
  wavs_dir self ++ [(utt_id ++ ".wav")%string].

(** [WallStreetJournalPreparator.make_wavs], for any converter in the
    place of [sph2wav]. *)
Definition make_wavs_with (sph2wav : path -> path -> io unit)
    (self : preparator) : io unit :=
  for_each
    (fun sph =>
       let utt_id := replace ".wv1" "" (basename sph) in
       if negb (mem utt_id (bad_utts self))  (* exclude some utterances *)
       then
         let wav := (wavs_dir self ++ [(utt_id ++ ".wav")%string])%list in
         present <-- ask (fun fs => path_exists fs wav) ;;
         if negb present then sph2wav sph wav else ret tt
       else ret tt)
    (input_recordings self).

(** The converter changes nothing but the file it converts to. *)
Definition writes_target_only (conv : path -> path -> io unit) : Prop :=
  forall sph wav fs q,
    FsSpec.path_eqb q wav = false ->
    FsSpec.kind_at (snd (conv sph wav fs)) q = FsSpec.kind_at fs q.

End RecordingSpec.

(** ** Sample inputs *)

Module Samples.

Import Selector Preparator Cli.

(** A dictionary with a comment, an entry and an alternative
    pronunciation of its word. *)
Definition sample_dict : string :=
  ";;; a comment" ++ nl ++ "OK  OW K EY1" ++ nl ++ "OK(1)  OW K EY1" ++ nl.

(** A file system with one recording and its transcription, and the
    command line that prepares it. *)
Definition sample_fs : node :=
  Dir [("wsj", Dir [("si_tr_s", Dir
          [("4k0c0301.wv1", File "audio");
           ("4k0c0301.dot",
            File ("THE <DOOR> SLAMMED [loud_breath] (4k0c0301)" ++ nl))])]);
       ("cmudict", File sample_dict)].

Definition sample_args : args :=
  {| arg_input_dir := ["wsj"];
     arg_cmu_dict := ["cmudict"];
     arg_output_dir := Some ["out"];
     arg_verbose := false;
     arg_selection := None;
     arg_no_validation := false |}.

Definition no_validation_errors : path -> bool -> io unit :=
  fun _ _ => ret tt.

(** The file system once [main] has run on the sample. *)
Definition sample_fs_after : node :=
  Eval vm_compute in
    snd (main_try ["corpora"] no_validation_errors (Ok sample_args) sample_fs).

(** The object [main] builds on the sample. *)
Definition sample_self : preparator :=
  {| cls := WallStreetJournalPreparator;
     verbose := false;
     input_dir := ["wsj"];
     output_dir := ["out"];
     data_dir := ["out"; "data"];
     wavs_dir := ["out"; "data"; "wavs"];
     segments_file := ["out"; "data"; "segments.txt"];
     speaker_file := ["out"; "data"; "utt2spk.txt"];
     transcription_file := ["out"; "data"; "text.txt"];
     lexicon_file := ["out"; "data"; "lexicon.txt"];
     phones_file := ["out"; "data"; "phones.txt"];
     variants_file := ["out"; "data"; "variants.txt"];
     silences_file := ["out"; "data"; "silences.txt"];
     logs_dir := ["out"; "logs"];
     cmu_dict := ["cmudict"];
     input_recordings := [["wsj"; "si_tr_s"; "4k0c0301.wv1"]];
     input_transcriptions := [["wsj"; "si_tr_s"; "4k0c0301.dot"]];
     bad_utts := [] |}.

(** A recording two directories below the root of the corpus. *)
Definition nested_fs : node :=
  Dir [("wsj", Dir [("disc1", Dir [("si_tr_s", Dir
          [("4k0c0301.wv1", File "audio")])])])].


End Samples.

Module MoreSamples.

Import Preparator.

(** A corpus with an empty line in its transcription and in its
    dictionary, and the output directories of [sample_self]. *)
Definition blank_line_fs : node :=
  Dir [("wsj", Dir [("si_tr_s", Dir
          [("4k0c0301.dot",
            File ("HELLO (4k0c0301)" ++ nl ++ nl
                  ++ "WORLD (4k0c0302)" ++ nl))])]);
       ("cmudict", File ("OK  OW K EY1" ++ nl ++ nl ++ "NO  N OW1" ++ nl));
       ("out", Dir [("data", Dir [("wavs", Dir [])]); ("logs", Dir [])])].

End MoreSamples.

(** ** Properties of the file system *)

Module FsFacts.

Import FsSpec.
Local Open Scope list_scope.

Lemma lookup_entry_set_eq (c : string) (x : node) (es : list (string * node)) :
  lookup_entry c (set_entry c x es) = Some x.
Proof.
  induction es as [|[n y] es IH]; simpl.
  - now rewrite String.eqb_refl.
  - destruct (String.eqb n c) eqn:E; simpl; rewrite E; [reflexivity | exact IH].
Qed.

Lemma lookup_entry_set_ne (c d : string) (x : node)
    (es : list (string * node)) :
  String.eqb c d = false ->
  lookup_entry d (set_entry c x es) = lookup_entry d es.
Proof.
  intros Hcd. induction es as [|[n y] es IH]; simpl.
  - now rewrite Hcd.
  - destruct (String.eqb n c) eqn:E; simpl.
    + apply String.eqb_eq in E. subst n. now rewrite Hcd.
    + destruct (String.eqb n d); [reflexivity | exact IH].
Qed.

Lemma set_entry_twice (c : string) (x y : node) (es : list (string * node)) :
  set_entry c y (set_entry c x es) = set_entry c y es.
Proof.
  induction es as [|[n z] es IH]; simpl.
  - now rewrite String.eqb_refl.
  - destruct (String.eqb n c) eqn:E; simpl; rewrite E;
      [reflexivity | now rewrite IH].
Qed.

Lemma path_eqb_eq (q p : path) : path_eqb q p = true <-> q = p.
Proof.
  revert p. induction q as [|c q IH]; intros [|d p]; simpl;
    try (split; [discriminate | congruence]); try tauto.
  rewrite andb_true_iff, String.eqb_eq, IH. split.
  - intros [-> ->]. reflexivity.
  - intros H. injection H as -> ->. auto.
Qed.

Lemma path_eqb_refl (p : path) : path_eqb p p = true.
Proof. now apply path_eqb_eq. Qed.

Lemma kind_at_nil (n : node) :
  kind_at n [] = match n with File c => IsFile c | Dir _ => IsDir end.
Proof. reflexivity. Qed.

Lemma kind_at_cons (n : node) (c : string) (q : path) :
  kind_at n (c :: q)
  = match n with
    | File _ => Absent
    | Dir es => match lookup_entry c es with
                | Some x => kind_at x q
                | None => Absent
                end
    end.
Proof.
  unfold kind_at. simpl. destruct n as [content|es]; [reflexivity|].
  destruct (lookup_entry c es); reflexivity.
Qed.

Lemma kind_at_below_file (content : string) (q : path) :
  q <> [] -> kind_at (File content) q = Absent.
Proof. destruct q; [congruence | reflexivity]. Qed.

(** Writing a file twice is writing it once with the last content. *)
Lemma alter_at_put_twice (err : exception) (p0 : path) (c1 c2 : string)
    (p : path) :
  forall fs f1,
    alter_at err p (put_file p0 c1) fs = Ok f1 ->
    alter_at err p (put_file p0 c2) f1 = alter_at err p (put_file p0 c2) fs.
Proof.
  induction p as [|c p IH]; intros fs f1 H.
  - destruct fs; discriminate.
  - destruct fs as [content|es]; [discriminate|].
    simpl in H. destruct p as [|d p].
    + destruct (lookup_entry c es) as [[cont|es']|] eqn:Hc; simpl in H;
        try discriminate; injection H as <-; simpl;
        rewrite lookup_entry_set_eq, Hc; simpl; now rewrite set_entry_twice.
    + destruct (lookup_entry c es) as [child|] eqn:Hc; [|discriminate].
      destruct (alter_at err (d :: p) _ child) as [child'|e] eqn:Hchild;
        [|discriminate].
      simpl in H. injection H as <-.
      specialize (IH child child' Hchild).
      simpl. rewrite lookup_entry_set_eq, Hc.
      simpl in IH. rewrite IH.
      destruct (match child with File _ => _ | Dir _ => _ end); simpl;
        [now rewrite set_entry_twice | reflexivity].
Qed.

Lemma write_file_twice (p : path) (c1 c2 : string) (fs f1 : node) :
  write_file p c1 fs = Ok f1 -> write_file p c2 f1 = write_file p c2 fs.
Proof. apply alter_at_put_twice. Qed.

(** What is found at the paths once a file is written. *)
Lemma alter_at_put_kind (err : exception) (p0 : path) (content : string)
    (p : path) :
  forall fs fs',
    alter_at err p (put_file p0 content) fs = Ok fs' ->
    forall q,
      kind_at fs' q = if path_eqb q p then IsFile content else kind_at fs q.
Proof.
  induction p as [|c p IH]; intros fs fs' H q.
  - destruct fs; discriminate.
  - destruct fs as [cont|es]; [discriminate|].
    simpl in H. destruct p as [|d p].
    + assert (Hcur : forall q', q' <> [] ->
                match lookup_entry c es with
                | Some x => kind_at x q'
                | None => Absent
                end = Absent).
      { intros q' Hq'. destruct (lookup_entry c es) as [[cont|es']|];
          [apply kind_at_below_file; exact Hq' | discriminate | reflexivity]. }
      assert (Hfs' : fs' = Dir (set_entry c (File content) es)).
      { destruct (lookup_entry c es) as [[cont|es']|]; simpl in H;
          try discriminate; now injection H as <-. }
      subst fs'. destruct q as [|e q]; [reflexivity|].
      rewrite !kind_at_cons. simpl.
      destruct (String.eqb e c) eqn:Hec.
      * apply String.eqb_eq in Hec. subst e.
        rewrite lookup_entry_set_eq.
        destruct q as [|e' q]; [reflexivity|].
        simpl. symmetry. apply Hcur. discriminate.
      * rewrite lookup_entry_set_ne; [reflexivity|].
        now rewrite String.eqb_sym.
    + destruct (lookup_entry c es) as [child|] eqn:Hc; [|discriminate].
      destruct (alter_at err (d :: p) _ child) as [child'|e0] eqn:Hchild;
        [|discriminate].
      simpl in H. injection H as <-.
      destruct q as [|e q]; [reflexivity|].
      rewrite !kind_at_cons.
      change (path_eqb (e :: q) (c :: d :: p))
        with (String.eqb e c && path_eqb q (d :: p)).
      destruct (String.eqb e c) eqn:Hec.
      * apply String.eqb_eq in Hec. subst e.
        rewrite lookup_entry_set_eq, Hc. simpl.
        apply (IH child child' Hchild).
      * rewrite lookup_entry_set_ne; [reflexivity|].
        now rewrite String.eqb_sym.
Qed.

Lemma write_file_kind (p : path) (content : string) (fs fs' : node) :
  write_file p content fs = Ok fs' ->
  forall q,
    kind_at fs' q = if path_eqb q p then IsFile content else kind_at fs q.
Proof. apply alter_at_put_kind. Qed.

(** Whether a file can be written does not depend on what is written. *)
Lemma alter_at_put_any (err : exception) (p0 : path) (c1 c2 : string)
    (p : path) :
  forall fs f1,
    alter_at err p (put_file p0 c1) fs = Ok f1 ->
    exists f2, alter_at err p (put_file p0 c2) fs = Ok f2.
Proof.
  induction p as [|c p IH]; intros fs f1 H.
  - destruct fs; discriminate.
  - destruct fs as [content|es]; [discriminate|].
    simpl in H. simpl. destruct p as [|d p].
    + destruct (lookup_entry c es) as [[cont|es']|]; simpl in *;
        try discriminate; eauto.
    + destruct (lookup_entry c es) as [child|]; [|discriminate].
      destruct (alter_at err (d :: p) (put_file p0 c1) child)
        as [child'|e] eqn:Hchild; [|discriminate].
      destruct (IH child child' Hchild) as [f2 Hf2].
      rewrite Hf2. simpl. eauto.
Qed.

Lemma read_file_kind (p : path) (fs : node) (content : string) :
  read_file p fs = Ok content <-> kind_at fs p = IsFile content.
Proof.
  unfold read_file, kind_at.
  destruct (lookup p fs) as [[c|es]|]; split; intros H;
    try discriminate; congruence.
Qed.

Lemma read_file_same_kind (p : path) (fs fs' : node) :
  kind_at fs' p = kind_at fs p -> read_file p fs' = read_file p fs.
Proof.
  unfold read_file, kind_at.
  destruct (lookup p fs') as [[c'|es']|], (lookup p fs) as [[c|es]|];
    intros H; try discriminate; congruence.
Qed.

Lemma is_prefix_refl (p : path) : is_prefix p p = true.
Proof. induction p as [|c p IH]; simpl; [|rewrite String.eqb_refl]; auto. Qed.

Lemma is_prefix_app (q r : path) : is_prefix q (q ++ r) = true.
Proof. induction q as [|c q IH]; simpl; [|rewrite String.eqb_refl]; auto. Qed.

Lemma is_prefix_app_same (o a b : path) :
  is_prefix (o ++ a) (o ++ b) = is_prefix a b.
Proof. induction o as [|c o IH]; simpl; [|rewrite String.eqb_refl]; auto. Qed.


Lemma is_prefix_split (q p : path) :
  is_prefix q p = true -> exists r, p = (q ++ r)%list.
Proof.
  revert p. induction q as [|c q IH]; intros p H.
  - exists p. reflexivity.
  - destruct p as [|d p]; [discriminate|]. simpl in H.
    apply andb_prop in H as [Hc Hq]. apply String.eqb_eq in Hc. subst d.
    destruct (IH p Hq) as [r ->]. exists r. reflexivity.
Qed.

(** Nothing is found below a path where nothing is found. *)
Lemma kind_at_absent_below (q r : path) :
  forall fs, kind_at fs q = Absent -> kind_at fs (q ++ r) = Absent.
Proof.
  induction q as [|c q IH]; intros fs H.
  - rewrite kind_at_nil in H. destruct fs; discriminate.
  - simpl. rewrite kind_at_cons in *. destruct fs as [cont|es]; [reflexivity|].
    destruct (lookup_entry c es); [apply IH; exact H | reflexivity].
Qed.

Lemma chain_kind (p q : path) :
  kind_at (chain p) q = if is_prefix q p then IsDir else Absent.
Proof.
  revert q. induction p as [|c p IH]; intros [|d q]; try reflexivity.
  rewrite kind_at_cons. simpl.
  rewrite String.eqb_sym. destruct (String.eqb d c); simpl;
    [apply IH | reflexivity].
Qed.

(** What is found at the paths once directories are made: the
    directories of [p], and what was there before. *)
Lemma makedirs_kind (p : path) :
  forall fs fs',
    makedirs p fs = Ok fs' ->
    forall q, kind_at fs' q = if is_prefix q p then IsDir else kind_at fs q.
Proof.
  induction p as [|c p IH]; intros fs fs' H q; [discriminate|].
  destruct fs as [cont|es]; [discriminate|]. simpl in H.
  destruct (lookup_entry c es) as [child|] eqn:Hc.
  - destruct (makedirs p child) as [child'|e] eqn:Hchild; [|discriminate].
    simpl in H. injection H as <-.
    destruct q as [|d q]; [reflexivity|].
    rewrite !kind_at_cons. simpl.
    destruct (String.eqb d c) eqn:Hdc; simpl.
    + apply String.eqb_eq in Hdc. subst d.
      rewrite lookup_entry_set_eq, Hc. apply (IH child child' Hchild).
    + rewrite lookup_entry_set_ne; [reflexivity | now rewrite String.eqb_sym].
  - injection H as <-.
    destruct q as [|d q]; [reflexivity|].
    rewrite !kind_at_cons. simpl.
    destruct (String.eqb d c) eqn:Hdc; simpl.
    + apply String.eqb_eq in Hdc. subst d.
      rewrite lookup_entry_set_eq, Hc. apply chain_kind.
    + rewrite lookup_entry_set_ne; [reflexivity | now rewrite String.eqb_sym].
Qed.

(** Directories can be made where nothing is found, below directories. *)
Lemma makedirs_ok (p : path) :
  forall fs,
    kind_at fs [] = IsDir ->
    kind_at fs p = Absent ->
    (forall q content, is_prefix q p = true -> kind_at fs q <> IsFile content) ->
    exists fs', makedirs p fs = Ok fs'.
Proof.
  induction p as [|c p IH]; intros fs Hroot Hp Habove.
  - congruence.
  - destruct fs as [cont|es]; [discriminate|]. simpl.
    destruct (lookup_entry c es) as [child|] eqn:Hc; [|eauto].
    destruct (IH child) as [child' Hchild'].
    + destruct child as [cont|es']; [|reflexivity].
      exfalso. apply (Habove [c] cont).
      * simpl. now rewrite String.eqb_refl.
      * rewrite kind_at_cons, Hc. reflexivity.
    + rewrite kind_at_cons, Hc in Hp. exact Hp.
    + intros q content Hq Hk. apply (Habove (c :: q) content).
      * simpl. now rewrite String.eqb_refl.
      * rewrite kind_at_cons, Hc. exact Hk.
    + rewrite Hchild'. simpl. eauto.
Qed.

Lemma isdir_kind (fs : node) (p : path) :
  isdir fs p = true <-> kind_at fs p = IsDir.
Proof.
  unfold isdir, kind_at. destruct (lookup p fs) as [[c|es]|];
    split; intros H; try discriminate; reflexivity.
Qed.

Lemma path_exists_kind (fs : node) (p : path) :
  path_exists fs p = false <-> kind_at fs p = Absent.
Proof.
  unfold path_exists, kind_at. destruct (lookup p fs) as [[c|es]|];
    split; intros H; try discriminate; reflexivity.
Qed.

Lemma isfile_kind (fs : node) (p : path) :
  isfile fs p = true <-> exists content, kind_at fs p = IsFile content.
Proof.
  unfold isfile, kind_at. destruct (lookup p fs) as [[c|es]|]; split;
    try discriminate; try (intros [? ?]; discriminate); eauto.
Qed.

(** The root is a directory as soon as some path is one. *)
Lemma isdir_root (fs : node) (p : path) :
  isdir fs p = true -> kind_at fs [] = IsDir.
Proof.
  unfold isdir, kind_at. destruct p as [|c p]; simpl.
  - destruct fs; [discriminate | reflexivity].
  - destruct fs; [discriminate | reflexivity].
Qed.

End FsFacts.
(** ** Properties of the fragments of the Python runtime *)

Module PyFacts.

Lemma get_beyond (s : string) :
  forall n, (String.length s <= n)%nat -> String.get n s = None.
Proof.
  induction s as [|c s IH]; intros n Hn; [reflexivity|].
  destruct n as [|n]; simpl in *; [lia|]. apply IH. lia.
Qed.

(** [f[n]] for an index that is not negative. *)
Lemma getitem_get (s : string) (n : nat) :
  getitem s (Z.of_nat n)
  = match String.get n s with
    | Some c => Ok (String c "")
    | None => Raise IndexError
    end.
Proof.
  unfold getitem. cbv zeta.
  replace (Z.of_nat n <? 0) with false by (symmetry; apply Z.ltb_ge; lia).
  cbv iota. replace (Z.of_nat n <? 0) with false
    by (symmetry; apply Z.ltb_ge; lia).
  cbn [orb]. destruct (len s <=? Z.of_nat n) eqn:E.
  - apply Z.leb_le in E. unfold len in E.
    rewrite get_beyond; [reflexivity | lia].
  - now rewrite Nat2Z.id.
Qed.

Lemma get_within (s : string) :
  forall n, (n < String.length s)%nat -> exists c, String.get n s = Some c.
Proof.
  induction s as [|c s IH]; intros n Hn; simpl in Hn; [lia|].
  destruct n as [|n]; simpl; [eauto|]. apply IH. lia.
Qed.

(** [s[0]] and [s[-1]] on a text that is not empty. *)
Lemma getitem_first (c : ascii) (s : string) :
  getitem (String c s) 0 = Ok (String c "").
Proof. exact (getitem_get (String c s) 0). Qed.

Lemma getitem_last (c : ascii) (s : string) :
  exists d, getitem (String c s) (-1) = Ok (String d "").
Proof.
  destruct (get_within (String c s) (String.length s)) as [d Hd];
    [simpl; lia|].
  exists d. unfold getitem. cbv zeta.
  change (-1 <? 0) with true. cbv iota.
  replace (-1 + len (String c s)) with (Z.of_nat (String.length s))
    by (unfold len; simpl String.length; lia).
  replace (Z.of_nat (String.length s) <? 0) with false
    by (symmetry; apply Z.ltb_ge; lia).
  replace (len (String c s) <=? Z.of_nat (String.length s)) with false
    by (symmetry; apply Z.leb_gt; unfold len; simpl String.length; lia).
  cbn [orb]. now rewrite Nat2Z.id, Hd.
Qed.

End PyFacts.

(** ** Properties of the token normalizer *)

Module NormalizerFacts.

Import Normalizer NormalizerSpec PyFacts.

Lemma substring_0_0 (s : string) : String.substring 0 0 s = "".
Proof. destruct s; reflexivity. Qed.

(** [word[:1]] is the first character alone. *)
Lemma slice_first (c : ascii) (s : string) :
  slice None (Some 1) (String c s) = String c "".
Proof.
  unfold slice, slice_bound.
  change (1 <? 0) with false. cbv iota.
  replace (Z.to_nat (Z.max 0 (Z.min (len (String c s)) 1) - 0)) with 1%nat
    by (unfold len; simpl String.length; lia).
  simpl. now rewrite substring_0_0.
Qed.

(** The comparisons of [word[:1]] with the two-character texts of the
    ignore rules never hold, whatever the word. *)
Lemma slice_first_never_two (w : string) (a b : ascii) :
  String.eqb (slice None (Some 1) w) (String a (String b "")) = false.
Proof.
  destruct w as [|c w].
  - reflexivity.
  - rewrite slice_first. simpl. destruct (Ascii.eqb c a); reflexivity.
Qed.

(** The rows of the rule table the code follows. *)
Lemma correct_word_rule_table_kept_rows :
  correct_word "[loud_breath]" = Ok "<noise>" /\
  correct_word "<DELETED>" = Ok "DELETED" /\
  correct_word "~" = Ok "" /\
  correct_word "." = Ok "" /\
  correct_word "[door_slam>]" = Ok "" /\
  correct_word "[phone_ring/]" = Ok "" /\
  correct_word "--DASH" = Ok "-DASH" /\
  correct_word "%PERCENT" = Ok "PERCENT" /\
  correct_word ".point" = Ok "POINT" /\
  correct_word "" = Ok "".
Proof. repeat split; vm_compute; reflexivity. Qed.

(** C1: the rule table maps the open-event marker [[<door_slam]] to the
    empty text, and so does the docstring of [correct_word]; the code
    returns the noise marker for it, and for the phenomenon-end marker
    [[/phone_ring]] too, because the two rules compare a one-character
    slice with a two-character text. *)
Theorem correct_word_open_event_becomes_noise :
  correct_word "[<door_slam]" = Ok "<noise>" /\
  correct_word "[/phone_ring]" = Ok "<noise>".
Proof. split; vm_compute; reflexivity. Qed.

(** C3: the token [<>] is empty once the angle brackets are removed, and
    the ignore rules then index the empty text: [IndexError] is raised.
    A token made of backslashes raises earlier, at the test for the angle
    brackets. *)
Theorem correct_word_empty_after_unwrap_raises :
  correct_word "<>" = Raise IndexError /\
  correct_word "\" = Raise IndexError.
Proof. split; vm_compute; reflexivity. Qed.

Lemma correct_word_steps (word : string) :
  correct_word word
  = if String.eqb word "" then Ok ""
    else
      bind (and_ (eq_ (getitem (corrected_form word) 0) "<")
                 (eq_ (getitem (corrected_form word) (-1)) ">"))
        (fun unwrap : bool =>
           finish_word (if unwrap
                        then slice (Some 1) (Some (-1)) (corrected_form word)
                        else corrected_form word)).
Proof. reflexivity. Qed.

Lemma finish_word_empty : finish_word "" = Raise IndexError.
Proof. reflexivity. Qed.

(** On a word that is not empty no index is out of range. *)
Lemma finish_word_nonempty (c : ascii) (s : string) :
  exists r, finish_word (String c s) = Ok r.
Proof.
  destruct (getitem_last c s) as [d Hd].
  unfold finish_word, and_, or_, eq_, bind.
  rewrite !getitem_first, !Hd.
  repeat match goal with
         | |- context [if ?b then _ else _] => destruct b
         end; eauto.
Qed.

(** What is left of a word in angle brackets is empty for the word [<>]
    only. *)
Lemma unwrap_nonempty (s : string) :
  getitem (String "<" s) (-1) = Ok ">" ->
  String "<" s <> "<>" ->
  exists c t, slice (Some 1) (Some (-1)) (String "<" s) = String c t.
Proof.
  intros Hlast Hne.
  destruct s as [|d [|e t]].
  - vm_compute in Hlast. discriminate.
  - assert (d = ">"%char) as ->.
    { vm_compute in Hlast. now injection Hlast. }
    contradiction.
  - exists d, (String.substring 0 (String.length t) (String e t)).
    unfold slice, slice_bound.
    change (1 <? 0) with false. change (-1 <? 0) with true. cbv iota.
    replace (Z.max 0 (Z.min (len (String "<" (String d (String e t)))) 1))
      with 1 by (unfold len; simpl String.length; lia).
    replace (Z.max 0 (Z.min (len (String "<" (String d (String e t))))
                        (-1 + len (String "<" (String d (String e t))))) - 1)
      with (Z.of_nat (S (String.length t)))
      by (unfold len; simpl String.length; lia).
    rewrite Nat2Z.id. reflexivity.
Qed.

(** X1: the tokens on which [correct_word] raises: those that are empty once
    corrected, or once the angle brackets are removed.  On every other
    token it returns a word. *)
Lemma correct_word_raises_iff (word : string) :
  (correct_word word = Raise IndexError <->
   word <> "" /\ (corrected_form word = "" \/ corrected_form word = "<>")) /\
  (word = "" \/ (corrected_form word <> "" /\ corrected_form word <> "<>") ->
   exists r, correct_word word = Ok r).
Proof.
  rewrite correct_word_steps.
  destruct (String.eqb word "") eqn:Hw.
  { apply String.eqb_eq in Hw. split; [|eauto].
    split; [discriminate | intros [H _]; contradiction]. }
  apply String.eqb_neq in Hw.
  destruct (corrected_form word) as [|c s] eqn:Hx.
  { split; [|intros [H | [H _]]; contradiction].
    split; [auto | reflexivity]. }
  destruct (getitem_last c s) as [d Hd].
  unfold and_, eq_, bind. rewrite getitem_first, Hd.
  cbn [String.eqb].
  destruct (Ascii.eqb c "<") eqn:Hc; cbn [andb].
  - apply Ascii.eqb_eq in Hc. subst c.
    destruct (Ascii.eqb d ">") eqn:Hdd; cbn [andb].
    + apply Ascii.eqb_eq in Hdd. subst d.
      destruct (String.string_dec (String "<" s) "<>") as [Heq | Hne].
      * injection Heq as ->. split; [|intros [H | [_ H]]; contradiction].
        split; [auto | reflexivity].
      * destruct (unwrap_nonempty s Hd Hne) as (c' & t & ->).
        destruct (finish_word_nonempty c' t) as [r Hr]. rewrite Hr.
        split; [|eauto].
        split; [discriminate | intros [_ [H | H]]; [discriminate | contradiction]].
    + destruct (finish_word_nonempty "<" s) as [r Hr]. rewrite Hr.
      split; [|eauto].
      split; [discriminate|]. intros [_ [H | H]]; [discriminate|].
      injection H as ->. vm_compute in Hd. injection Hd as <-.
      discriminate Hdd.
  - destruct (finish_word_nonempty c s) as [r Hr]. rewrite Hr.
    split; [|eauto].
    split; [discriminate|]. intros [_ [H | H]]; [discriminate|].
    injection H as -> ->. discriminate.
Qed.

End NormalizerFacts.
(** ** Properties of the corrupted-utterance detector *)

Module DetectorFacts.

Import Selector Preparator DetectorSpec Samples.

Lemma utt_group2_sound (t g : string) :
  utt_group2 t = Some g ->
  no_nl g = true /\ exists rest, t = g ++ ")" ++ rest.
Proof.
  revert g. induction t as [|c t IH]; intros g H; simpl in H.
  - discriminate.
  - destruct (Ascii.eqb c newline) eqn:Hc.
    + destruct (Ascii.eqb c ")") eqn:Hp; [|discriminate].
      cbn in H. injection H as <-. apply Ascii.eqb_eq in Hp. subst c.
      split; [reflexivity | exists t; reflexivity].
    + destruct (utt_group2 t) as [g2|] eqn:Hg.
      * injection H as <-. destruct (IH g2 eq_refl) as [Hn [rest ->]].
        split; [simpl; rewrite Hc, Hn; reflexivity | exists rest; reflexivity].
      * destruct (Ascii.eqb c ")") eqn:Hp; [|discriminate].
        cbn in H. injection H as <-. apply Ascii.eqb_eq in Hp. subst c.
        split; [reflexivity | exists t; reflexivity].
Qed.


Lemma re_match_utt_sound (s text utt_id : string) :
  re_match_utt s = Some (text, utt_id) ->
  no_nl text = true /\ no_nl utt_id = true /\
  exists rest, s = text ++ " (" ++ utt_id ++ ")" ++ rest.
Proof.
  revert text. induction s as [|c s IH]; intros text H; simpl in H.
  - discriminate.
  - assert (Hhere :
      match s with
      | String d t =>
          if (Ascii.eqb c " " && Ascii.eqb d "(")%bool
          then match utt_group2 t with
               | Some g2 => Some (EmptyString, g2)
               | None => None
               end
          else None
      | EmptyString => None
      end = Some (text, utt_id) ->
      no_nl text = true /\ no_nl utt_id = true /\
      exists rest, String c s = text ++ " (" ++ utt_id ++ ")" ++ rest).
    { destruct s as [|d t]; [discriminate|].
      destruct (Ascii.eqb c " ") eqn:Hc; [|discriminate].
      destruct (Ascii.eqb d "(") eqn:Hd; [|discriminate].
      simpl. destruct (utt_group2 t) as [g2|] eqn:Hg; [|discriminate].
      intros Heq. injection Heq as <- <-.
      apply Ascii.eqb_eq in Hc, Hd. subst c d.
      destruct (utt_group2_sound _ _ Hg) as [Hn [rest ->]].
      repeat split; [exact Hn | exists rest; reflexivity]. }
    destruct (Ascii.eqb c newline) eqn:Hnl; [exact (Hhere H)|].
    destruct (re_match_utt s) as [[g1 g2]|] eqn:Hs; [|exact (Hhere H)].
    injection H as <- <-.
    destruct (IH g1 eq_refl) as [H1 [H2 [rest ->]]].
    repeat split; [simpl; rewrite Hnl, H1; reflexivity | exact H2
                  | exists rest; reflexivity].
Qed.




Lemma utt_format_of_match (line text utt_id : string) :
  re_match_utt line = Some (text, utt_id) -> utt_format line.
Proof.
  intros H. destruct (re_match_utt_sound _ _ _ H) as (Ht & Hu & rest & ->).
  exists text, utt_id, rest. auto.
Qed.







End DetectorFacts.
(** ** Properties of the file selector *)

Module SelectorFacts.

Import Selector FsSpec FsFacts SelectorSpec Samples PyFacts.
Local Open Scope list_scope.

Lemma filter_r_pure {A} (f : A -> bool) (l : list A) :
  filter_r (fun x => Ok (f x)) l = Ok (filter f l).
Proof.
  induction l as [|x l IH]; simpl; [reflexivity|].
  rewrite IH. simpl. destruct (f x); reflexivity.
Qed.

Lemma concat_map_r_pure {A B} (f : A -> result (list B)) (g : A -> list B)
    (l : list A) :
  (forall x, f x = Ok (g x)) -> concat_map_r f l = Ok (flat_map g l).
Proof.
  intros Hfg. induction l as [|x l IH]; simpl; [reflexivity|].
  rewrite Hfg, IH. reflexivity.
Qed.

(** With predicates that do not raise, [list_files] returns a list. *)
Lemma list_files_total (fs : node) (input_dir : path)
    (df ff : string -> bool) :
  list_files fs input_dir df (fun f => Ok (ff f))
  = Ok (list_files_pure fs input_dir df ff).
Proof.
  unfold list_files, list_files_pure.
  apply concat_map_r_pure. intros [[path dirs] files].
  apply concat_map_r_pure. intros d.
  apply concat_map_r_pure. intros [[d_path dirs'] files'].
  rewrite filter_r_pure. reflexivity.
Qed.

Lemma flat_map_cons {A B} (f : A -> list B) (x : A) (l : list A) :
  flat_map f (x :: l) = f x ++ flat_map f l.
Proof. reflexivity. Qed.

Lemma flat_map_flat_map {A B C} (f : A -> list B) (g : B -> list C)
    (l : list A) :
  flat_map g (flat_map f l) = flat_map (fun x => flat_map g (f x)) l.
Proof.
  induction l as [|x l IH]; simpl; [reflexivity|].
  now rewrite flat_map_app, IH.
Qed.

Lemma map_flat_map {A B C} (f : A -> list B) (g : B -> C) (l : list A) :
  map g (flat_map f l) = flat_map (fun x => map g (f x)) l.
Proof.
  induction l as [|x l IH]; simpl; [reflexivity|].
  now rewrite map_app, IH.
Qed.

Lemma flat_map_ext_Forall {A B} (f g : A -> list B) (l : list A) :
  Forall (fun x => f x = g x) l -> flat_map f l = flat_map g l.
Proof.
  induction 1 as [|x l Hx _ IH]; simpl; [reflexivity|].
  now rewrite Hx, IH.
Qed.

(** The files kept along a walk are the files of the tree, below the top
    of the walk. *)
Lemma walk_kept_files (ff : string -> bool) (n : node) :
  forall top,
    flat_map (kept_files ff) (walk top n) = map (app top) (files_rel ff n).
Proof.
  induction n as [content | es IH] using node_rect'; intros top.
  - reflexivity.
  - simpl. rewrite map_app, map_map. f_equal.
    rewrite flat_map_flat_map, map_flat_map.
    apply flat_map_ext_Forall.
    induction IH as [|e es He _ IHes]; constructor; [|exact IHes].
    rewrite He, map_map. apply map_ext. intros r.
    now rewrite <- app_assoc.
Qed.

Lemma lookup_app (a b : path) :
  forall fs,
    lookup (a ++ b) fs
    = match lookup a fs with Some n => lookup b n | None => None end.
Proof.
  induction a as [|c a IH]; intros fs; simpl; [reflexivity|].
  destruct fs as [content|es]; [reflexivity|].
  destruct (lookup_entry c es); [apply IH | reflexivity].
Qed.

Lemma mem_In (x : string) (l : list string) : mem x l = true <-> In x l.
Proof.
  unfold mem. rewrite existsb_exists. split.
  - intros (y & Hy & Hxy). apply String.eqb_eq in Hxy. now subst.
  - intros H. exists x. split; [exact H | apply String.eqb_refl].
Qed.

Lemma lookup_entry_absent (c : string) (es : list (string * node)) :
  mem c (map fst es) = false -> lookup_entry c es = None.
Proof.
  induction es as [|[n x] es IH]; simpl; intros H; [reflexivity|].
  apply orb_false_elim in H as [Hcn Hrest].
  rewrite String.eqb_sym, Hcn. apply IH. exact Hrest.
Qed.

(** In a directory whose names are distinct, an entry is found by its
    name. *)
Lemma lookup_entry_distinct (es : list (string * node)) :
  distinct (map fst es) = true ->
  forall e, In e es -> lookup_entry (fst e) es = Some (snd e).
Proof.
  induction es as [|[n x] es IH]; simpl; intros Hd e He; [contradiction|].
  apply andb_prop in Hd as [Hn Hd]. apply negb_true_iff in Hn.
  destruct He as [<- | He].
  - simpl. now rewrite String.eqb_refl.
  - destruct (String.eqb n (fst e)) eqn:E.
    + apply String.eqb_eq in E. subst n.
      assert (Hin : mem (fst e) (map fst es) = true).
      { apply mem_In. apply in_map. exact He. }
      congruence.
    + apply IH; assumption.
Qed.

Lemma wf_entries (es : list (string * node)) :
  wf (Dir es) = true ->
  distinct (map fst es) = true /\ forall e, In e es -> wf (snd e) = true.
Proof.
  simpl. intros H. apply andb_prop in H as [Hd Hall].
  split; [exact Hd|]. rewrite forallb_forall in Hall. exact Hall.
Qed.

Lemma lookup_entry_In (c : string) (x : node) (es : list (string * node)) :
  lookup_entry c es = Some x -> In (c, x) es.
Proof.
  induction es as [|[n y] es IH]; simpl; [discriminate|].
  destruct (String.eqb n c) eqn:E.
  - intros H. injection H as ->. apply String.eqb_eq in E. subst. now left.
  - intros H. right. apply IH. exact H.
Qed.

Lemma wf_lookup_entry (c : string) (x : node) (es : list (string * node)) :
  wf (Dir es) = true -> lookup_entry c es = Some x -> wf x = true.
Proof.
  intros Hwf Hc. destruct (wf_entries es Hwf) as [_ Hall].
  apply (Hall (c, x)). apply lookup_entry_In. exact Hc.
Qed.

Lemma wf_lookup (p : path) :
  forall fs n, wf fs = true -> lookup p fs = Some n -> wf n = true.
Proof.
  induction p as [|c p IH]; intros fs n Hwf H; simpl in H.
  - now injection H as <-.
  - destruct fs as [content|es]; [discriminate|].
    destruct (lookup_entry c es) as [x|] eqn:Hc; [|discriminate].
    apply (IH x n); [|exact H]. exact (wf_lookup_entry c x es Hwf Hc).
Qed.

(** What the triple of a directory adds: the files below its entries
    whose names the predicate keeps. *)
Lemma matched_below_entries (fs : node) (df ff : string -> bool)
    (top : path) (es : list (string * node)) (files : list string) :
  lookup top fs = Some (Dir es) ->
  distinct (map fst es) = true ->
  matched_below fs df ff (top, dirnames es, files)
  = flat_map
      (fun e => map (app top)
                  (if df (fst e)
                   then map (cons (fst e)) (files_rel ff (snd e)) else []))
      es.
Proof.
  intros Htop Hd. unfold matched_below.
  assert (Hsuffix : forall es',
             (forall e, In e es' -> lookup_entry (fst e) es = Some (snd e)) ->
             flat_map
               (fun d => flat_map (kept_files ff) (os_walk fs (top ++ [d])))
               (filter df (dirnames es'))
             = flat_map
                 (fun e => map (app top)
                             (if df (fst e)
                              then map (cons (fst e)) (files_rel ff (snd e))
                              else []))
                 es').
  { induction es' as [|[n x] es' IH]; intros Hfound; [reflexivity|].
    assert (IH' := IH (fun e He => Hfound e (or_intror He))).
    destruct x as [content|sub]; simpl.
    - rewrite IH'. destruct (df n); reflexivity.
    - destruct (df n) eqn:Hn; simpl; [|exact IH'].
      rewrite IH'. f_equal.
      unfold os_walk. rewrite lookup_app, Htop. simpl.
      pose proof (Hfound (n, Dir sub) (or_introl eq_refl)) as Hl.
      simpl in Hl. rewrite Hl.
      rewrite walk_kept_files, map_map. apply map_ext.
      intros r. now rewrite <- app_assoc. }
  apply Hsuffix. intros e He. apply lookup_entry_distinct; assumption.
Qed.

Lemma count_app (p : path) (l1 l2 : list path) :
  count p (l1 ++ l2) = (count p l1 + count p l2)%nat.
Proof. unfold count. now rewrite filter_app, length_app. Qed.

Lemma count_In (p : path) (l : list path) :
  In p l <-> (0 < count p l)%nat.
Proof.
  unfold count. induction l as [|x l IH]; simpl.
  - split; [contradiction | lia].
  - destruct (path_eqb p x) eqn:E; simpl.
    + apply path_eqb_eq in E. subst x. split; [lia | auto].
    + rewrite <- IH. split; [|auto].
      intros [<- | H]; [|exact H]. rewrite path_eqb_refl in E. discriminate.
Qed.

Lemma count_flat_map_app {A} (p : path) (f g : A -> list path)
    (l : list A) :
  count p (flat_map (fun x => f x ++ g x) l)
  = (count p (flat_map f l) + count p (flat_map g l))%nat.
Proof.
  induction l as [|x l IH]; simpl; [reflexivity|].
  rewrite !count_app, IH. lia.
Qed.

Lemma count_flat_map_ext {A} (p : path) (f g : A -> list path)
    (l : list A) :
  (forall x, In x l -> count p (f x) = count p (g x)) ->
  count p (flat_map f l) = count p (flat_map g l).
Proof.
  induction l as [|x l IH]; simpl; intros H; [reflexivity|].
  rewrite !count_app, (H x (or_introl eq_refl)), IH; [reflexivity|].
  intros y Hy. apply H. now right.
Qed.

(** How many times a path is in the list of a walk: as many times as in
    the list of the files selected in the tree, below the top of the
    walk. *)
Lemma walk_matched_count (fs : node) (df ff : string -> bool) (p : path)
    (n : node) :
  forall top,
    wf n = true ->
    lookup top fs = Some n ->
    count p (flat_map (matched_below fs df ff) (walk top n))
    = count p (map (app top) (selected_rel df ff n)).
Proof.
  induction n as [content | es IH] using node_rect'; intros top Hwf Htop.
  - reflexivity.
  - destruct (wf_entries es Hwf) as [Hd Hall].
    rewrite Forall_forall in IH.
    change (walk top (Dir es))
      with ((top, dirnames es, filenames es)
              :: flat_map (fun e => walk (top ++ [fst e]) (snd e)) es).
    rewrite flat_map_cons.
    rewrite (matched_below_entries fs df ff top es (filenames es) Htop Hd).
    rewrite flat_map_flat_map, count_app.
    simpl selected_rel. rewrite map_flat_map.
    rewrite (count_flat_map_ext p
               (fun e => map (app top)
                           ((if df (fst e)
                             then map (cons (fst e)) (files_rel ff (snd e))
                             else [])
                              ++ map (cons (fst e))
                                   (selected_rel df ff (snd e))))
               (fun e => map (app top)
                           (if df (fst e)
                            then map (cons (fst e)) (files_rel ff (snd e))
                            else [])
                           ++ map (app top)
                                (map (cons (fst e))
                                   (selected_rel df ff (snd e))))).
    2:{ intros e _. now rewrite map_app. }
    rewrite count_flat_map_app. f_equal.
    apply count_flat_map_ext. intros e He.
    rewrite (IH e He (top ++ [fst e])).
    + rewrite map_map. f_equal. apply map_ext. intros r.
      now rewrite <- app_assoc.
    + apply Hall. exact He.
    + rewrite lookup_app, Htop. simpl.
      rewrite (lookup_entry_distinct es Hd e He). reflexivity.
Qed.

Lemma path_eqb_app (a r x : path) :
  path_eqb (a ++ r) (a ++ x) = path_eqb r x.
Proof. induction a as [|c a IH]; simpl; [|rewrite String.eqb_refl]; auto. Qed.

Lemma count_map_app (a r : path) (l : list path) :
  count (a ++ r) (map (app a) l) = count r l.
Proof.
  unfold count. induction l as [|x l IH]; simpl; [reflexivity|].
  rewrite path_eqb_app. destruct (path_eqb r x); simpl; now rewrite IH.
Qed.

Lemma count_cons_map (c n : string) (r : path) (l : list path) :
  count (c :: r) (map (cons n) l) = if String.eqb c n then count r l else 0%nat.
Proof.
  unfold count. destruct (String.eqb c n) eqn:E.
  - induction l as [|x l IH]; cbn [filter map length]; [reflexivity|].
    change (path_eqb (c :: r) (n :: x))
      with (String.eqb c n && path_eqb r x)%bool.
    rewrite E. cbn [andb].
    destruct (path_eqb r x); cbn [length]; now rewrite IH.
  - induction l as [|x l IH]; cbn [filter map length]; [reflexivity|].
    change (path_eqb (c :: r) (n :: x))
      with (String.eqb c n && path_eqb r x)%bool.
    rewrite E. cbn [andb]. exact IH.
Qed.

Lemma count_nil_map_cons (n : string) (l : list path) :
  count [] (map (cons n) l) = 0%nat.
Proof.
  unfold count. induction l as [|x l IH]; cbn [filter map length];
    [reflexivity|].
  change (path_eqb [] (n :: x)) with false. exact IH.
Qed.

(** Among entries with distinct names, the paths that start with a name
    come from the entry of that name. *)
Lemma count_entries (F : string -> node -> list path) (c : string)
    (r : path) (es : list (string * node)) :
  distinct (map fst es) = true ->
  count (c :: r) (flat_map (fun e => map (cons (fst e)) (F (fst e) (snd e))) es)
  = match lookup_entry c es with
    | Some x => count r (F c x)
    | None => 0%nat
    end.
Proof.
  induction es as [|[n x] es IH]; simpl; intros Hd; [reflexivity|].
  apply andb_prop in Hd as [Hn Hd]. apply negb_true_iff in Hn.
  rewrite count_app, count_cons_map, (IH Hd), (String.eqb_sym c n).
  destruct (String.eqb n c) eqn:E; [|reflexivity].
  apply String.eqb_eq in E. subst n.
  rewrite (lookup_entry_absent c es Hn). lia.
Qed.

Lemma count_nil_entries (F : string -> node -> list path)
    (es : list (string * node)) :
  count [] (flat_map (fun e => map (cons (fst e)) (F (fst e) (snd e))) es)
  = 0%nat.
Proof.
  induction es as [|e es IH]; simpl; [reflexivity|].
  now rewrite count_app, count_nil_map_cons, IH.
Qed.

(** How many entries of the name [c] are files. *)
Lemma filenames_count (c : string) (es : list (string * node)) :
  distinct (map fst es) = true ->
  length (filter (String.eqb c) (filenames es))
  = match lookup_entry c es with
    | Some (File _) => 1%nat
    | _ => 0%nat
    end.
Proof.
  induction es as [|[n x] es IH]; simpl; intros Hd; [reflexivity|].
  apply andb_prop in Hd as [Hn Hd]. apply negb_true_iff in Hn.
  rewrite (String.eqb_sym n c).
  destruct x as [content|sub]; simpl.
  - destruct (String.eqb c n) eqn:E; simpl.
    + apply String.eqb_eq in E. subst n.
      rewrite (IH Hd), (lookup_entry_absent c es Hn). reflexivity.
    + apply IH. exact Hd.
  - destruct (String.eqb c n) eqn:E; simpl.
    + apply String.eqb_eq in E. subst n.
      rewrite (IH Hd), (lookup_entry_absent c es Hn). reflexivity.
    + apply IH. exact Hd.
Qed.

Lemma count_singletons (ff : string -> bool) (c : string) (r : path)
    (names : list string) :
  count (c :: r) (map (fun f => [f]) (filter ff names))
  = match r with
    | [] => if ff c then length (filter (String.eqb c) names) else 0%nat
    | _ :: _ => 0%nat
    end.
Proof.
  unfold count. destruct r as [|d r].
  - induction names as [|f names IH]; cbn [filter].
    + destruct (ff c); reflexivity.
    + destruct (String.eqb c f) eqn:E.
      * apply String.eqb_eq in E. subst f.
        destruct (ff c) eqn:Hc; [|exact IH].
        cbn [map filter].
        change (path_eqb [c] [c]) with (String.eqb c c && true)%bool.
        rewrite String.eqb_refl. cbn [andb length]. now rewrite IH.
      * destruct (ff f); [|exact IH].
        cbn [map filter].
        change (path_eqb [c] [f]) with (String.eqb c f && true)%bool.
        rewrite E. cbn [andb]. exact IH.
  - induction names as [|f names IH]; cbn [filter]; [reflexivity|].
    destruct (ff f); [|exact IH].
    cbn [map filter].
    change (path_eqb (c :: d :: r) [f]) with (String.eqb c f && false)%bool.
    rewrite andb_false_r. exact IH.
Qed.

Lemma count_nil_singletons (ff : string -> bool) (names : list string) :
  count [] (map (fun f => [f]) (filter ff names)) = 0%nat.
Proof.
  unfold count. induction names as [|f names IH]; cbn [filter];
    [reflexivity|].
  destruct (ff f); [|exact IH].
  cbn [map filter]. change (path_eqb [] [f]) with false. exact IH.
Qed.

(** A file of the tree that the predicate keeps is once in the list of
    the files of the tree, and no other path is there. *)
Lemma files_rel_count (ff : string -> bool) (r : path) :
  forall n,
    wf n = true ->
    count r (files_rel ff n) = nat_of_bool (selected_file ff n r).
Proof.
  induction r as [|c r IH]; intros n Hwf.
  - destruct n as [content|es]; [reflexivity|].
    simpl files_rel. rewrite count_app, count_nil_singletons.
    apply (count_nil_entries (fun _ x => files_rel ff x)).
  - destruct n as [content|es]; [reflexivity|].
    destruct (wf_entries es Hwf) as [Hd _].
    simpl files_rel.
    rewrite count_app, count_singletons,
      (count_entries (fun _ x => files_rel ff x) c r es Hd),
      (filenames_count c es Hd).
    unfold selected_file, isfile. simpl lookup.
    destruct (lookup_entry c es) as [x|] eqn:Hc.
    + rewrite (IH x (wf_lookup_entry c x es Hwf Hc)).
      destruct r as [|d r].
      * simpl. destruct x as [content|sub]; simpl;
          destruct (ff c); reflexivity.
      * unfold selected_file, isfile.
        change (last (c :: d :: r) "") with (last (d :: r) "").
        reflexivity.
    + destruct r; [destruct (ff c)|]; reflexivity.
Qed.

(** A file of the tree that the predicate keeps is in the list of the
    selected files once for each directory above it whose name the
    predicate on the directories keeps, and no other path is there. *)
Lemma selected_rel_count (df ff : string -> bool) (r : path) :
  forall n,
    wf n = true ->
    count r (selected_rel df ff n)
    = if selected_file ff n r
      then length (filter df (removelast r)) else 0%nat.
Proof.
  induction r as [|c r IH]; intros n Hwf.
  - destruct n as [content|es]; [reflexivity|].
    simpl selected_rel.
    rewrite (flat_map_ext _
               (fun e => map (cons (fst e))
                           ((fun name x =>
                               (if df name then files_rel ff x else [])
                                 ++ selected_rel df ff x) (fst e) (snd e)))).
    2:{ intros e. rewrite map_app. now destruct (df (fst e)). }
    exact (count_nil_entries
             (fun name x => (if df name then files_rel ff x else [])
                              ++ selected_rel df ff x) es).
  - destruct n as [content|es]; [reflexivity|].
    destruct (wf_entries es Hwf) as [Hd _].
    simpl selected_rel.
    rewrite (flat_map_ext _
               (fun e => map (cons (fst e))
                           ((fun name x =>
                               (if df name then files_rel ff x else [])
                                 ++ selected_rel df ff x) (fst e) (snd e)))).
    2:{ intros e. rewrite map_app. now destruct (df (fst e)). }
    rewrite (count_entries
               (fun name x => (if df name then files_rel ff x else [])
                                ++ selected_rel df ff x) c r es Hd).
    unfold selected_file at 1, isfile. simpl lookup.
    destruct (lookup_entry c es) as [x|] eqn:Hc; [|reflexivity].
    pose proof (wf_lookup_entry c x es Hwf Hc) as Hx.
    rewrite count_app, (IH x Hx).
    replace (count r (if df c then files_rel ff x else []))
      with (if df c then nat_of_bool (selected_file ff x r) else 0%nat)
      by (destruct (df c); [now rewrite files_rel_count | reflexivity]).
    destruct r as [|d r].
    + simpl. destruct x as [content|sub]; simpl;
        destruct (df c), (ff c); reflexivity.
    + change (last (c :: d :: r) "") with (last (d :: r) "").
      change (removelast (c :: d :: r)) with (c :: removelast (d :: r)).
      change (selected_file ff x (d :: r))
        with (isfile x (d :: r) && ff (last (d :: r) "")).
      unfold isfile. cbn [filter].
      destruct (match lookup (d :: r) x with
                | Some (File _) => true
                | _ => false
                end && ff (last (d :: r) "")), (df c); reflexivity.
Qed.

Lemma selected_file_snoc (ff : string -> bool) (n : node) (ds : path)
    (f : string) :
  selected_file ff n (ds ++ [f]) = isfile n (ds ++ [f]) && ff f.
Proof.
  unfold selected_file. rewrite last_last.
  destruct (ds ++ [f]) eqn:E; [|reflexivity].
  destruct ds; discriminate.
Qed.

Lemma isfile_app (fs n : node) (root r : path) :
  lookup root fs = Some n -> isfile fs (root ++ r) = isfile n r.
Proof. intros H. unfold isfile. now rewrite lookup_app, H. Qed.

(** How many times a path is in the list [list_files] returns. *)
Lemma list_files_pure_count (fs : node) (root : path)
    (df ff : string -> bool) (p : path) :
  wf fs = true ->
  count p (list_files_pure fs root df ff)
  = match lookup root fs with
    | Some n => count p (map (app root) (selected_rel df ff n))
    | None => 0%nat
    end.
Proof.
  intros Hwf. unfold list_files_pure, os_walk.
  destruct (lookup root fs) as [n|] eqn:Hroot; [|reflexivity].
  apply walk_matched_count; [|exact Hroot].
  exact (wf_lookup root fs n Hwf Hroot).
Qed.

Lemma list_files_pure_count_file (fs : node) (root : path)
    (df ff : string -> bool) (ds : path) (f : string) :
  wf fs = true ->
  isfile fs (root ++ ds ++ [f]) = true ->
  ff f = true ->
  count (root ++ ds ++ [f]) (list_files_pure fs root df ff)
  = length (filter df ds).
Proof.
  intros Hwf Hfile Hf. rewrite (list_files_pure_count _ _ _ _ _ Hwf).
  destruct (lookup root fs) as [n|] eqn:Hroot.
  - rewrite count_map_app,
      (selected_rel_count df ff _ n (wf_lookup root fs n Hwf Hroot)),
      selected_file_snoc, <- (isfile_app fs n root _ Hroot), Hfile, Hf.
    simpl. now rewrite removelast_last.
  - unfold isfile in Hfile. rewrite lookup_app, Hroot in Hfile. discriminate.
Qed.

Lemma list_files_pure_In (fs : node) (root : path)
    (df ff : string -> bool) (p : path) :
  wf fs = true ->
  In p (list_files_pure fs root df ff) <->
  exists ds f,
    p = root ++ ds ++ [f] /\ isfile fs p = true /\ ff f = true /\
    exists d, In d ds /\ df d = true.
Proof.
  intros Hwf. split.
  - intros Hin. apply count_In in Hin.
    rewrite (list_files_pure_count _ _ _ _ _ Hwf) in Hin.
    destruct (lookup root fs) as [n|] eqn:Hroot; [|lia].
    apply count_In in Hin. apply in_map_iff in Hin as (r & <- & Hr).
    apply count_In in Hr.
    rewrite (selected_rel_count df ff r n (wf_lookup root fs n Hwf Hroot))
      in Hr.
    destruct (selected_file ff n r) eqn:Hsel; [|lia].
    assert (Hne : r <> []) by (intros ->; discriminate).
    destruct (exists_last Hne) as (ds & f & ->).
    rewrite selected_file_snoc in Hsel.
    apply andb_prop in Hsel as [Hfile Hf].
    rewrite removelast_last in Hr.
    exists ds, f. repeat split.
    + rewrite (isfile_app fs n root _ Hroot). exact Hfile.
    + exact Hf.
    + destruct (filter df ds) as [|d l] eqn:Hfl; [simpl in Hr; lia|].
      assert (Hd : In d (filter df ds)) by (rewrite Hfl; now left).
      apply filter_In in Hd. exists d. exact Hd.
  - intros (ds & f & -> & Hfile & Hf & d & Hd & Hdf).
    apply count_In.
    rewrite (list_files_pure_count_file fs root df ff ds f Hwf Hfile Hf).
    assert (Hin : In d (filter df ds)) by (apply filter_In; auto).
    destruct (filter df ds); [contradiction | simpl; lia].
Qed.

(** C7, as the code has it: with predicates that do not raise,
    [list_files] returns the paths of the files whose name the predicate
    on the files keeps and that lie under a directory, below the root,
    whose name the predicate on the directories keeps; a path is in the
    list once for each such directory above the file. *)
Theorem list_files_once_per_matching_directory (fs : node) (root : path)
    (df ff : string -> bool) :
  wf fs = true ->
  exists l,
    list_files fs root df (fun f => Ok (ff f)) = Ok l /\
    (forall p,
        In p l <->
        exists ds f,
          p = root ++ ds ++ [f] /\ isfile fs p = true /\ ff f = true /\
          exists d, In d ds /\ df d = true) /\
    (forall ds f,
        isfile fs (root ++ ds ++ [f]) = true -> ff f = true ->
        count (root ++ ds ++ [f]) l = length (filter df ds)).
Proof.
  intros Hwf. exists (list_files_pure fs root df ff).
  split; [apply list_files_total|]. split.
  - intros p. apply list_files_pure_In. exact Hwf.
  - intros ds f. apply list_files_pure_count_file. exact Hwf.
Qed.

(** The sample: the recording is below two directories and the predicate
    keeps both. *)
Lemma list_files_once_per_matching_directory_sample :
  exists l,
    list_files nested_fs ["wsj"] (fun _ => true) (fun f => Ok true) = Ok l /\
    (forall p,
        In p l <->
        exists ds f,
          p = ["wsj"] ++ ds ++ [f] /\ isfile nested_fs p = true /\
          true = true /\ exists d, In d ds /\ true = true) /\
    (forall ds f,
        isfile nested_fs (["wsj"] ++ ds ++ [f]) = true -> true = true ->
        count (["wsj"] ++ ds ++ [f]) l = length (filter (fun _ => true) ds)).
Proof.
  apply (list_files_once_per_matching_directory nested_fs ["wsj"]
           (fun _ => true) (fun _ => true)).
  reflexivity.
Defined.

(** C7, as the claim has it, fails on the sample: the path of the
    recording is twice in the list. *)
Lemma list_files_lists_nested_file_twice :
  ~ (forall fs root (df ff : string -> bool) l,
        wf fs = true ->
        list_files fs root df (fun f => Ok (ff f)) = Ok l ->
        NoDup l).
Proof.
  intros H.
  pose proof (H nested_fs ["wsj"] (fun _ => true) (fun _ => true)
                [["wsj"; "disc1"; "si_tr_s"; "4k0c0301.wv1"];
                 ["wsj"; "disc1"; "si_tr_s"; "4k0c0301.wv1"]]
                eq_refl eq_refl) as Hnodup.
  inversion Hnodup as [|x l Hnotin _]. apply Hnotin. now left.
Qed.

(** A path is once in the list when one directory above the file is
    kept, and one only. *)
Lemma list_files_once (fs : node) (root : path) (df ff : string -> bool)
    (ds : path) (f : string) :
  wf fs = true ->
  isfile fs (root ++ ds ++ [f]) = true -> ff f = true ->
  length (filter df ds) = 1%nat ->
  count (root ++ ds ++ [f]) (list_files_pure fs root df ff) = 1%nat.
Proof.
  intros Hwf Hfile Hf Hone.
  now rewrite (list_files_pure_count_file fs root df ff ds f Hwf Hfile Hf).
Qed.

(** The predicate on the names of the files, for a class with a file
    pattern of one character. *)
Lemma filter_ext_pattern (cls : variant) (pattern : ascii) (ext f : string) :
  file_pattern cls = Some (String pattern "") ->
  filter_ext cls ext f
  = match String.get 3 f with
    | Some c =>
        Ok (Ascii.eqb c pattern
            && String.eqb (slice (Some (-4)) None f) ext)%bool
    | None => Raise IndexError
    end.
Proof.
  intros Hp. unfold filter_ext. rewrite Hp.
  unfold and_, eq_, bind.
  change (getitem f 3) with (getitem f (Z.of_nat 3)).
  rewrite (getitem_get f 3).
  destruct (String.get 3 f) as [c|]; [|reflexivity].
  cbn [String.eqb]. destruct (Ascii.eqb c pattern); reflexivity.
Qed.


End SelectorFacts.
(** ** Properties of the initialization *)

Module InitFacts.

Import Selector Preparator FsSpec FsFacts InitSpec Samples.
Local Open Scope list_scope.

Lemma is_prefix_app_cases (q o s : path) :
  is_prefix q (o ++ s) = true ->
  is_prefix q o = true \/ exists r, q = o ++ r.
Proof.
  revert q. induction o as [|c o IH]; intros q H.
  - right. exists q. reflexivity.
  - destruct q as [|d q]; [left; reflexivity|].
    simpl in H. apply andb_prop in H as [Hd Hq].
    apply String.eqb_eq in Hd. subst d.
    destruct (IH q Hq) as [Hpre | [r ->]].
    + left. simpl. now rewrite String.eqb_refl.
    + right. exists r. reflexivity.
Qed.

Section Init.

Variable default_dir : path.
Variable cls : variant.
Variable input_dir : path.
Variable output_dir : option path.
Variable verbose : bool.

Local Abbreviation out := (chosen_output_dir default_dir cls output_dir).

(** The output directory is there and is not to be overwritten: the
    initialization raises and the file system is as it was. *)
Lemma abstract_init_output_exists (fs : node) :
  path_exists fs out = true ->
  exists msg,
    abstract_init default_dir cls input_dir output_dir verbose false fs
    = (Raise (IOError msg), fs).
Proof.
  intros Hex. unfold abstract_init, bind_io, ask, raise, ret.
  destruct (isdir fs input_dir); simpl; [|eauto].
  fold (chosen_output_dir default_dir cls output_dir).
  rewrite Hex. eauto.
Qed.

(** The input directory is there, the output directory is not and no
    regular file stands above it: the initialization makes the directories
    of the recordings and of the logs, and changes nothing else. *)
Lemma abstract_init_creates (fs : node) :
  isdir fs input_dir = true ->
  path_exists fs out = false ->
  (forall q content, is_prefix q out = true -> kind_at fs q <> IsFile content) ->
  exists self fs',
    abstract_init default_dir cls input_dir output_dir verbose false fs
    = (Ok self, fs') /\
    Preparator.output_dir self = out /\
    data_dir self = out ++ ["data"] /\
    wavs_dir self = out ++ ["data"; "wavs"] /\
    logs_dir self = out ++ ["logs"] /\
    forall q,
      kind_at fs' q
      = if is_prefix q (out ++ ["data"; "wavs"]) || is_prefix q (out ++ ["logs"])
        then IsDir else kind_at fs q.
Proof.
  intros Hin Hout Habove.
  apply path_exists_kind in Hout.
  assert (Hbelow : forall q s content,
             is_prefix q (out ++ s) = true -> kind_at fs q <> IsFile content).
  { intros q s content Hq.
    destruct (is_prefix_app_cases q out s Hq) as [Hpre | [r ->]].
    - apply Habove. exact Hpre.
    - rewrite (kind_at_absent_below out r fs Hout). discriminate. }
  destruct (makedirs_ok (out ++ ["data"; "wavs"]) fs) as [fs1 H1].
  { exact (isdir_root fs input_dir Hin). }
  { apply kind_at_absent_below. exact Hout. }
  { intros q content. apply Hbelow. }
  pose proof (makedirs_kind _ _ _ H1) as K1.
  destruct (makedirs_ok (out ++ ["logs"]) fs1) as [fs2 H2].
  { rewrite K1. reflexivity. }
  { rewrite K1, is_prefix_app_same. simpl.
    apply kind_at_absent_below. exact Hout. }
  { intros q content Hq. rewrite K1.
    destruct (is_prefix q (out ++ ["data"; "wavs"])); [discriminate|].
    apply (Hbelow q ["logs"]). exact Hq. }
  pose proof (makedirs_kind _ _ _ H2) as K2.
  unfold abstract_init, bind_io, ask, raise, ret, change.
  rewrite Hin. simpl.
  fold (chosen_output_dir default_dir cls output_dir).
  apply path_exists_kind in Hout. rewrite Hout.
  rewrite <- app_assoc. simpl. rewrite H1, H2.
  eexists _, fs2. split; [reflexivity|]. simpl.
  repeat split; try (rewrite <- app_assoc; reflexivity).
  intros q. rewrite K2, K1.
  destruct (is_prefix q (out ++ ["logs"])),
           (is_prefix q (out ++ ["data"; "wavs"])); reflexivity.
Qed.

End Init.

(** C10, as the code has it.  When the output directory is there and is
    not to be overwritten, the initialization raises and makes no
    directory.  When the input directory is there, the output directory is
    not, no regular file stands above it and it is not to be overwritten,
    the initialization makes the directories [data], [data/wavs] and
    [logs] of the output directory, and changes nothing else. *)
Theorem abstract_init_output_dir_guard
    (default_dir : path) (cls : variant) (input_dir : path)
    (output_dir : option path) (verbose : bool) (fs : node) :
  (path_exists fs (chosen_output_dir default_dir cls output_dir) = true ->
   exists msg,
     abstract_init default_dir cls input_dir output_dir verbose false fs
     = (Raise (IOError msg), fs)) /\
  (isdir fs input_dir = true ->
   path_exists fs (chosen_output_dir default_dir cls output_dir) = false ->
   (forall q content,
       is_prefix q (chosen_output_dir default_dir cls output_dir) = true ->
       kind_at fs q <> IsFile content) ->
   exists self fs',
     abstract_init default_dir cls input_dir output_dir verbose false fs
     = (Ok self, fs') /\
     wavs_dir self
     = chosen_output_dir default_dir cls output_dir ++ ["data"; "wavs"] /\
     logs_dir self = chosen_output_dir default_dir cls output_dir ++ ["logs"] /\
     isdir fs' (chosen_output_dir default_dir cls output_dir ++ ["data"])
     = true /\
     isdir fs' (wavs_dir self) = true /\
     isdir fs' (logs_dir self) = true /\
     forall q,
       is_prefix q (wavs_dir self) = false ->
       is_prefix q (logs_dir self) = false ->
       kind_at fs' q = kind_at fs q).
Proof.
  split.
  - apply abstract_init_output_exists.
  - intros Hin Hout Habove.
    destruct (abstract_init_creates default_dir cls input_dir output_dir
                verbose fs Hin Hout Habove)
      as (self & fs' & Hrun & _ & _ & Hwavs & Hlogs & Hkind).
    exists self, fs'. rewrite Hwavs, Hlogs.
    repeat split; try assumption.
    + apply isdir_kind. rewrite Hkind, is_prefix_app_same. reflexivity.
    + apply isdir_kind. rewrite Hkind, is_prefix_refl. reflexivity.
    + apply isdir_kind. rewrite Hkind, is_prefix_refl.
      now rewrite orb_true_r.
    + intros q Hq1 Hq2. now rewrite Hkind, Hq1, Hq2.
Qed.

(** The sample: the directories are made. *)
Lemma abstract_init_output_dir_guard_sample :
  exists self fs',
    abstract_init ["corpora"] WallStreetJournalPreparator ["wsj"]
      (Some ["out"]) false false sample_fs = (Ok self, fs') /\
    wavs_dir self = ["out"; "data"; "wavs"] /\
    logs_dir self = ["out"; "logs"] /\
    isdir fs' ["out"; "data"] = true /\
    isdir fs' (wavs_dir self) = true /\
    isdir fs' (logs_dir self) = true /\
    forall q,
      is_prefix q (wavs_dir self) = false ->
      is_prefix q (logs_dir self) = false ->
      kind_at fs' q = kind_at sample_fs q.
Proof.
  apply (proj2 (abstract_init_output_dir_guard ["corpora"]
                  WallStreetJournalPreparator ["wsj"] (Some ["out"])
                  false sample_fs)).
  - reflexivity.
  - reflexivity.
  - intros q content Hq.
    destruct q as [|c [|d q]].
    + intros Hk. vm_compute in Hk. discriminate Hk.
    + simpl in Hq. destruct (String.eqb c "out") eqn:E; [|discriminate Hq].
      apply String.eqb_eq in E. subst c.
      intros Hk. vm_compute in Hk. discriminate Hk.
    + simpl in Hq. destruct (String.eqb c "out"); discriminate Hq.
Defined.

(** C10, as the claim has it, fails where the output directory is not
    there and the input directory is not there either: the initialization
    raises and makes no directory. *)
Lemma abstract_init_absent_output_not_enough :
  ~ (forall default_dir cls input_dir output_dir verbose overwrite fs,
        path_exists fs (chosen_output_dir default_dir cls output_dir) = false ->
        exists self fs',
          abstract_init default_dir cls input_dir output_dir verbose
            overwrite fs = (Ok self, fs') /\
          isdir fs' (wavs_dir self) = true /\
          isdir fs' (logs_dir self) = true).
Proof.
  intros H.
  destruct (H ["corpora"] WallStreetJournalPreparator ["wsj"] (Some ["out"])
              false false (Dir []) eq_refl) as (self & fs' & Hrun & _).
  vm_compute in Hrun. discriminate.
Qed.

End InitFacts.
(** ** Properties of the lexicon emitter *)

Module LexiconFacts.

Import Preparator DetectorSpec LexiconSpec FsSpec FsFacts NormalizerFacts Samples.







Lemma slice_first3 (a b c : ascii) (r : string) :
  slice None (Some 3) (String a (String b (String c r)))
  = String a (String b (String c "")).
Proof.
  unfold slice, slice_bound.
  change (3 <? 0) with false. cbv iota.
  replace (Z.to_nat (Z.max 0 (Z.min (len (String a (String b (String c r)))) 3)
                     - 0)) with 3%nat
    by (unfold len; simpl String.length; lia).
  simpl. now rewrite substring_0_0.
Qed.

(** The test for a comment holds for the lines that start with three
    semicolons, and for them only. *)
Lemma comment_test (l : string) :
  ((3 <=? len l) && String.eqb (slice None (Some 3) l) ";;;" = true)%bool
  <-> exists rest, l = ";;;" ++ rest.
Proof.
  destruct l as [|a [|b [|c r]]];
    try (split; [discriminate | intros [rest H]; discriminate]).
  rewrite slice_first3.
  replace (3 <=? len (String a (String b (String c r)))) with true
    by (symmetry; apply Z.leb_le; unfold len; simpl String.length; lia).
  simpl. split.
  - intros H.
    destruct (Ascii.eqb a ";") eqn:Ha; [|discriminate].
    destruct (Ascii.eqb b ";") eqn:Hb; [|discriminate].
    destruct (Ascii.eqb c ";") eqn:Hc; [|discriminate].
    apply Ascii.eqb_eq in Ha, Hb, Hc. subst. exists r. reflexivity.
  - intros [rest H]. injection H as -> -> -> ->. reflexivity.
Qed.




(** A line that starts with three semicolons is a comment. *)
Lemma comment_line_of_prefix (rest : string) : comment_line (";;;" ++ rest).
Proof.
  unfold comment_line, strip. simpl.
  exists (rstrip rest). reflexivity.
Qed.

(** The two lines of the spec. *)
Lemma lexicon_line_examples :
  lexicon_line "OK(1)  OW K EY1" = Ok None /\
  lexicon_line "OK  OW K EY1" = Ok (Some ("OK OW K EY" ++ nl)) /\
  lexicon_line (";;; a comment" ++ nl) = Ok None.
Proof. repeat split; vm_compute; reflexivity. Qed.



(** The run of [make_lexicon], case by case. *)
Lemma make_lexicon_run (self : preparator) (fs : node) :
  make_lexicon self fs
  = match write_file (lexicon_file self) "" fs with
    | Raise e => (Raise e, fs)
    | Ok fa =>
        match read_file (cmu_dict self) fa with
        | Raise e => (Raise e, fa)
        | Ok content =>
            let out := lexicon_text (readlines content) in
            match write_file (lexicon_file self) (fst out) fa with
            | Ok fb => (snd out, fb)
            | Raise e => (Raise e, fa)
            end
        end
    end.
Proof.
  unfold make_lexicon, with_open_w, bind_io, change, lift, ret.
  destruct (write_file (lexicon_file self) "" fs) as [fa|e]; [|reflexivity].
  destruct (read_file (cmu_dict self) fa) as [content|e]; [|reflexivity].
  simpl.
  destruct (write_file (lexicon_file self)
              (fst (lexicon_text (readlines content))) fa); reflexivity.
Qed.

(** C9: a second run of [make_lexicon] ends as the first one did and
    leaves the file system as the first one left it; the lexicon is the
    same, byte for byte. *)
Theorem make_lexicon_idempotent (self : preparator) (fs : node) :
  make_lexicon self (snd (make_lexicon self fs)) = make_lexicon self fs.
Proof.
  rewrite (make_lexicon_run self fs).
  destruct (write_file (lexicon_file self) "" fs) as [fa|e] eqn:Ha; simpl.
  - assert (Hfa : write_file (lexicon_file self) "" fa = Ok fa).
    { rewrite (write_file_twice _ _ _ _ _ Ha). exact Ha. }
    destruct (read_file (cmu_dict self) fa) as [content|e] eqn:Hr; simpl.
    + destruct (write_file (lexicon_file self)
                  (fst (lexicon_text (readlines content))) fa)
        as [fb|e] eqn:Hb; simpl.
      * rewrite make_lexicon_run.
        rewrite (write_file_twice _ _ _ _ _ Hb), Hfa, Hr. simpl.
        now rewrite Hb.
      * rewrite make_lexicon_run, Hfa, Hr. simpl. now rewrite Hb.
    + rewrite make_lexicon_run, Hfa, Hr. reflexivity.
  - rewrite make_lexicon_run, Ha. reflexivity.
Qed.



End LexiconFacts.
(** ** Properties of the pipeline and of the entry point *)

Module PipelineFacts.

Import Selector Preparator Cli Samples.

(** C2: [prepare] calls [link_wavs] first, which no class of the corpus
    defines: the call raises [NotImplementedError] and the file system is
    as it was, so no manifest is written. *)
Theorem prepare_raises_not_implemented (self : preparator) (fs : node) :
  prepare WallStreetJournal_methods self fs = (Raise NotImplementedError, fs).
Proof. reflexivity. Qed.

(** C6, as the code has it: an exception that derives from [Exception] is
    caught, [main] prints the line and returns, and the process ends with
    the exit code 0; so it does when nothing is raised. *)
Theorem main_prints_and_exits_zero
    (default_dir : path) (validate : path -> bool -> io unit)
    (parse_args : result args) (fs fs' : node) (r : result unit) :
  main_try default_dir validate parse_args fs = (r, fs') ->
  (forall e, r = Raise e -> is_Exception e = true) ->
  main default_dir validate parse_args fs
    = (match r with
       | Raise e => ["fatal error: " ++ str_of_exception e]
       | Ok _ => []
       end, Ok tt, fs') /\
  process_exit_code default_dir validate parse_args fs = 0.
Proof.
  intros Htry He.
  unfold process_exit_code, main. rewrite Htry.
  destruct r as [u | e].
  - split; reflexivity.
  - rewrite (He e eq_refl). split; reflexivity.
Qed.

(** The sample run: the preparation raises, the line is printed and the
    exit code is 0. *)
Lemma main_prints_and_exits_zero_sample :
  main ["corpora"] no_validation_errors (Ok sample_args) sample_fs
    = (["fatal error: "], Ok tt, sample_fs_after) /\
  process_exit_code ["corpora"] no_validation_errors (Ok sample_args)
    sample_fs = 0.
Proof.
  apply (main_prints_and_exits_zero ["corpora"] no_validation_errors
           (Ok sample_args) sample_fs sample_fs_after
           (Raise NotImplementedError)).
  - vm_compute. reflexivity.
  - intros e He. injection He as <-. reflexivity.
Defined.

(** C6, as the claim has it, fails on the sample run: a preparation step
    raises and the exit code is 0. *)
Lemma main_exit_code_not_nonzero :
  ~ (forall default_dir validate parse_args fs e fs',
        main_try default_dir validate parse_args fs = (Raise e, fs') ->
        process_exit_code default_dir validate parse_args fs <> 0).
Proof.
  intros H.
  apply (H ["corpora"] no_validation_errors (Ok sample_args) sample_fs
           NotImplementedError sample_fs_after).
  - vm_compute. reflexivity.
  - vm_compute. reflexivity.
Qed.

End PipelineFacts.


(** ** More properties of the file system *)

Module FsMoreFacts.

Import FsSpec RemovalSpec FsFacts SelectorFacts.
Local Open Scope list_scope.

Lemma lookup_entry_remove_eq (c : string) (es : list (string * node)) :
  lookup_entry c (remove_entry c es) = None.
Proof.
  unfold remove_entry. induction es as [|[n x] es IH]; simpl; [reflexivity|].
  destruct (String.eqb n c) eqn:E; simpl; [exact IH|].
  rewrite E. exact IH.
Qed.

Lemma lookup_entry_remove_ne (c d : string) (es : list (string * node)) :
  String.eqb c d = false ->
  lookup_entry d (remove_entry c es) = lookup_entry d es.
Proof.
  intros Hcd. unfold remove_entry.
  induction es as [|[n x] es IH]; simpl; [reflexivity|].
  destruct (String.eqb n c) eqn:E; simpl.
  - apply String.eqb_eq in E. subst n. now rewrite Hcd.
  - destruct (String.eqb n d); [reflexivity | exact IH].
Qed.

(** A path where something is found lies below directories. *)
Lemma kind_at_above (p : path) :
  forall fs q,
    kind_at fs p <> Absent ->
    is_prefix q p = true -> path_eqb q p = false ->
    kind_at fs q = IsDir.
Proof.
  induction p as [|c p IH]; intros fs q Hp Hq Hne.
  - destruct q; discriminate.
  - destruct q as [|d q].
    + rewrite kind_at_cons in Hp. destruct fs; [contradiction | reflexivity].
    + simpl in Hq, Hne. apply andb_prop in Hq as [Hd Hq].
      rewrite Hd in Hne. simpl in Hne.
      apply String.eqb_eq in Hd. subst d.
      rewrite kind_at_cons in *. destruct fs as [content|es]; [contradiction|].
      destruct (lookup_entry c es) as [x|]; [|contradiction].
      now apply IH.
Qed.

Lemma alter_at_remove_kind (err : exception)
    (f : option node -> result (option node)) (p : path) :
  removes_dirs f ->
  forall fs fs',
    alter_at err p f fs = Ok fs' ->
    kind_at fs p = IsDir /\
    forall q, kind_at fs' q = if is_prefix p q then Absent else kind_at fs q.
Proof.
  intros Hf. induction p as [|c p IH]; intros fs fs' H.
  - destruct fs; discriminate.
  - destruct fs as [content|es]; [discriminate|].
    simpl in H. destruct p as [|d p].
    + pose proof (Hf (lookup_entry c es)) as Hcur.
      destruct (lookup_entry c es) as [[content|sub]|] eqn:Hc;
        try (destruct Hcur as [e He]; rewrite He in H; discriminate).
      rewrite Hcur in H. simpl in H. injection H as <-.
      split; [rewrite kind_at_cons, Hc; reflexivity|].
      intros [|e q]; [reflexivity|].
      rewrite !kind_at_cons. simpl.
      destruct (String.eqb c e) eqn:Hce.
      * apply String.eqb_eq in Hce. subst e.
        now rewrite lookup_entry_remove_eq.
      * now rewrite lookup_entry_remove_ne.
    + destruct (lookup_entry c es) as [child|] eqn:Hc; [|discriminate].
      destruct (alter_at err (d :: p) f child) as [child'|e0] eqn:Hchild;
        [|discriminate].
      simpl in H. injection H as <-.
      destruct (IH child child' Hchild) as [Hdir Hkind].
      split; [rewrite kind_at_cons, Hc; exact Hdir|].
      intros [|e q]; [reflexivity|].
      rewrite !kind_at_cons.
      change (is_prefix (c :: d :: p) (e :: q))
        with (String.eqb c e && is_prefix (d :: p) q).
      destruct (String.eqb c e) eqn:Hce.
      * apply String.eqb_eq in Hce. subst e.
        rewrite lookup_entry_set_eq, Hc. apply Hkind.
      * now rewrite lookup_entry_set_ne.
Qed.

Lemma alter_at_remove_fails (err : exception)
    (f : option node -> result (option node)) (p : path) :
  removes_dirs f ->
  forall fs,
    kind_at fs p <> IsDir \/ p = [] ->
    exists e, alter_at err p f fs = Raise e.
Proof.
  intros Hf. induction p as [|c p IH]; intros fs Hk.
  - destruct fs; simpl; eauto.
  - destruct Hk as [Hk | Hk]; [|discriminate].
    destruct fs as [content|es]; [simpl; eauto|].
    rewrite kind_at_cons in Hk. simpl. destruct p as [|d p].
    + pose proof (Hf (lookup_entry c es)) as Hcur.
      destruct (lookup_entry c es) as [[content|sub]|];
        try (destruct Hcur as [e He]; rewrite He; simpl; eauto).
      exfalso. apply Hk. reflexivity.
    + destruct (lookup_entry c es) as [child|]; [|eauto].
      destruct (IH child (or_introl Hk)) as [e He]. rewrite He. simpl. eauto.
Qed.

Lemma alter_at_remove_ok (err : exception)
    (f : option node -> result (option node)) (p : path) :
  removes_dirs f ->
  forall fs,
    p <> [] -> kind_at fs p = IsDir ->
    exists fs', alter_at err p f fs = Ok fs'.
Proof.
  intros Hf. induction p as [|c p IH]; intros fs Hne Hk; [contradiction|].
  rewrite kind_at_cons in Hk. destruct fs as [content|es]; [discriminate|].
  simpl. destruct (lookup_entry c es) as [child|] eqn:Hc; [|discriminate].
  destruct p as [|d p].
  - rewrite kind_at_nil in Hk. destruct child as [content|sub];
      [discriminate|].
    pose proof (Hf (Some (Dir sub))) as Hcur. simpl in Hcur.
    rewrite Hcur. simpl. eauto.
  - destruct (IH child) as [child' Hchild]; [discriminate | exact Hk|].
    rewrite Hchild. simpl. eauto.
Qed.

Lemma rmtree_removes_dirs (p : path) :
  removes_dirs
    (fun cur => match cur with
                | Some (Dir _) => Ok None
                | Some (File _) =>
                    Raise (OSError ("Not a directory: " ++ path_str p)%string)
                | None =>
                    Raise (OSError ("No such file or directory: "
                                    ++ path_str p)%string)
                end).
Proof. intros [[content|es]|]; eauto. Qed.

(** [shutil.rmtree] on a directory removes it with what it holds, and
    leaves the rest as it is. *)
Lemma rmtree_kind (p : path) (fs fs' : node) :
  rmtree p fs = Ok fs' ->
  kind_at fs p = IsDir /\
  forall q, kind_at fs' q = if is_prefix p q then Absent else kind_at fs q.
Proof. apply alter_at_remove_kind. apply rmtree_removes_dirs. Qed.

(** [shutil.rmtree] raises on what is not a directory. *)
Lemma rmtree_fails (p : path) (fs : node) :
  kind_at fs p <> IsDir -> exists e, rmtree p fs = Raise e.
Proof.
  intros H. apply alter_at_remove_fails;
    [apply rmtree_removes_dirs | now left].
Qed.

Lemma rmtree_ok (p : path) (fs : node) :
  p <> [] -> kind_at fs p = IsDir -> exists fs', rmtree p fs = Ok fs'.
Proof. apply alter_at_remove_ok. apply rmtree_removes_dirs. Qed.

Lemma rmtree_root_fails (fs : node) : exists e, rmtree [] fs = Raise e.
Proof.
  apply alter_at_remove_fails; [apply rmtree_removes_dirs | now right].
Qed.

(** The errors of [shutil.rmtree] and [os.makedirs] are [OSError]s. *)
Lemma rmtree_raises_OSError (p : path) :
  forall fs e, rmtree p fs = Raise e -> exists msg, e = OSError msg.
Proof.
  unfold rmtree.
  generalize (("No such file or directory: " ++ path_str p)%string) as m1.
  generalize (("Not a directory: " ++ path_str p)%string) as m2.
  intros m2 m1. induction p as [|c p IH]; intros fs e H.
  - destruct fs; simpl in H; injection H as <-; eauto.
  - destruct fs as [content|es]; simpl in H; [injection H as <-; eauto|].
    destruct p as [|d p].
    + destruct (lookup_entry c es) as [[content|sub]|]; simpl in H;
        try discriminate; injection H as <-; eauto.
    + destruct (lookup_entry c es) as [child|]; [|injection H as <-; eauto].
      destruct (alter_at _ (d :: p) _ child) as [child'|e0] eqn:Hchild;
        [discriminate|].
      simpl in H. injection H as <-. eapply IH. exact Hchild.
Qed.

Lemma makedirs_raises_OSError (p : path) :
  forall fs e, makedirs p fs = Raise e -> exists msg, e = OSError msg.
Proof.
  induction p as [|c p IH]; intros fs e H; simpl in H.
  - injection H as <-. eauto.
  - destruct fs as [content|es]; [injection H as <-; eauto|].
    destruct (lookup_entry c es) as [child|]; [|discriminate].
    destruct (makedirs p child) as [child'|e0] eqn:Hchild; [discriminate|].
    simpl in H. injection H as <-. eapply IH. exact Hchild.
Qed.

(** Directories are made only where no file is, so a file is never
    replaced. *)
Lemma makedirs_keeps_files (p : path) :
  forall fs fs',
    makedirs p fs = Ok fs' ->
    forall q content,
      kind_at fs q = IsFile content -> kind_at fs' q = IsFile content.
Proof.
  induction p as [|c p IH]; intros fs fs' H q content Hq; [discriminate|].
  destruct fs as [cont|es]; [discriminate|]. simpl in H.
  destruct q as [|d q]; [discriminate|].
  rewrite kind_at_cons in *.
  destruct (lookup_entry c es) as [child|] eqn:Hc.
  - destruct (makedirs p child) as [child'|e] eqn:Hchild; [|discriminate].
    simpl in H. injection H as <-.
    destruct (String.eqb c d) eqn:Hcd.
    + apply String.eqb_eq in Hcd. subst d.
      rewrite lookup_entry_set_eq. rewrite Hc in Hq.
      exact (IH child child' Hchild q content Hq).
    + now rewrite lookup_entry_set_ne.
  - injection H as <-.
    destruct (String.eqb c d) eqn:Hcd.
    + apply String.eqb_eq in Hcd. subst d. rewrite Hc in Hq. discriminate.
    + now rewrite lookup_entry_set_ne.
Qed.





End FsMoreFacts.


(** ** More properties of the initialization *)

Module InitMoreFacts.

Import Selector Preparator FsSpec FsFacts FsMoreFacts InitSpec ObjectSpec
  InitFacts Samples.
Local Open Scope list_scope.

Lemma is_prefix_antisym (q p : path) :
  is_prefix q p = true -> is_prefix p q = true -> path_eqb q p = true.
Proof.
  revert p. induction q as [|c q IH]; intros [|d p]; simpl; auto;
    try discriminate.
  intros H1 H2. apply andb_prop in H1 as [Hc H1].
  apply andb_prop in H2 as [_ H2]. rewrite Hc. simpl. now apply IH.
Qed.


(** The two calls of [os.makedirs] of the initialization succeed where
    the output directory is not there and no file stands above it. *)
Lemma makedirs_hierarchy (out : path) (fs : node) :
  kind_at fs [] = IsDir ->
  kind_at fs out = Absent ->
  (forall q content, is_prefix q out = true -> kind_at fs q <> IsFile content) ->
  exists fs1 fs2,
    makedirs (out ++ ["data"; "wavs"]) fs = Ok fs1 /\
    makedirs (out ++ ["logs"]) fs1 = Ok fs2 /\
    forall q,
      kind_at fs2 q
      = if is_prefix q (out ++ ["data"; "wavs"]) || is_prefix q (out ++ ["logs"])
        then IsDir else kind_at fs q.
Proof.
  intros Hroot Hout Habove.
  assert (Hbelow : forall q s content,
             is_prefix q (out ++ s) = true -> kind_at fs q <> IsFile content).
  { intros q s content Hq.
    destruct (is_prefix_app_cases q out s Hq) as [Hpre | [r ->]].
    - apply Habove. exact Hpre.
    - rewrite (kind_at_absent_below out r fs Hout). discriminate. }
  destruct (makedirs_ok (out ++ ["data"; "wavs"]) fs) as [fs1 H1].
  { exact Hroot. }
  { apply kind_at_absent_below. exact Hout. }
  { intros q content. apply Hbelow. }
  pose proof (makedirs_kind _ _ _ H1) as K1.
  destruct (makedirs_ok (out ++ ["logs"]) fs1) as [fs2 H2].
  { rewrite K1. reflexivity. }
  { rewrite K1, is_prefix_app_same. simpl.
    apply kind_at_absent_below. exact Hout. }
  { intros q content Hq. rewrite K1.
    destruct (is_prefix q (out ++ ["data"; "wavs"])); [discriminate|].
    apply (Hbelow q ["logs"]). exact Hq. }
  pose proof (makedirs_kind _ _ _ H2) as K2.
  exists fs1, fs2. repeat split; try assumption.
  intros q. rewrite K2, K1.
  destruct (is_prefix q (out ++ ["logs"])),
           (is_prefix q (out ++ ["data"; "wavs"])); reflexivity.
Qed.


(** The run of [AbstractPreparator.__init__], step by step. *)
Lemma abstract_init_run (default_dir : path) (cls : variant)
    (input_dir : path) (output_dir : option path) (verbose overwrite : bool)
    (fs : node) :
  abstract_init default_dir cls input_dir output_dir verbose overwrite fs
  = if negb (isdir fs input_dir)
    then (Raise (IOError ("input directory does not exist:" ++ nl
                          ++ path_str input_dir)%string), fs)
    else
      match (if overwrite
             then rmtree (chosen_output_dir default_dir cls output_dir) fs
             else if path_exists fs
                       (chosen_output_dir default_dir cls output_dir)
                  then Raise (IOError ("output directory already exists:"
                                       ++ nl ++ path_str
                                         (chosen_output_dir default_dir cls
                                            output_dir))%string)
                  else Ok fs) with
      | Raise e => (Raise e, fs)
      | Ok fs0 =>
          match makedirs (chosen_output_dir default_dir cls output_dir
                          ++ ["data"; "wavs"]) fs0 with
          | Raise e => (Raise e, fs0)
          | Ok fs1 =>
              match makedirs (chosen_output_dir default_dir cls output_dir
                              ++ ["logs"]) fs1 with
              | Raise e => (Raise e, fs1)
              | Ok fs2 =>
                  (Ok (init_object default_dir cls input_dir output_dir
                         verbose), fs2)
              end
          end
      end.
Proof.
  unfold abstract_init, init_object, bind_io, ask, raise, ret, change.
  fold (chosen_output_dir default_dir cls output_dir).
  destruct (isdir fs input_dir); simpl; [|reflexivity].
  replace ((chosen_output_dir default_dir cls output_dir ++ ["data"])
             ++ ["wavs"])
    with (chosen_output_dir default_dir cls output_dir ++ ["data"; "wavs"])
    by (now rewrite <- app_assoc).
  destruct overwrite.
  - destruct (rmtree _ fs) as [fs0|e]; [|reflexivity].
    destruct (makedirs _ fs0) as [fs1|e]; [|reflexivity].
    destruct (makedirs _ fs1) as [fs2|e]; reflexivity.
  - destruct (path_exists fs _); [reflexivity|].
    destruct (makedirs _ fs) as [fs1|e]; [|reflexivity].
    destruct (makedirs _ fs1) as [fs2|e]; reflexivity.
Qed.

(** After [shutil.rmtree] of the output directory the hierarchy can be
    made. *)
Lemma makedirs_after_rmtree (out : path) (fs fs0 : node) :
  kind_at fs [] = IsDir ->
  rmtree out fs = Ok fs0 ->
  kind_at fs0 [] = IsDir /\
  kind_at fs0 out = Absent /\
  forall q content, is_prefix q out = true -> kind_at fs0 q <> IsFile content.
Proof.
  intros Hroot Hrm. destruct (rmtree_kind out fs fs0 Hrm) as [Hdir K0].
  assert (Hout : out <> []).
  { intros ->. specialize (K0 []). simpl in K0.
    rewrite kind_at_nil in K0. destruct fs0; discriminate. }
  split; [|split].
  - rewrite K0. destruct out; [contradiction | exact Hroot].
  - rewrite K0, is_prefix_refl. reflexivity.
  - intros q content Hq. rewrite K0.
    destruct (is_prefix out q) eqn:Hoq; [discriminate|].
    rewrite (kind_at_above out fs q); [discriminate | congruence | exact Hq |].
    destruct (path_eqb q out) eqn:E; [|reflexivity].
    apply path_eqb_eq in E. subst q. rewrite is_prefix_refl in Hoq.
    discriminate.
Qed.



(** X4: with the overwriting of the output directory requested: the
    initialization raises when the output directory is not a directory
    that is there, and otherwise removes what it holds and makes the
    hierarchy anew. *)
Theorem abstract_init_overwrite (default_dir : path) (cls : variant)
    (input_dir : path) (output_dir : option path) (verbose : bool)
    (fs : node) :
  isdir fs input_dir = true ->
  (kind_at fs (chosen_output_dir default_dir cls output_dir) <> IsDir ->
   exists msg,
     abstract_init default_dir cls input_dir output_dir verbose true fs
     = (Raise (OSError msg), fs)) /\
  (kind_at fs (chosen_output_dir default_dir cls output_dir) = IsDir ->
   chosen_output_dir default_dir cls output_dir <> [] ->
   exists self fs',
     abstract_init default_dir cls input_dir output_dir verbose true fs
     = (Ok self, fs') /\
     forall q,
       kind_at fs' q
       = if is_prefix q (chosen_output_dir default_dir cls output_dir
                         ++ ["data"; "wavs"])
            || is_prefix q (chosen_output_dir default_dir cls output_dir
                            ++ ["logs"])
         then IsDir
         else if is_prefix (chosen_output_dir default_dir cls output_dir) q
              then Absent
              else kind_at fs q).
Proof.
  intros Hin.
  rewrite abstract_init_run, Hin. simpl.
  pose proof (isdir_root fs input_dir Hin) as Hroot. split.
  - intros Hk. destruct (rmtree_fails _ fs Hk) as [e He]. rewrite He.
    destruct (rmtree_raises_OSError _ _ _ He) as [msg ->]. eauto.
  - intros Hk Hne.
    destruct (rmtree_ok _ fs Hne Hk) as [fs0 Hrm]. rewrite Hrm.
    destruct (makedirs_after_rmtree _ fs fs0 Hroot Hrm) as (H0 & H1 & H2).
    destruct (makedirs_hierarchy _ fs0 H0 H1 H2)
      as (fs1 & fs2 & Hw & Hl & K).
    rewrite Hw, Hl. eexists _, fs2. split; [reflexivity|].
    intros q. rewrite K.
    destruct (rmtree_kind _ fs fs0 Hrm) as [_ K0]. now rewrite K0.
Qed.

(** The sample: the output directory [out] left by a first run is
    emptied and its hierarchy made anew. *)
Lemma abstract_init_overwrite_sample :
  exists self fs',
    abstract_init ["corpora"] WallStreetJournalPreparator ["wsj"]
      (Some ["out"]) false true sample_fs_after = (Ok self, fs') /\
    forall q,
      kind_at fs' q
      = if is_prefix q (["out"] ++ ["data"; "wavs"])
           || is_prefix q (["out"] ++ ["logs"])
        then IsDir
        else if is_prefix ["out"] q then Absent
             else kind_at sample_fs_after q.
Proof.
  apply (proj2 (abstract_init_overwrite ["corpora"]
                  WallStreetJournalPreparator ["wsj"] (Some ["out"]) false
                  sample_fs_after eq_refl)).
  - reflexivity.
  - discriminate.
Defined.

End InitMoreFacts.

(** ** More on the constructor of the WSJ preparators *)

Module ConstructorFacts.

Import Selector Preparator FsSpec DetectorSpec SelectorSpec SelectorMoreSpec
  InitSpec ObjectSpec FsFacts FsMoreFacts DetectorFacts SelectorFacts InitFacts
  InitMoreFacts Samples.
Local Open Scope list_scope.

(** Once [AbstractPreparator.__init__] has run, the constructor only reads
    the file system. *)
Lemma wsj_init_snd (default_dir : path) (cls : variant)
    (input_dir cmu_dict : path) (output_dir : option path) (verbose : bool)
    (fs : node) :
  snd (wsj_init default_dir cls input_dir cmu_dict output_dir verbose fs)
  = snd (abstract_init default_dir cls input_dir output_dir verbose false fs).
Proof.
  unfold wsj_init, bind_io.
  destruct (abstract_init default_dir cls input_dir output_dir verbose false
              fs) as [[self|e] fs1]; [|reflexivity].
  unfold ask, raise, ret. simpl.
  destruct (isfile fs1 cmu_dict); simpl; [|reflexivity].
  destruct (list_files fs1 _ _ (filter_wv1 cls)); [|reflexivity].
  destruct (list_files fs1 _ _ (filter_dot cls)); [|reflexivity].
  destruct (find_bad_utts fs1 [] _); reflexivity.
Qed.

(** [os.makedirs] only adds directories. *)
Lemma makedirs_only_adds (p : path) (fs fs' : node) (q : path) :
  makedirs p fs = Ok fs' ->
  kind_at fs' q = kind_at fs q \/
  (kind_at fs q = Absent /\ kind_at fs' q = IsDir).
Proof.
  intros H. destruct (kind_at fs q) as [|content|] eqn:Hk.
  - rewrite (makedirs_kind _ _ _ H), Hk.
    destruct (is_prefix q p); [right|left]; auto.
  - left. apply (makedirs_keeps_files _ _ _ H _ _ Hk).
  - left. rewrite (makedirs_kind _ _ _ H), Hk. now destruct (is_prefix q p).
Qed.

(** What [AbstractPreparator.__init__] makes of the file system when it
    does not overwrite. *)
Lemma abstract_init_only_adds (default_dir : path) (cls : variant)
    (input_dir : path) (output_dir : option path) (verbose : bool)
    (fs : node) (q : path) :
  kind_at (snd (abstract_init default_dir cls input_dir output_dir verbose
                  false fs)) q = kind_at fs q \/
  (kind_at fs q = Absent /\
   kind_at (snd (abstract_init default_dir cls input_dir output_dir verbose
                   false fs)) q = IsDir).
Proof.
  rewrite abstract_init_run.
  destruct (negb (isdir fs input_dir)); [now left|].
  destruct (path_exists fs (chosen_output_dir default_dir cls output_dir));
    [now left|].
  destruct (makedirs _ fs) as [fs1|e] eqn:H1; [|now left].
  pose proof (makedirs_only_adds _ _ _ q H1) as K1.
  destruct (makedirs _ fs1) as [fs2|e] eqn:H2; [|exact K1].
  pose proof (makedirs_only_adds _ _ _ q H2) as K2. simpl.
  destruct K1 as [K1|[K1 K1']], K2 as [K2|[K2 K2']].
  - left. congruence.
  - right. split; congruence.
  - right. split; congruence.
  - congruence.
Qed.

(** X5: the constructor of a WSJ preparator leaves what is in the file
    system as it is, whether it returns or raises: a file that was there
    keeps its content and a directory that was there stays one. *)
Theorem wsj_init_keeps_what_is_there (default_dir : path) (cls : variant)
    (input_dir cmu_dict : path) (output_dir : option path) (verbose : bool)
    (fs : node) (q : path) :
  kind_at fs q = Absent \/
  kind_at (snd (wsj_init default_dir cls input_dir cmu_dict output_dir
                  verbose fs)) q = kind_at fs q.
Proof.
  rewrite wsj_init_snd.
  destruct (abstract_init_only_adds default_dir cls input_dir output_dir
              verbose fs q) as [H|[H _]]; auto.
Qed.

(** X6: the constructor with the dictionary missing: it raises once the
    output directories are made, and they stay, so that the constructor
    called again for the same output directory raises for that directory,
    whatever the dictionary given then. *)
Theorem wsj_init_missing_dictionary (default_dir : path) (cls : variant)
    (input_dir cmu_dict : path) (output_dir : option path) (verbose : bool)
    (fs : node) :
  isdir fs input_dir = true ->
  path_exists fs (chosen_output_dir default_dir cls output_dir) = false ->
  (forall q content,
      is_prefix q (chosen_output_dir default_dir cls output_dir) = true ->
      kind_at fs q <> IsFile content) ->
  isfile fs cmu_dict = false ->
  exists fs',
    wsj_init default_dir cls input_dir cmu_dict output_dir verbose fs
    = (Raise (IOError ("CMU dictionary does not exist: "
                       ++ path_str cmu_dict)%string), fs') /\
    isdir fs' (chosen_output_dir default_dir cls output_dir
               ++ ["data"; "wavs"]) = true /\
    isdir fs' (chosen_output_dir default_dir cls output_dir ++ ["logs"])
    = true /\
    forall cmu_dict' verbose',
      wsj_init default_dir cls input_dir cmu_dict' output_dir verbose' fs'
      = (Raise (IOError ("output directory already exists:" ++ nl
                         ++ path_str (chosen_output_dir default_dir cls
                                        output_dir))%string), fs').
Proof.
  intros Hin Hout Hfiles Hdict.
  destruct (abstract_init_creates default_dir cls input_dir output_dir verbose
              fs Hin Hout Hfiles) as (self & fs' & Hrun & _ & _ & _ & _ & K).
  assert (Kdir : forall p,
             is_prefix p (chosen_output_dir default_dir cls output_dir
                          ++ ["data"; "wavs"]) = true \/
             is_prefix p (chosen_output_dir default_dir cls output_dir
                          ++ ["logs"]) = true ->
             kind_at fs' p = IsDir).
  { intros p Hp. rewrite K.
    destruct Hp as [-> | ->]; [reflexivity|]. now rewrite orb_true_r. }
  exists fs'. repeat split.
  - unfold wsj_init, bind_io. rewrite Hrun. unfold ask. simpl.
    assert (Hd : isfile fs' cmu_dict = false).
    { destruct (isfile fs' cmu_dict) eqn:E; [|reflexivity].
      apply isfile_kind in E. destruct E as [content E].
      rewrite K in E. destruct (_ || _); [discriminate|].
      assert (isfile fs cmu_dict = true) by (apply isfile_kind; eauto).
      congruence. }
    now rewrite Hd.
  - apply isdir_kind, Kdir. left. apply is_prefix_refl.
  - apply isdir_kind, Kdir. right. apply is_prefix_refl.
  - intros cmu_dict' verbose'. unfold wsj_init, bind_io.
    rewrite abstract_init_run.
    assert (Hin' : isdir fs' input_dir = true).
    { apply isdir_kind. rewrite K. apply isdir_kind in Hin. rewrite Hin.
      now destruct (_ || _). }
    rewrite Hin'. simpl.
    assert (Hout' : path_exists fs'
                      (chosen_output_dir default_dir cls output_dir) = true).
    { destruct (path_exists fs' _) eqn:E; [reflexivity|].
      apply path_exists_kind in E. rewrite Kdir in E; [discriminate|].
      left. apply is_prefix_app. }
    now rewrite Hout'.
Qed.

(** The sample: the dictionary of the command line is not there. *)
Lemma wsj_init_missing_dictionary_sample :
  exists fs',
    wsj_init ["corpora"] WallStreetJournalPreparator ["wsj"] ["nodict"]
      (Some ["out"]) false sample_fs
    = (Raise (IOError ("CMU dictionary does not exist: "
                       ++ path_str ["nodict"])%string), fs') /\
    isdir fs' (["out"] ++ ["data"; "wavs"]) = true /\
    isdir fs' (["out"] ++ ["logs"]) = true /\
    forall cmu_dict' verbose',
      wsj_init ["corpora"] WallStreetJournalPreparator ["wsj"] cmu_dict'
        (Some ["out"]) verbose' fs'
      = (Raise (IOError ("output directory already exists:" ++ nl
                         ++ path_str ["out"])%string), fs').
Proof.
  apply (wsj_init_missing_dictionary ["corpora"] WallStreetJournalPreparator
           ["wsj"] ["nodict"] (Some ["out"]) false sample_fs).
  - reflexivity.
  - reflexivity.
  - intros [|c [|d q]] content Hq.
    + discriminate.
    + simpl in Hq. rewrite andb_true_r in Hq. apply String.eqb_eq in Hq.
      subst c. discriminate.
    + simpl in Hq. rewrite andb_false_r in Hq. discriminate.
  - reflexivity.
Defined.



End ConstructorFacts.

(** ** More on the token normalizer *)

Module WordFacts.

Import Normalizer NormalizerSpec WordSpec PyFacts NormalizerFacts.
Local Open Scope string_scope.

Lemma all_chars_app (p : ascii -> bool) (s t : string) :
  all_chars p (s ++ t) = all_chars p s && all_chars p t.
Proof.
  induction s as [|c s IH]; simpl; [reflexivity|].
  now rewrite IH, andb_assoc.
Qed.

Lemma all_chars_substring (p : ascii -> bool) (s : string) :
  forall n m,
    all_chars p s = true -> all_chars p (String.substring n m s) = true.
Proof.
  induction s as [|c s IH]; intros [|n] [|m] H; simpl; auto;
    simpl in H; apply andb_true_iff in H; destruct H as [Hc Hs];
    try (now apply IH).
  rewrite Hc. simpl. now apply IH.
Qed.

Lemma all_chars_slice (p : ascii -> bool) (lo hi : option Z) (s : string) :
  all_chars p s = true -> all_chars p (slice lo hi s) = true.
Proof. apply all_chars_substring. Qed.

Lemma all_chars_replace_from (p : ascii -> bool) (old new : string)
    (s : string) :
  all_chars p new = true ->
  forall skip,
    all_chars p s = true -> all_chars p (replace_from old new skip s) = true.
Proof.
  intros Hnew. induction s as [|c s IH]; intros skip H; [reflexivity|].
  simpl in H. apply andb_true_iff in H. destruct H as [Hc Hs].
  cbn [replace_from]. destruct skip as [|k]; [|now apply IH].
  destruct (String.prefix old (String c s)).
  - rewrite all_chars_app, Hnew. now apply IH.
  - simpl. rewrite Hc. now apply IH.
Qed.

Lemma upper_not_lower (s : string) :
  all_chars (fun c => negb (is_lower c)) (upper s) = true.
Proof.
  induction s as [|c s IH]; simpl; [reflexivity|]. rewrite IH, andb_true_r.
  destruct c as [[] [] [] [] [] [] [] []]; reflexivity.
Qed.

(** No backslash is left once they are replaced by nothing. *)
Lemma replace_backslash (s : string) :
  forall skip,
    all_chars (fun c => negb (Ascii.eqb c "\"))
      (replace_from "\" "" skip s) = true.
Proof.
  induction s as [|c s IH]; intros skip; [reflexivity|].
  cbn [replace_from]. destruct skip as [|k]; [|apply IH].
  destruct (String.prefix "\" (String c s)) eqn:E.
  - simpl. apply IH.
  - simpl. rewrite IH, andb_true_r.
    destruct (Ascii.eqb_spec c "\") as [->|Hne]; [|reflexivity].
    cbn in E. destruct s; discriminate E.
Qed.

Lemma all_chars_and (p q : ascii -> bool) (s : string) :
  all_chars (fun c => p c && q c) s = all_chars p s && all_chars q s.
Proof.
  induction s as [|c s IH]; simpl; [reflexivity|]. rewrite IH.
  destruct (p c), (q c), (all_chars p s), (all_chars q s); reflexivity.
Qed.

(** The corrected form of a token has no lower-case letter and no
    backslash. *)
Lemma corrected_form_plain (word : string) :
  all_chars plain (corrected_form word) = true.
Proof.
  unfold corrected_form, replace.
  apply all_chars_replace_from; [reflexivity|].
  apply all_chars_replace_from; [reflexivity|].
  unfold plain. rewrite all_chars_and. apply andb_true_iff. split.
  - apply all_chars_replace_from; [reflexivity|]. apply upper_not_lower.
  - apply replace_backslash.
Qed.

Lemma getitem_last_app (s : string) (c : ascii) :
  getitem (s ++ String c "") (-1) = Ok (String c "").
Proof.
  unfold getitem, len. cbv zeta.
  assert (Hlen : String.length (s ++ String c "") = S (String.length s)).
  { induction s as [|d s IH]; simpl; [reflexivity|]. now rewrite IH. }
  rewrite Hlen.
  replace (-1 <? 0)%Z with true by reflexivity.
  replace ((-1 + Z.of_nat (S (String.length s)) <? 0)%Z
           || (Z.of_nat (S (String.length s))
               <=? -1 + Z.of_nat (S (String.length s)))%Z)%bool with false.
  2:{ symmetry. apply orb_false_iff. split; [apply Z.ltb_ge|apply Z.leb_gt];
        lia. }
  replace (Z.to_nat (-1 + Z.of_nat (S (String.length s))))
    with (0 + String.length s)%nat by lia.
  now rewrite <- (append_correct2 s (String c "") 0).
Qed.

(** What the end of [correct_word] returns. *)
Lemma finish_word_cases (w r : string) :
  finish_word w = Ok r ->
  r = "" \/ r = "<noise>" \/ r = "-DASH" \/
  (r = w /\ w <> "~" /\ w <> "." /\
   and_ (eq_ (getitem w 0) "[") (eq_ (getitem w (-1)) "]") = Ok false).
Proof.
  unfold finish_word.
  destruct (String.eqb_spec w "~") as [->|H1].
  { intros [= <-]. now left. }
  destruct (String.eqb_spec w ".") as [->|H2].
  { intros [= <-]. now left. }
  match goal with
  | |- bind ?ig _ = _ -> _ => destruct ig as [[|]|e]
  end; simpl; [intros [= <-]; now left| |discriminate].
  destruct (and_ (eq_ (getitem w 0) "[") (eq_ (getitem w (-1)) "]"))
    as [[|]|e] eqn:Hnoise; simpl; [intros [= <-]; auto| |discriminate].
  destruct (String.eqb w "--DASH"); intros [= <-]; [auto|].
  right. right. right. auto.
Qed.

(** X2: what [correct_word] returns is the marker of a noise, or a text with
    no lower-case letter and no backslash that is neither the sign of a
    truncation, nor the sign of a pause, nor an annotation between square
    brackets. *)
Theorem correct_word_returns_marker_or_plain_word (word r : string) :
  correct_word word = Ok r ->
  r = "<noise>" \/
  (all_chars plain r = true /\ r <> "~" /\ r <> "." /\
   forall body, r <> "[" ++ body ++ "]").
Proof.
  rewrite correct_word_steps.
  destruct (String.eqb word "").
  { intros [= <-]. right. repeat split; try discriminate;
      try (intros [|c b]; discriminate). }
  destruct (and_ (eq_ (getitem (corrected_form word) 0) "<")
                 (eq_ (getitem (corrected_form word) (-1)) ">"))
    as [unwrap|e]; simpl; [|discriminate].
  intros H.
  assert (Hplain : all_chars plain
                     (if unwrap
                      then slice (Some 1%Z) (Some (-1)%Z) (corrected_form word)
                      else corrected_form word) = true).
  { destruct unwrap; [apply all_chars_slice|]; apply corrected_form_plain. }
  apply finish_word_cases in H.
  destruct H as [->|[->|[->|(-> & H1 & H2 & Hn)]]].
  - right. repeat split; try discriminate;
      try (intros [|c b]; discriminate).
  - now left.
  - right. repeat split; try discriminate;
      try (intros [|c b]; discriminate).
  - right. repeat split; auto.
    intros body Hb. rewrite Hb in Hn.
    change ("[" ++ body ++ "]") with (String "[" (body ++ "]")) in Hn.
    rewrite getitem_first in Hn.
    change (String "[" (body ++ "]")) with (("[" ++ body) ++ "]") in Hn.
    rewrite getitem_last_app in Hn. discriminate Hn.
Qed.

(** The sample: a word in lower case. *)
Lemma correct_word_returns_marker_or_plain_word_sample :
  "DOOR" = "<noise>" \/
  (all_chars plain "DOOR" = true /\ "DOOR" <> "~" /\ "DOOR" <> "." /\
   forall body, "DOOR" <> "[" ++ body ++ "]").
Proof.
  apply (correct_word_returns_marker_or_plain_word "Door" "DOOR").
  reflexivity.
Defined.

Lemma upper_ascii_special (c : ascii) :
  special (upper_ascii c) = special c.
Proof. destruct c as [[] [] [] [] [] [] [] []]; reflexivity. Qed.

Lemma upper_keeps_plain (s : string) :
  all_chars (fun c => negb (special c)) (upper s)
  = all_chars (fun c => negb (special c)) s.
Proof.
  induction s as [|c s IH]; simpl; [reflexivity|].
  now rewrite upper_ascii_special, IH.
Qed.

(** Nothing is replaced in a text in which the first character of what
    is looked for does not occur. *)
Lemma replace_absent (a : ascii) (old new : string) (s : string) :
  all_chars (fun c => negb (Ascii.eqb c a)) s = true ->
  replace (String a old) new s = s.
Proof.
  unfold replace. induction s as [|c s IH]; intros H; [reflexivity|].
  simpl in H. apply andb_true_iff in H. destruct H as [Hc Hs].
  cbn [replace_from String.prefix].
  destruct (ascii_dec a c) as [->|_].
  - rewrite Ascii.eqb_refl in Hc. discriminate Hc.
  - now rewrite (IH Hs).
Qed.

Lemma all_chars_weaken (p q : ascii -> bool) (s : string) :
  (forall c, p c = true -> q c = true) ->
  all_chars p s = true -> all_chars q s = true.
Proof.
  intros Hpq. induction s as [|c s IH]; simpl; [reflexivity|].
  intros H. apply andb_true_iff in H. destruct H as [Hc Hs].
  now rewrite (Hpq c Hc), (IH Hs).
Qed.

Lemma not_special (c a : ascii) :
  In a ["\"; "%"; "."; "<"; "["; "~"; "-"]%char ->
  negb (special c) = true -> negb (Ascii.eqb c a) = true.
Proof.
  intros Ha Hc. destruct (Ascii.eqb_spec c a) as [->|_]; [|reflexivity].
  unfold special in Hc.
  assert (H : existsb (Ascii.eqb a) ["\"; "%"; "."; "<"; "["; "~"; "-"]%char
              = true).
  { apply existsb_exists. exists a. split; [exact Ha|apply Ascii.eqb_refl]. }
  rewrite H in Hc. discriminate Hc.
Qed.

(** X16: a token without any of the characters the corrections look at
    is returned in upper case, and nothing else is done to it. *)
Theorem correct_word_upper_cases_ordinary_tokens (word : string) :
  all_chars (fun c => negb (special c)) word = true ->
  correct_word word = Ok (upper word).
Proof.
  intros Hplain. rewrite <- upper_keeps_plain in Hplain.
  rewrite correct_word_steps.
  destruct (String.eqb_spec word "") as [->|Hne]; [reflexivity|].
  assert (Hform : corrected_form word = upper word).
  { unfold corrected_form.
    rewrite (replace_absent "\" "" "" (upper word)).
    2:{ apply (all_chars_weaken _ _ _ (fun c => not_special c "\" ltac:(simpl; auto)) Hplain). }
    rewrite (replace_absent "%" "PERCENT" "PERCENT" (upper word)).
    2:{ apply (all_chars_weaken _ _ _ (fun c => not_special c "%" ltac:(simpl; auto)) Hplain). }
    rewrite (replace_absent "." "POINT" "POINT" (upper word)).
    2:{ apply (all_chars_weaken _ _ _ (fun c => not_special c "." ltac:(simpl; auto 6)) Hplain). }
    reflexivity. }
  rewrite Hform.
  destruct (upper word) as [|c s] eqn:Hu.
  { destruct word; [contradiction|discriminate Hu]. }
  simpl in Hplain. apply andb_true_iff in Hplain. destruct Hplain as [Hc _].
  pose proof (not_special c "<" ltac:(simpl; auto 6) Hc) as H1.
  pose proof (not_special c "[" ltac:(simpl; auto 6) Hc) as H2.
  pose proof (not_special c "~" ltac:(simpl; auto 8) Hc) as H3.
  pose proof (not_special c "." ltac:(simpl; auto 6) Hc) as H4.
  pose proof (not_special c "-" ltac:(simpl; auto 8) Hc) as H5.
  apply negb_true_iff in H1, H2, H3, H4, H5.
  assert (Hunwrap : and_ (eq_ (getitem (String c s) 0) "<")
                         (eq_ (getitem (String c s) (-1)) ">") = Ok false).
  { unfold and_, eq_, bind. rewrite getitem_first. cbn [String.eqb].
    now rewrite H1. }
  rewrite Hunwrap. cbn [bind].
  unfold finish_word, and_, or_, eq_, bind.
  rewrite getitem_first, !slice_first_never_two.
  cbn [String.eqb]. rewrite H2, H3, H4, H5. reflexivity.
Qed.

(** The sample: a word in lower case. *)
Lemma correct_word_upper_cases_ordinary_tokens_sample :
  correct_word "Door's" = Ok (upper "Door's").
Proof.
  apply (correct_word_upper_cases_ordinary_tokens "Door's"). reflexivity.
Defined.

End WordFacts.

(** ** More on the file selector *)

Module SelectorMoreFacts.

Import Selector FsSpec SelectorMoreSpec FsFacts PyFacts SelectorSpec
  SelectorFacts Samples.
Local Open Scope list_scope.

Lemma concat_map_r_raise {A B} (f : A -> result (list B)) (l : list A)
    (e : exception) :
  concat_map_r f l = Raise e -> exists x, In x l /\ f x = Raise e.
Proof.
  induction l as [|x l IH]; simpl; [discriminate|].
  destruct (f x) as [ys|e'] eqn:Hx; simpl.
  - destruct (concat_map_r f l) as [r|e'']; simpl; [discriminate|].
    intros [= ->]. destruct IH as (y & Hy & Hfy); [reflexivity|]. eauto.
  - intros [= ->]. eauto.
Qed.

Lemma filter_r_raise {A} (f : A -> result bool) (l : list A) (e : exception) :
  filter_r f l = Raise e -> exists x, In x l /\ f x = Raise e.
Proof.
  induction l as [|x l IH]; simpl; [discriminate|].
  destruct (f x) as [b|e'] eqn:Hx; simpl.
  - destruct (filter_r f l) as [r|e'']; simpl; [discriminate|].
    intros [= ->]. destruct IH as (y & Hy & Hfy); [reflexivity|]. eauto.
  - intros [= ->]. eauto.
Qed.

Lemma getitem_raise (s : string) (i : Z) (e : exception) :
  getitem s i = Raise e -> e = IndexError.
Proof.
  unfold getitem. cbv zeta. destruct (_ || _); [congruence|].
  destruct (String.get _ s); congruence.
Qed.

(** The predicates on the names of the files raise [IndexError] only. *)
Lemma filter_ext_raise (cls : variant) (ext f : string) (e : exception) :
  filter_ext cls ext f = Raise e -> e = IndexError.
Proof.
  unfold filter_ext. destruct (file_pattern cls) as [pattern|]; [|discriminate].
  unfold and_, eq_, bind.
  destruct (getitem f 3) as [c|e'] eqn:Hg.
  - destruct (String.eqb c pattern); discriminate.
  - intros [= ->]. apply (getitem_raise _ _ _ Hg).
Qed.

Lemma list_files_raise (fs : node) (input_dir : path) (df : string -> bool)
    (cls : variant) (ext : string) (e : exception) :
  list_files fs input_dir df (filter_ext cls ext) = Raise e -> e = IndexError.
Proof.
  unfold list_files. intros H.
  apply concat_map_r_raise in H. destruct H as ([[p dirs] files] & _ & H).
  apply concat_map_r_raise in H. destruct H as (d & _ & H).
  apply concat_map_r_raise in H. destruct H as ([[dp dirs'] files'] & _ & H).
  unfold bind in H.
  destruct (filter_r (filter_ext cls ext) files') as [kept|e'] eqn:Hf;
    [discriminate|].
  injection H as ->.
  apply filter_r_raise in Hf. destruct Hf as (f & _ & Hf).
  apply (filter_ext_raise _ _ _ _ Hf).
Qed.

Lemma concat_map_r_only {A B} (f : A -> result (list B)) :
  only_IndexError f -> only_IndexError (concat_map_r f).
Proof.
  intros Hf l e H. apply concat_map_r_raise in H.
  destruct H as (x & _ & H). apply (Hf _ _ H).
Qed.

(** A loop raises as soon as its body does. *)
Lemma concat_map_r_raises {A B} (f : A -> result (list B)) (l : list A)
    (x : A) :
  only_IndexError f ->
  In x l -> f x = Raise IndexError -> concat_map_r f l = Raise IndexError.
Proof.
  intros Hf. induction l as [|y l IH]; intros Hin Hx; [destruct Hin|].
  simpl. destruct (f y) as [ys|e] eqn:Hy.
  - destruct Hin as [->|Hin]; [congruence|].
    simpl. now rewrite (IH Hin Hx).
  - simpl. now rewrite (Hf _ _ Hy).
Qed.

Lemma filter_r_raises {A} (f : A -> result bool) (l : list A) (x : A) :
  only_IndexError f ->
  In x l -> f x = Raise IndexError -> filter_r f l = Raise IndexError.
Proof.
  intros Hf. induction l as [|y l IH]; intros Hin Hx; [destruct Hin|].
  simpl. destruct (f y) as [b|e] eqn:Hy.
  - destruct Hin as [->|Hin]; [congruence|].
    simpl. now rewrite (IH Hin Hx).
  - simpl. now rewrite (Hf _ _ Hy).
Qed.

(** The triple of a directory below the top of a walk is in the walk. *)
Lemma walk_In (ds : path) :
  forall n top es,
    lookup ds n = Some (Dir es) ->
    In (top ++ ds, dirnames es, filenames es) (walk top n).
Proof.
  induction ds as [|c ds IH]; intros n top es H.
  - simpl in H. injection H as ->. rewrite app_nil_r. now left.
  - destruct n as [content|es0]; [discriminate|]. simpl in H.
    destruct (lookup_entry c es0) as [x|] eqn:Hc; [|discriminate].
    simpl. right. apply in_flat_map. exists (c, x). split.
    + apply (lookup_entry_In _ _ _ Hc).
    + simpl. replace (top ++ c :: ds) with ((top ++ [c]) ++ ds)
        by now rewrite <- app_assoc.
      now apply IH.
Qed.

Lemma dirnames_In (d : string) (es : list (string * node))
    (sub : list (string * node)) :
  lookup_entry d es = Some (Dir sub) -> In d (dirnames es).
Proof.
  induction es as [|[n x] es IH]; simpl; [discriminate|].
  destruct (String.eqb_spec n d) as [->|Hne].
  - intros [= ->]. now left.
  - intros H. destruct x; [|right]; auto.
Qed.

Lemma filenames_In (f : string) (es : list (string * node))
    (content : string) :
  lookup_entry f es = Some (File content) -> In f (filenames es).
Proof.
  induction es as [|[n x] es IH]; simpl; [discriminate|].
  destruct (String.eqb_spec n f) as [->|Hne].
  - intros [= ->]. now left.
  - intros H. destruct x; [right|]; auto.
Qed.

Lemma lookup_one (d : string) (n : node) :
  lookup [d] n
  = match n with
    | File _ => None
    | Dir es => lookup_entry d es
    end.
Proof.
  destruct n as [content|es]; [reflexivity|]. simpl.
  now destruct (lookup_entry d es).
Qed.

(** The fourth character of a name of less than four characters. *)
Lemma filter_ext_short (cls : variant) (pattern ext f : string) :
  file_pattern cls = Some pattern ->
  (String.length f <= 3)%nat ->
  filter_ext cls ext f = Raise IndexError.
Proof.
  intros Hp Hlen. unfold filter_ext. rewrite Hp.
  change (getitem f 3) with (getitem f (Z.of_nat 3)).
  rewrite getitem_get, get_beyond; [reflexivity|exact Hlen].
Qed.

(** X8: for a class with a pattern on the names of the files, a file with a
    name of less than four characters, anywhere under a directory the
    predicate on the directories keeps, makes [list_files] raise
    [IndexError]: the predicate on the files reads the fourth character
    of the name before it looks at the extension. *)
Theorem list_files_short_name_raises (cls : variant) (pattern ext : string)
    (fs : node) (root : path) (df : string -> bool)
    (above : path) (d : string) (below : path) (f : string) :
  file_pattern cls = Some pattern ->
  isfile fs (root ++ above ++ [d] ++ below ++ [f]) = true ->
  df d = true ->
  (String.length f <= 3)%nat ->
  list_files fs root df (filter_ext cls ext) = Raise IndexError.
Proof.
  intros Hp Hfile Hd Hlen.
  assert (Hff : only_IndexError (filter_ext cls ext))
    by (intros x e; apply filter_ext_raise).
  unfold isfile in Hfile.
  rewrite lookup_app in Hfile.
  destruct (lookup root fs) as [n0|] eqn:H0; [|discriminate].
  rewrite lookup_app in Hfile.
  destruct (lookup above n0) as [n1|] eqn:H1; [|discriminate].
  rewrite lookup_app, lookup_one in Hfile.
  destruct n1 as [content|es1]; [discriminate|].
  destruct (lookup_entry d es1) as [n2|] eqn:H2; [|discriminate].
  rewrite lookup_app in Hfile.
  destruct (lookup below n2) as [n3|] eqn:H3; [|discriminate].
  rewrite lookup_one in Hfile.
  destruct n3 as [content|es3]; [discriminate|].
  destruct (lookup_entry f es3) as [[content|sub]|] eqn:H4; try discriminate.
  assert (Hn2 : exists es2, n2 = Dir es2).
  { destruct n2 as [c2|es2]; [|eauto]. destruct below; discriminate. }
  destruct Hn2 as [es2 ->].
  set (inner := fun triple' : path * list string * list string =>
                  let '(d_path, _, files) := triple' in
                  bind (filter_r (filter_ext cls ext) files)
                    (fun kept => Ok (map (fun f => d_path ++ [f]) kept))).
  assert (Hinner : only_IndexError inner).
  { intros [[dp dirs] files] e. unfold inner, bind.
    destruct (filter_r (filter_ext cls ext) files) as [kept|e'] eqn:Hf;
      [discriminate|].
    intros [= <-]. apply filter_r_raise in Hf. destruct Hf as (x & _ & Hx).
    apply (Hff _ _ Hx). }
  set (middle := fun (p : path) (d : string) =>
                   concat_map_r inner (os_walk fs (p ++ [d]))).
  assert (Hmiddle : forall p, only_IndexError (middle p))
    by (intros p x; apply (concat_map_r_only inner Hinner)).
  set (outer := fun triple : path * list string * list string =>
                  let '(p, dirs, _) := triple in
                  concat_map_r (middle p) (filter df dirs)).
  assert (Houter : only_IndexError outer).
  { intros [[p dirs] files] e. apply (concat_map_r_only _ (Hmiddle p)). }
  change (concat_map_r outer (os_walk fs root) = Raise IndexError).
  apply (concat_map_r_raises outer _
           (root ++ above, dirnames es1, filenames es1) Houter).
  { unfold os_walk. rewrite H0. apply (walk_In _ _ _ _ H1). }
  unfold outer.
  apply (concat_map_r_raises (middle (root ++ above)) _ d (Hmiddle _)).
  { apply filter_In. split; [apply (dirnames_In _ _ _ H2)|exact Hd]. }
  unfold middle.
  apply (concat_map_r_raises inner _
           ((root ++ above) ++ [d] ++ below, dirnames es3, filenames es3)
           Hinner).
  { unfold os_walk.
    replace (lookup ((root ++ above) ++ [d]) fs) with (Some (Dir es2)).
    - rewrite app_assoc. apply (walk_In _ _ _ _ H3).
    - symmetry. rewrite !lookup_app, H0, H1, lookup_one. exact H2. }
  unfold inner.
  rewrite (filter_r_raises (filter_ext cls ext) _ f Hff);
    [reflexivity|apply (filenames_In _ _ _ H4)|].
  apply (filter_ext_short _ _ _ _ Hp Hlen).
Qed.

(** The sample: a file named [a] beside the recordings. *)
Lemma list_files_short_name_raises_sample :
  list_files (Dir [("wsj", Dir [("si_tr_s", Dir [("a", File "")])])])
    ["wsj"] (dir_filter MainReadPreparator)
    (filter_ext MainReadPreparator ".wv1")
  = Raise IndexError.
Proof.
  apply (list_files_short_name_raises MainReadPreparator "c" ".wv1" _
           ["wsj"] _ [] "si_tr_s" [] "a").
  - reflexivity.
  - reflexivity.
  - reflexivity.
  - simpl. lia.
Defined.

Lemma concat_map_r_pure_In {A B} (f : A -> result (list B))
    (g : A -> list B) (l : list A) :
  (forall x, In x l -> f x = Ok (g x)) -> concat_map_r f l = Ok (flat_map g l).
Proof.
  induction l as [|x l IH]; intros H; [reflexivity|].
  cbn [concat_map_r flat_map]. rewrite (H x (or_introl eq_refl)), IH.
  - reflexivity.
  - intros y Hy. apply H. now right.
Qed.

Lemma filter_r_pure_In {A} (f : A -> result bool) (g : A -> bool)
    (l : list A) :
  (forall x, In x l -> f x = Ok (g x)) -> filter_r f l = Ok (filter g l).
Proof.
  induction l as [|x l IH]; intros H; [reflexivity|].
  cbn [filter_r filter]. rewrite (H x (or_introl eq_refl)), IH.
  - reflexivity.
  - intros y Hy. apply H. now right.
Qed.

(** A triple of a walk is the one of a directory below the top. *)
Lemma walk_triple (n : node) :
  forall top p dirs files,
    wf n = true ->
    In (p, dirs, files) (walk top n) ->
    exists ds es,
      p = top ++ ds /\ lookup ds n = Some (Dir es) /\
      dirs = dirnames es /\ files = filenames es.
Proof.
  induction n as [content|es0 IH] using node_rect';
    intros top p dirs files Hwf Hin; [destruct Hin|].
  destruct (wf_entries _ Hwf) as [Hd Hsub].
  destruct Hin as [Heq|Hin].
  - injection Heq as <- <- <-. exists [], es0. now rewrite app_nil_r.
  - apply in_flat_map in Hin. destruct Hin as (e & He & Hin).
    rewrite Forall_forall in IH.
    destruct (IH e He _ _ _ _ (Hsub e He) Hin)
      as (ds & es & -> & Hl & -> & ->).
    exists (fst e :: ds), es. repeat split.
    + now rewrite <- app_assoc.
    + cbn [lookup]. now rewrite (lookup_entry_distinct _ Hd e He).
Qed.

Lemma filenames_entry (f : string) (es : list (string * node)) :
  In f (filenames es) -> exists content, In (f, File content) es.
Proof.
  induction es as [|[n [c|sub]] es IH]; cbn [filenames]; [intros []|..].
  - intros [<-|H]; [exists c; now left|].
    destruct (IH H) as [content Hc]. exists content. now right.
  - intros H. destruct (IH H) as [content Hc]. exists content. now right.
Qed.

Lemma dirnames_entry (d : string) (es : list (string * node)) :
  In d (dirnames es) -> exists sub, In (d, Dir sub) es.
Proof.
  induction es as [|[n [c|sub]] es IH]; cbn [dirnames]; [intros []|..].
  - intros H. destruct (IH H) as [sub Hs]. exists sub. now right.
  - intros [<-|H]; [exists sub; now left|].
    destruct (IH H) as [sub' Hs]. exists sub'. now right.
Qed.

(** X9: for a class with a pattern on the names of the files, when every
    file under a directory that the predicate on the directories keeps
    has a name of four characters or more, [list_files] returns, and it
    lists the files under such a directory whose name has the pattern as
    its fourth character and ends with the extension. *)
Theorem list_files_with_pattern (cls : variant) (c : ascii) (ext : string)
    (fs : node) (root : path) (df : string -> bool) :
  wf fs = true ->
  file_pattern cls = Some (String c "") ->
  (forall above d below f,
      isfile fs (root ++ above ++ [d] ++ below ++ [f]) = true ->
      df d = true -> (4 <= String.length f)%nat) ->
  list_files fs root df (filter_ext cls ext)
  = Ok (list_files_pure fs root df
          (fun f => fourth_is c f && has_ext ext f)).
Proof.
  intros Hwf Hp Hlong. unfold list_files, list_files_pure.
  apply concat_map_r_pure_In. intros [[p dirs] files0] Hin.
  unfold os_walk in Hin.
  destruct (lookup root fs) as [n0|] eqn:H0; [|destruct Hin].
  destruct (walk_triple _ _ _ _ _ (wf_lookup _ _ _ Hwf H0) Hin)
    as (above & es1 & -> & H1 & -> & ->).
  assert (Hwf1 : wf (Dir es1) = true).
  { apply (wf_lookup above n0); [apply (wf_lookup _ _ _ Hwf H0)|exact H1]. }
  destruct (wf_entries _ Hwf1) as [Hd1 _].
  unfold matched_below. apply concat_map_r_pure_In. intros d Hd.
  apply filter_In in Hd. destruct Hd as [Hd Hdf].
  destruct (dirnames_entry _ _ Hd) as [sub Hsub].
  pose proof (lookup_entry_distinct _ Hd1 _ Hsub) as H2. cbn [fst snd] in H2.
  assert (Hl2 : lookup ((root ++ above) ++ [d]) fs = Some (Dir sub)).
  { rewrite !lookup_app, H0, H1, lookup_one. exact H2. }
  apply concat_map_r_pure_In. intros [[dp dirs'] files] Hin'.
  unfold os_walk in Hin'. rewrite Hl2 in Hin'.
  destruct (walk_triple _ _ _ _ _ (wf_lookup _ _ _ Hwf Hl2) Hin')
    as (below & es3 & -> & H3 & -> & ->).
  assert (Hwf3 : wf (Dir es3) = true).
  { apply (wf_lookup below (Dir sub));
      [apply (wf_lookup _ _ _ Hwf Hl2)|exact H3]. }
  destruct (wf_entries _ Hwf3) as [Hd3 _].
  unfold kept_files.
  rewrite (filter_r_pure_In _ (fun f => fourth_is c f && has_ext ext f));
    [reflexivity|].
  intros f Hf. destruct (filenames_entry _ _ Hf) as [content Hc].
  pose proof (lookup_entry_distinct _ Hd3 _ Hc) as H4. cbn [fst snd] in H4.
  assert (Hfile : isfile fs (root ++ above ++ [d] ++ below ++ [f]) = true).
  { unfold isfile.
    replace (root ++ above ++ [d] ++ below ++ [f])
      with ((((root ++ above) ++ [d]) ++ below) ++ [f])
      by (now rewrite <- !app_assoc).
    rewrite lookup_app, lookup_app, Hl2, H3, lookup_one, H4. reflexivity. }
  specialize (Hlong _ _ _ _ Hfile Hdf).
  rewrite (filter_ext_pattern _ _ _ _ Hp). unfold fourth_is, has_ext.
  destruct (get_within f 3 Hlong) as [c' ->]. reflexivity.
Qed.

(** The sample: the read speech of the sample corpus. *)
Lemma list_files_with_pattern_sample :
  list_files sample_fs ["wsj"] (dir_filter MainReadPreparator)
    (filter_ext MainReadPreparator ".wv1")
  = Ok (list_files_pure sample_fs ["wsj"] (dir_filter MainReadPreparator)
          (fun f => fourth_is "c" f && has_ext ".wv1" f)).
Proof.
  apply (list_files_with_pattern MainReadPreparator "c" ".wv1" sample_fs
           ["wsj"] (dir_filter MainReadPreparator)).
  - reflexivity.
  - reflexivity.
  - intros above d below f Hfile Hdf.
    assert (Hin : In ((["wsj"] ++ above ++ [d] ++ below) ++ [f])
                    (list_files_pure sample_fs ["wsj"]
                       (dir_filter MainReadPreparator) (fun _ => true))).
    { apply list_files_pure_In; [reflexivity|].
      exists (above ++ [d] ++ below), f.
      assert (E : (["wsj"] ++ above ++ [d] ++ below) ++ [f]
                  = ["wsj"] ++ above ++ [d] ++ below ++ [f])
        by (now rewrite <- !app_assoc).
      split; [now rewrite <- !app_assoc|].
      split; [rewrite E; exact Hfile|].
      split; [reflexivity|].
      exists d. split; [|exact Hdf].
      apply in_or_app. right. now left. }
    set (l := list_files_pure sample_fs ["wsj"]
                (dir_filter MainReadPreparator) (fun _ => true)) in Hin.
    vm_compute in l. subst l.
    destruct Hin as [H|[H|[]]];
      apply (f_equal (fun p => last p ""%string)) in H;
      rewrite last_last in H; cbn in H; subst f; cbn; lia.
Defined.

End SelectorMoreFacts.

(** ** More on the manifests *)

Module ManifestFacts.

Import Selector Normalizer Preparator FsSpec DetectorSpec LexiconSpec
  ManifestSpec FsFacts DetectorFacts SelectorFacts LexiconFacts Samples
  MoreSamples.
Local Open Scope list_scope.

Lemma append_assoc (s t u : string) :
  ((s ++ t) ++ u)%string = (s ++ t ++ u)%string.
Proof. induction s as [|c s IH]; simpl; [reflexivity|now rewrite IH]. Qed.

(** A loop that writes: the items before the first one on which the body
    raises give their lines, in order. *)
Lemma write_loop_app {A} (body : A -> result (option string))
    (done rest : list A) :
  (forall x, In x done -> exists o, body x = Ok o) ->
  write_loop body (done ++ rest)
  = ((concat_lines
        (flat_map (fun x => match body x with
                            | Ok (Some l) => [l]
                            | _ => []
                            end) done)
      ++ fst (write_loop body rest))%string,
     snd (write_loop body rest)).
Proof.
  induction done as [|x done IH]; intros Hall.
  - simpl. now destruct (write_loop body rest).
  - destruct (Hall x (or_introl eq_refl)) as [o Ho].
    cbn [app write_loop flat_map]. rewrite Ho, IH.
    2:{ intros y Hy. apply Hall. now right. }
    destruct o as [l|]; [|reflexivity].
    cbn [app concat_lines fold_right]. f_equal.
    now rewrite append_assoc.
Qed.

Lemma concat_lines_nil_r (s : string) : (s ++ "")%string = s.
Proof. induction s as [|c s IH]; simpl; [reflexivity|now rewrite IH]. Qed.

(** Reading the transcription files changes nothing. *)
Lemma read_all_lines_run (fs : node) (files : list path) :
  Forall (fun trs => isfile fs trs = true) files ->
  read_all_lines files fs = (Ok (transcription_lines fs files), fs).
Proof.
  induction files as [|trs files IH]; intros H; [reflexivity|].
  inversion H as [|? ? Htrs Hrest]; subst.
  cbn [read_all_lines]. unfold bind_io. 
  apply isfile_kind in Htrs. destruct Htrs as [content Hc].
  apply read_file_kind in Hc.
  rewrite Hc, (IH Hrest). unfold ret. cbn [transcription_lines flat_map].
  now rewrite Hc.
Qed.

(** The words of a line once they are corrected and the empty ones are
    left out. *)
Lemma corrected_words (ws words : list string) :
  concat_map_r (fun w => bind (correct_word w) (fun w' => Ok [w'])) ws
  = Ok words ->
  filter (fun w => negb (String.eqb w "")) words
  = flat_map (fun w => match correct_word w with
                       | Ok w' => if String.eqb w' "" then [] else [w']
                       | Raise _ => []
                       end) ws.
Proof.
  revert words. induction ws as [|w ws IH]; intros words.
  - intros [= <-]. reflexivity.
  - cbn [concat_map_r flat_map].
    destruct (correct_word w) as [w'|e]; [|discriminate]. cbn [bind].
    destruct (concat_map_r _ ws) as [r|e]; [|discriminate]. cbn [bind].
    intros [= <-]. cbn [app filter].
    rewrite (IH r eq_refl). now destruct (String.eqb w' "").
Qed.

(** What [make_transcription] writes for a line it can process. *)
Lemma transcription_line_entry (bad : list string) (line : string)
    (o : option string) :
  transcription_line bad line = Ok o ->
  match o with Some l => [l] | None => [] end = text_entry bad line.
Proof.
  unfold transcription_line, text_entry.
  destruct (re_match_utt (strip line)) as [[text utt_id]|]; [|discriminate].
  destruct (mem utt_id bad); cbn [negb]; [now intros [= <-]|].
  destruct (concat_map_r _ (split " " text)) as [words|e] eqn:Hw;
    [|discriminate].
  cbn [bind]. intros [= <-]. unfold words_of.
  now rewrite (corrected_words _ _ Hw).
Qed.

Lemma transcription_entries (bad : list string) (lines : list string) :
  Forall (fun line => exists o, transcription_line bad line = Ok o) lines ->
  flat_map (fun line => match transcription_line bad line with
                        | Ok (Some l) => [l]
                        | _ => []
                        end) lines
  = flat_map (text_entry bad) lines.
Proof.
  induction 1 as [|line lines [o Ho] _ IH]; [reflexivity|].
  cbn [flat_map]. rewrite IH, Ho. f_equal.
  apply (transcription_line_entry _ _ _ Ho).
Qed.

(** The run of [make_transcription], case by case. *)
Lemma make_transcription_run (self : preparator) (fs : node) :
  Forall (fun trs => isfile fs trs = true) (input_transcriptions self) ->
  make_transcription self fs
  = match write_file (transcription_file self) "" fs with
    | Raise e => (Raise e, fs)
    | Ok fa =>
        let out := write_loop (transcription_line (bad_utts self))
                     (transcription_lines fs (input_transcriptions self)) in
        match write_file (transcription_file self) (fst out) fa with
        | Ok fb => (snd out, fb)
        | Raise e => (Raise e, fa)
        end
    end.
Proof.
  intros Hfiles.
  unfold make_transcription, with_open_w, bind_io, change, lift, ret.
  rewrite (read_all_lines_run _ _ Hfiles).
  destruct (write_file (transcription_file self) "" fs) as [fa|e];
    [|reflexivity].
  cbv zeta.
  destruct (write_file (transcription_file self) _ fa); reflexivity.
Qed.

(** A file that was opened for writing can be written and closed: it
    then holds what was written, and nothing else has changed. *)
Lemma write_after_open (p : path) (content : string) (fs fa : node) :
  write_file p "" fs = Ok fa ->
  exists fb,
    write_file p content fa = Ok fb /\
    read_file p fb = Ok content /\
    forall q, path_eqb q p = false -> kind_at fb q = kind_at fs q.
Proof.
  intros Ha.
  destruct (alter_at_put_any _ _ _ content _ _ _ Ha) as [fb Hb0].
  assert (Hb : write_file p content fa = Ok fb)
    by (rewrite (write_file_twice _ _ _ _ _ Ha); exact Hb0).
  exists fb. repeat split; [exact Hb| |].
  - apply read_file_kind. rewrite (write_file_kind _ _ _ _ Hb).
    now rewrite path_eqb_refl.
  - intros q Hq.
    now rewrite (write_file_kind _ _ _ _ Hb), (write_file_kind _ _ _ _ Ha), Hq.
Qed.

(** X10: when every line of the transcription files can be processed,
    [make_transcription] returns, and the transcription manifest holds
    the lines of the utterances that are not excluded, a line for each
    line read, in the order they are read: the utterance, a space, and
    the corrected words that are not empty with a space between them.
    Nothing else is changed in the file system. *)
Theorem make_transcription_writes_kept_utterances
    (self : preparator) (fs fa : node) :
  Forall (fun trs => isfile fs trs = true) (input_transcriptions self) ->
  write_file (transcription_file self) "" fs = Ok fa ->
  Forall (fun line => exists o,
            transcription_line (bad_utts self) line = Ok o)
    (transcription_lines fs (input_transcriptions self)) ->
  exists fs',
    make_transcription self fs = (Ok tt, fs') /\
    read_file (transcription_file self) fs'
    = Ok (concat_lines
            (flat_map (text_entry (bad_utts self))
               (transcription_lines fs (input_transcriptions self)))) /\
    forall q,
      path_eqb q (transcription_file self) = false ->
      kind_at fs' q = kind_at fs q.
Proof.
  intros Hfiles Ha Hlines.
  rewrite (make_transcription_run _ _ Hfiles), Ha. cbv zeta.
  pose proof (write_loop_app (transcription_line (bad_utts self))
                (transcription_lines fs (input_transcriptions self)) []) as Hw.
  rewrite app_nil_r in Hw. rewrite Hw.
  2:{ intros x Hx. rewrite Forall_forall in Hlines. now apply Hlines. }
  cbn [write_loop fst snd]. rewrite concat_lines_nil_r.
  rewrite (transcription_entries _ _ Hlines).
  destruct (write_after_open _
              (concat_lines
                 (flat_map (text_entry (bad_utts self))
                    (transcription_lines fs (input_transcriptions self))))
              _ _ Ha) as (fb & Hb & Hread & Hframe).
  rewrite Hb. eauto.
Qed.

(** The sample: the transcription of the sample corpus. *)
Lemma make_transcription_writes_kept_utterances_sample :
  exists fs',
    make_transcription sample_self sample_fs_after = (Ok tt, fs') /\
    read_file (transcription_file sample_self) fs'
    = Ok ("4k0c0301 THE DOOR SLAMMED <noise>" ++ nl)%string /\
    forall q,
      path_eqb q (transcription_file sample_self) = false ->
      kind_at fs' q = kind_at sample_fs_after q.
Proof.
  eapply (make_transcription_writes_kept_utterances sample_self
            sample_fs_after).
  - repeat constructor.
  - vm_compute. reflexivity.
  - apply Forall_cons; [|apply Forall_nil].
    eexists. vm_compute. reflexivity.
Defined.

(** X11: a line of the transcription files that has not the format of a
    transcription, once the blanks around it are removed, makes
    [make_transcription] raise [AttributeError]; the lines before it that
    could be processed have their lines in the manifest, which is left
    with them. *)
Theorem make_transcription_stops_at_malformed_line
    (self : preparator) (fs fa : node) (done : list string) (line : string)
    (rest : list string) :
  Forall (fun trs => isfile fs trs = true) (input_transcriptions self) ->
  write_file (transcription_file self) "" fs = Ok fa ->
  transcription_lines fs (input_transcriptions self) = done ++ line :: rest ->
  Forall (fun line => exists o,
            transcription_line (bad_utts self) line = Ok o) done ->
  ~ utt_format (strip line) ->
  exists fs',
    make_transcription self fs = (Raise AttributeError, fs') /\
    read_file (transcription_file self) fs'
    = Ok (concat_lines (flat_map (text_entry (bad_utts self)) done)) /\
    forall q,
      path_eqb q (transcription_file self) = false ->
      kind_at fs' q = kind_at fs q.
Proof.
  intros Hfiles Ha Hsplit Hdone Hbad.
  rewrite (make_transcription_run _ _ Hfiles), Ha, Hsplit. cbv zeta.
  rewrite write_loop_app.
  2:{ intros x Hx. rewrite Forall_forall in Hdone. now apply Hdone. }
  assert (Hline : transcription_line (bad_utts self) line
                  = Raise AttributeError).
  { unfold transcription_line.
    destruct (re_match_utt (strip line)) as [[text utt_id]|] eqn:Hm;
      [|reflexivity].
    destruct Hbad. apply (utt_format_of_match _ _ _ Hm). }
  cbn [write_loop]. rewrite Hline. cbn [fst snd].
  rewrite concat_lines_nil_r, (transcription_entries _ _ Hdone).
  destruct (write_after_open _
              (concat_lines (flat_map (text_entry (bad_utts self)) done))
              _ _ Ha) as (fb & Hb & Hread & Hframe).
  rewrite Hb. eauto.
Qed.

(** The sample: an empty line after the first transcription. *)
Lemma make_transcription_stops_at_malformed_line_sample :
  exists fs',
    make_transcription sample_self blank_line_fs
    = (Raise AttributeError, fs') /\
    read_file (transcription_file sample_self) fs'
    = Ok ("4k0c0301 HELLO" ++ nl)%string /\
    forall q,
      path_eqb q (transcription_file sample_self) = false ->
      kind_at fs' q = kind_at blank_line_fs q.
Proof.
  eapply (make_transcription_stops_at_malformed_line sample_self
            blank_line_fs _ [("HELLO (4k0c0301)" ++ nl)%string] nl
            [("WORLD (4k0c0302)" ++ nl)%string]).
  - repeat constructor.
  - vm_compute. reflexivity.
  - reflexivity.
  - apply Forall_cons; [|apply Forall_nil].
    eexists. vm_compute. reflexivity.
  - change (strip nl) with ""%string.
    intros (text & utt_id & tail & _ & _ & H). destruct text; discriminate H.
Defined.

Lemma lexicon_line_malformed (line : string) :
  ~ comment_line line ->
  (forall word phones, ~ entry_line line word phones) ->
  lexicon_line line = Raise ValueError.
Proof.
  intros Hc He. unfold lexicon_line. cbv zeta.
  destruct ((3 <=? len (strip line))%Z
            && String.eqb (slice None (Some 3%Z) (strip line)) ";;;")%bool
    eqn:Htest.
  - destruct Hc. apply comment_test in Htest. exact Htest.
  - cbn [negb].
    destruct (split "  " (strip line)) as [|w [|p [|x l]]] eqn:Hs;
      try reflexivity.
    destruct (He w p). exact Hs.
Qed.

Lemma lexicon_text_app (done : list string) (line : string)
    (rest : list string) (e : exception) :
  Forall (fun l => exists o, lexicon_line l = Ok o) done ->
  lexicon_line line = Raise e ->
  lexicon_text (done ++ line :: rest)
  = (concat_lines (flat_map lexicon_entry done), Raise e).
Proof.
  intros Hdone Hline. unfold lexicon_text. rewrite write_loop_app.
  2:{ intros x Hx. rewrite Forall_forall in Hdone. now apply Hdone. }
  cbn [write_loop]. rewrite Hline. cbn [fst snd].
  now rewrite concat_lines_nil_r.
Qed.

(** X12: a line of the dictionary that is neither a comment nor a word and
    its phones with two spaces between them, an empty line for one, makes
    [make_lexicon] raise [ValueError]; the lexicon is left with the lines
    of the entries before it, and without the entry of the noise. *)
Theorem make_lexicon_stops_at_malformed_line
    (self : preparator) (fs fa : node) (content : string)
    (done : list string) (line : string) (rest : list string) :
  write_file (lexicon_file self) "" fs = Ok fa ->
  cmu_dict self <> lexicon_file self ->
  read_file (cmu_dict self) fs = Ok content ->
  readlines content = done ++ line :: rest ->
  Forall (fun l => exists o, lexicon_line l = Ok o) done ->
  ~ comment_line line ->
  (forall word phones, ~ entry_line line word phones) ->
  exists fs',
    make_lexicon self fs = (Raise ValueError, fs') /\
    read_file (lexicon_file self) fs'
    = Ok (concat_lines (flat_map lexicon_entry done)) /\
    forall q,
      path_eqb q (lexicon_file self) = false -> kind_at fs' q = kind_at fs q.
Proof.
  intros Ha Hne Hr Hsplit Hdone Hc He.
  assert (Hra : read_file (cmu_dict self) fa = Ok content).
  { rewrite <- Hr. apply read_file_same_kind.
    rewrite (write_file_kind _ _ _ _ Ha).
    destruct (path_eqb (cmu_dict self) (lexicon_file self)) eqn:E;
      [|reflexivity].
    apply path_eqb_eq in E. contradiction. }
  rewrite make_lexicon_run, Ha, Hra, Hsplit. cbv zeta.
  rewrite (lexicon_text_app _ _ _ _ Hdone (lexicon_line_malformed _ Hc He)).
  cbn [fst snd].
  destruct (write_after_open _
              (concat_lines (flat_map lexicon_entry done)) _ _ Ha)
    as (fb & Hb & Hread & Hframe).
  rewrite Hb. eauto.
Qed.

(** The sample: an empty line after the first entry. *)
Lemma make_lexicon_stops_at_malformed_line_sample :
  exists fs',
    make_lexicon sample_self blank_line_fs = (Raise ValueError, fs') /\
    read_file (lexicon_file sample_self) fs' = Ok ("OK OW K EY" ++ nl)%string /\
    forall q,
      path_eqb q (lexicon_file sample_self) = false ->
      kind_at fs' q = kind_at blank_line_fs q.
Proof.
  eapply (make_lexicon_stops_at_malformed_line sample_self blank_line_fs _
            _ [("OK  OW K EY1" ++ nl)%string] nl
            [("NO  N OW1" ++ nl)%string]).
  - vm_compute. reflexivity.
  - discriminate.
  - reflexivity.
  - reflexivity.
  - apply Forall_cons; [|apply Forall_nil].
    eexists. vm_compute. reflexivity.
  - intros [tail H]. discriminate H.
  - intros word phones H. discriminate H.
Defined.

(** A file can be opened for writing in a directory that is there, when
    it is not itself a directory. *)
Lemma alter_at_put_ok (err : exception) (p0 : path) (content : string)
    (name : string) (d : path) :
  forall fs,
    kind_at fs d = IsDir ->
    kind_at fs (d ++ [name]) <> IsDir ->
    exists fs', alter_at err (d ++ [name]) (put_file p0 content) fs = Ok fs'.
Proof.
  induction d as [|c d IH]; intros fs Hd Hp.
  - destruct fs as [x|es]; [discriminate|].
    cbn [app] in *. rewrite kind_at_cons in Hp. cbn [alter_at].
    destruct (lookup_entry name es) as [[x|sub]|]; cbn [put_file bind];
      eauto.
    destruct Hp. apply kind_at_nil.
  - rewrite kind_at_cons in Hd. cbn [app] in *. rewrite kind_at_cons in Hp.
    destruct fs as [x|es]; [discriminate|].
    destruct (lookup_entry c es) as [child|] eqn:Hc; [|discriminate].
    destruct (IH child Hd Hp) as [child' Hchild].
    cbn [alter_at]. rewrite Hc.
    destruct (d ++ [name]) as [|c' r] eqn:E.
    + destruct d; discriminate E.
    + rewrite Hchild. cbn [bind]. eauto.
Qed.

Lemma write_file_ok (d : path) (name content : string) (fs : node) :
  kind_at fs d = IsDir ->
  kind_at fs (d ++ [name]) <> IsDir ->
  exists fs', write_file (d ++ [name]) content fs = Ok fs'.
Proof. apply alter_at_put_ok. Qed.

Lemma path_eqb_snoc (d : path) (name : string) :
  path_eqb d (d ++ [name]) = false.
Proof. induction d as [|c d IH]; simpl; [reflexivity|]. now rewrite IH, andb_false_r. Qed.

(** A loop that writes a line for each item. *)
Lemma write_loop_map {A} (line : A -> string) (items : list A) :
  write_loop (fun x => Ok (Some (line x))) items
  = (concat_lines (map line items), Ok tt).
Proof.
  induction items as [|x items IH]; [reflexivity|].
  cbn [write_loop map]. now rewrite IH.
Qed.

(** A file written with a text that is known beforehand. *)
Lemma with_open_w_text (d : path) (name text : string) (fs : node) :
  kind_at fs d = IsDir ->
  kind_at fs (d ++ [name]) <> IsDir ->
  exists fs',
    with_open_w (d ++ [name]) (ret (text, Ok tt)) fs = (Ok tt, fs') /\
    forall q,
      kind_at fs' q
      = if path_eqb q (d ++ [name]) then IsFile text else kind_at fs q.
Proof.
  intros Hd Hp.
  destruct (write_file_ok d name "" fs Hd Hp) as [fa Ha].
  destruct (alter_at_put_any _ _ _ text _ _ _ Ha) as [fb Hb0].
  assert (Hb : write_file (d ++ [name]) text fa = Ok fb)
    by (rewrite (write_file_twice _ _ _ _ _ Ha); exact Hb0).
  exists fb. split.
  - unfold with_open_w, bind_io, change, ret, lift. rewrite Ha. cbn [fst snd].
    now rewrite Hb.
  - intros q. rewrite (write_file_kind _ _ _ _ Hb), (write_file_kind _ _ _ _ Ha).
    now destruct (path_eqb q (d ++ [name])).
Qed.

(** X13: [make_phones] writes the three inventories in the data directory:
    a line for each phone of the class, with the phone and its symbol;
    the silence of the class; and the variants, whose file is made though
    the class has no variant, and is empty.  Nothing else is changed. *)
Theorem make_phones_writes_inventories (self : preparator) (fs : node) :
  isdir fs (data_dir self) = true ->
  phones_file self = data_dir self ++ ["phones.txt"] ->
  silences_file self = data_dir self ++ ["silences.txt"] ->
  variants_file self = data_dir self ++ ["variants.txt"] ->
  isdir fs (phones_file self) = false ->
  isdir fs (silences_file self) = false ->
  isdir fs (variants_file self) = false ->
  exists out fs',
    make_phones self fs = (Ok tt, fs') /\
    read_file (phones_file self) fs' = Ok (concat_lines out) /\
    length out = length phones /\
    (forall l,
        In l out <->
        exists phone symbol,
          In (phone, symbol) phones /\
          l = (phone ++ " " ++ symbol ++ nl)%string) /\
    read_file (silences_file self) fs' = Ok ("NSN" ++ nl)%string /\
    read_file (variants_file self) fs' = Ok ""%string /\
    forall q,
      path_eqb q (phones_file self) = false ->
      path_eqb q (silences_file self) = false ->
      path_eqb q (variants_file self) = false ->
      kind_at fs' q = kind_at fs q.
Proof.
  intros Hd Hp Hs Hv Hnp Hns Hnv.
  assert (Hnot : forall fs0 p, isdir fs0 p = false -> kind_at fs0 p <> IsDir).
  { intros fs0 p H E. apply isdir_kind in E. congruence. }
  apply isdir_kind in Hd.
  unfold make_phones. rewrite !write_loop_map. rewrite Hp, Hs, Hv in *.
  set (d := data_dir self) in *.
  set (line := fun ph : string * string =>
                 (fst ph ++ " " ++ snd ph ++ nl)%string).
  unfold bind_io at 1.
  destruct (with_open_w_text d "phones.txt" (concat_lines (map line phones))
              fs Hd (Hnot _ _ Hnp)) as (fs1 & H1 & K1).
  rewrite H1. unfold bind_io at 1.
  destruct (with_open_w_text d "silences.txt"
              (concat_lines (map (fun sil => (sil ++ nl)%string) silences))
              fs1) as (fs2 & H2 & K2).
  { now rewrite K1, path_eqb_snoc. }
  { rewrite K1, path_eqb_app. cbn. now apply Hnot. }
  rewrite H2.
  destruct (with_open_w_text d "variants.txt"
              (concat_lines
                 (map (fun var => (join " " var ++ nl)%string) variants))
              fs2) as (fs3 & H3 & K3).
  { now rewrite K2, path_eqb_snoc, K1, path_eqb_snoc. }
  { rewrite K2, path_eqb_app. cbn. rewrite K1, path_eqb_app. cbn.
    now apply Hnot. }
  rewrite H3. exists (map line phones), fs3.
  split; [reflexivity|]. split; [|split; [|split; [|split; [|split]]]].
  - apply read_file_kind. rewrite K3, path_eqb_app. cbn.
    rewrite K2, path_eqb_app. cbn. now rewrite K1, path_eqb_refl.
  - apply length_map.
  - intros l. rewrite in_map_iff. split.
    + intros ([phone symbol] & <- & Hin). exists phone, symbol. auto.
    + intros (phone & symbol & Hin & ->). exists (phone, symbol). auto.
  - apply read_file_kind. rewrite K3, path_eqb_app. cbn.
    now rewrite K2, path_eqb_refl.
  - apply read_file_kind. now rewrite K3, path_eqb_refl.
  - intros q Q1 Q2 Q3. now rewrite K3, Q3, K2, Q2, K1, Q1.
Qed.

(** The sample: the output directories of the sample corpus. *)
Lemma make_phones_writes_inventories_sample :
  exists out fs',
    make_phones sample_self sample_fs_after = (Ok tt, fs') /\
    read_file (phones_file sample_self) fs' = Ok (concat_lines out) /\
    length out = length phones /\
    (forall l,
        In l out <->
        exists phone symbol,
          In (phone, symbol) phones /\
          l = (phone ++ " " ++ symbol ++ nl)%string) /\
    read_file (silences_file sample_self) fs' = Ok ("NSN" ++ nl)%string /\
    read_file (variants_file sample_self) fs' = Ok ""%string /\
    forall q,
      path_eqb q (phones_file sample_self) = false ->
      path_eqb q (silences_file sample_self) = false ->
      path_eqb q (variants_file sample_self) = false ->
      kind_at fs' q = kind_at sample_fs_after q.
Proof.
  apply (make_phones_writes_inventories sample_self sample_fs_after);
    reflexivity.
Defined.

End ManifestFacts.

(** ** More on the conversion of the recordings *)

Module RecordingFacts.

Import Selector Preparator FsSpec RecordingSpec FsFacts Samples.
Local Open Scope list_scope.

Lemma append_length (s t : string) :
  String.length (s ++ t) = (String.length s + String.length t)%nat.
Proof. induction s as [|c s IH]; simpl; [reflexivity|now rewrite IH]. Qed.

Lemma append_cancel_r (s t u : string) :
  (s ++ u)%string = (t ++ u)%string -> s = t.
Proof.
  revert t. induction s as [|c s IH]; intros [|d t] H.
  - reflexivity.
  - apply (f_equal String.length) in H. simpl in H.
    rewrite append_length in H. lia.
  - apply (f_equal String.length) in H. simpl in H.
    rewrite append_length in H. lia.
  - simpl in H. injection H as -> H. f_equal. now apply IH.
Qed.

Lemma wav_of_inj (self : preparator) (u v : string) :
  wav_of self u = wav_of self v -> u = v.
Proof.
  unfold wav_of. intros H. apply app_inv_head in H. injection H as H.
  apply (append_cancel_r _ _ _ H).
Qed.

(** [make_wavs] is the loop with [sph2wav] as the converter. *)
Lemma make_wavs_with_sph2wav : make_wavs = make_wavs_with sph2wav.
Proof. reflexivity. Qed.

(** The model of [sph2wav] changes nothing but the file it converts
    to. *)
Lemma sph2wav_writes_target_only : writes_target_only sph2wav.
Proof.
  intros sph wav fs q Hq. unfold sph2wav, bind_io, change.
  destruct (read_file sph fs) as [content|e]; [|reflexivity].
  destruct (write_file wav content fs) as [fs1|e] eqn:Hw; [|reflexivity].
  cbn [snd]. now rewrite (write_file_kind _ _ _ _ Hw), Hq.
Qed.

Lemma for_each_cons {A} (body : A -> io unit) (x : A) (rest : list A)
    (fs : node) :
  for_each body (x :: rest) fs
  = match body x fs with
    | (Ok _, fs') => for_each body rest fs'
    | (Raise e, fs') => (Raise e, fs')
    end.
Proof. reflexivity. Qed.

(** What the loop of [make_wavs] changes, for the recordings [recs]. *)
Lemma make_wavs_loop (conv : path -> path -> io unit) (self : preparator)
    (recs : list path) :
  writes_target_only conv ->
  forall fs q,
    kind_at
      (snd (for_each
              (fun sph =>
                 if negb (mem (replace ".wv1" "" (basename sph))
                            (bad_utts self))
                 then
                   bind_io
                     (ask (fun fs =>
                             path_exists fs
                               (wavs_dir self
                                ++ [(replace ".wv1" "" (basename sph)
                                     ++ ".wav")%string])))
                     (fun present : bool =>
                        if negb present
                        then conv sph
                               (wavs_dir self
                                ++ [(replace ".wv1" "" (basename sph)
                                     ++ ".wav")%string])
                        else ret tt)
                 else ret tt) recs fs)) q
    = kind_at fs q \/
    (kind_at fs q = Absent /\
     exists sph,
       In sph recs /\ mem (utt_of sph) (bad_utts self) = false /\
       q = wav_of self (utt_of sph)).
Proof.
  intros Hconv. induction recs as [|sph recs IH]; intros fs q; [now left|].
  match goal with
  | |- context [for_each ?body (sph :: recs)] => set (body0 := body) in *
  end.
  rewrite for_each_cons.
  assert (Hstep :
            kind_at (snd (body0 sph fs)) q = kind_at fs q \/
            (kind_at fs q = Absent /\
             mem (utt_of sph) (bad_utts self) = false /\
             q = wav_of self (utt_of sph))).
  { unfold body0. fold (utt_of sph). fold (wav_of self (utt_of sph)).
    destruct (mem (utt_of sph) (bad_utts self)) eqn:Hbad; [now left|].
    cbn [negb]. unfold bind_io, ask.
    destruct (path_exists fs (wav_of self (utt_of sph))) eqn:Hex;
      [now left|].
    cbn [negb].
    destruct (path_eqb q (wav_of self (utt_of sph))) eqn:E.
    - apply path_eqb_eq in E. subst q. right. repeat split.
      now apply path_exists_kind.
    - left. now apply Hconv. }
  destruct (body0 sph fs) as [[[]|e] fs1] eqn:Hbody; cbn [snd] in Hstep;
    cbv beta iota.
  - destruct (IH fs1 q) as [H|(Habs & s & Hs & Hb & ->)].
    + rewrite H. destruct Hstep as [H1|(H1 & H2 & H3)]; [now left|].
      right. split; [exact H1|]. exists sph. repeat split; auto. now left.
    + destruct Hstep as [H1|(H1 & H2 & H3)].
      * right. split; [congruence|]. exists s. repeat split; auto.
        now right.
      * right. split; [exact H1|]. exists s. repeat split; auto.
        now right.
  - cbn [snd]. destruct Hstep as [H1|(H1 & H2 & H3)]; [now left|].
    right. split; [exact H1|]. exists sph. repeat split; auto. now left.
Qed.

(** X14: [make_wavs] only adds files to the directory of the recordings,
    whatever the converter, provided it changes nothing but the file it
    converts to: a path is after the call what it was before, unless
    nothing was there and it is the file of the utterance of a recording
    that is not excluded.  So no recording that is there is converted
    again, and an excluded utterance gets no file. *)
Theorem make_wavs_only_adds_kept_recordings
    (conv : path -> path -> io unit) (self : preparator) (fs : node) :
  writes_target_only conv ->
  (forall q,
      kind_at (snd (make_wavs_with conv self fs)) q = kind_at fs q \/
      (kind_at fs q = Absent /\
       exists sph,
         In sph (input_recordings self) /\
         mem (utt_of sph) (bad_utts self) = false /\
         q = wav_of self (utt_of sph))) /\
  (forall utt_id,
      mem utt_id (bad_utts self) = true ->
      kind_at (snd (make_wavs_with conv self fs)) (wav_of self utt_id)
      = kind_at fs (wav_of self utt_id)).
Proof.
  intros Hconv. split.
  - intros q. apply (make_wavs_loop conv self _ Hconv).
  - intros utt_id Hbad.
    destruct (make_wavs_loop conv self (input_recordings self) Hconv fs
                (wav_of self utt_id)) as [H|(_ & sph & _ & Hs & Heq)];
      [exact H|].
    apply wav_of_inj in Heq. congruence.
Qed.

(** The sample: [make_wavs] itself, on the sample corpus. *)
Lemma make_wavs_only_adds_kept_recordings_sample :
  (forall q,
      kind_at (snd (make_wavs sample_self sample_fs_after)) q
      = kind_at sample_fs_after q \/
      (kind_at sample_fs_after q = Absent /\
       exists sph,
         In sph (input_recordings sample_self) /\
         mem (utt_of sph) (bad_utts sample_self) = false /\
         q = wav_of sample_self (utt_of sph))) /\
  (forall utt_id,
      mem utt_id (bad_utts sample_self) = true ->
      kind_at (snd (make_wavs sample_self sample_fs_after))
        (wav_of sample_self utt_id)
      = kind_at sample_fs_after (wav_of sample_self utt_id)).
Proof.
  apply (make_wavs_only_adds_kept_recordings sph2wav sample_self
           sample_fs_after).
  apply sph2wav_writes_target_only.
Defined.

Lemma prefix_nil (s : string) : String.prefix "" s = true.
Proof. now destruct s. Qed.

Ltac split_chars :=
  repeat match goal with
         | |- context [ascii_dec ?x ?y] => destruct (ascii_dec x y); subst
         | H : context [ascii_dec ?x ?y] |- _ =>
             destruct (ascii_dec x y); subst
         end.

(** An occurrence of the extension at the start of a name that has the
    extension added is one at the start of the name. *)
Lemma prefix_wav_app (s : string) :
  s <> ""%string ->
  String.prefix ".wav" (s ++ ".wav") = true -> String.prefix ".wav" s = true.
Proof.
  destruct s as [|a [|b [|c [|d s]]]]; intros Hne H; [contradiction|..];
    cbn [String.prefix String.append] in H |- *; split_chars;
    try discriminate H; try congruence.
  apply prefix_nil.
Qed.

Lemma prefix_wv1_app (s : string) :
  s <> ""%string ->
  String.prefix ".wv1" (s ++ ".wv1") = true -> String.prefix ".wv1" s = true.
Proof.
  destruct s as [|a [|b [|c [|d s]]]]; intros Hne H; [contradiction|..];
    cbn [String.prefix String.append] in H |- *; split_chars;
    try discriminate H; try congruence.
  apply prefix_nil.
Qed.

(** The extension that was added to a name is the one that is
    removed. *)
Lemma replace_wav_app (u : string) :
  contains ".wav" u = false -> replace ".wav" "" (u ++ ".wav") = u.
Proof.
  unfold replace. induction u as [|c u IH]; intros H; [reflexivity|].
  cbn [contains] in H. apply orb_false_iff in H. destruct H as [Hp Hc].
  change ((String c u ++ ".wav")%string) with (String c (u ++ ".wav")).
  cbn [replace_from].
  destruct (String.prefix ".wav" (String c (u ++ ".wav"))) eqn:E.
  - apply (prefix_wav_app (String c u)) in E; [congruence|discriminate].
  - now rewrite (IH Hc).
Qed.

Lemma replace_wv1_app (u : string) :
  contains ".wv1" u = false -> replace ".wv1" "" (u ++ ".wv1") = u.
Proof.
  unfold replace. induction u as [|c u IH]; intros H; [reflexivity|].
  cbn [contains] in H. apply orb_false_iff in H. destruct H as [Hp Hc].
  change ((String c u ++ ".wv1")%string) with (String c (u ++ ".wv1")).
  cbn [replace_from].
  destruct (String.prefix ".wv1" (String c (u ++ ".wv1"))) eqn:E.
  - apply (prefix_wv1_app (String c u)) in E; [congruence|discriminate].
  - now rewrite (IH Hc).
Qed.

Lemma basename_app (d : path) (name : string) : basename (d ++ [name]) = name.
Proof. unfold basename. apply last_last. Qed.

(** X15: the utterance of a recording goes through the manifests as it is.
    For an utterance in which neither extension occurs, the utterance
    [make_wavs] reads off the name of the recording is the utterance, and
    the lines [make_segment] and [make_speaker] write for the file
    [make_wavs] converts it to start with the utterance; the speaker is
    made of its first three characters. *)
Theorem utterance_goes_through_manifests (self : preparator) (d : path)
    (utt_id : string) :
  contains ".wv1" utt_id = false ->
  contains ".wav" utt_id = false ->
  utt_of (d ++ [(utt_id ++ ".wv1")%string]) = utt_id /\
  segment_line (wav_of self utt_id)
  = Ok (Some (utt_id ++ " " ++ path_str (wav_of self utt_id) ++ nl)%string) /\
  speaker_line (wav_of self utt_id)
  = Ok (Some (utt_id ++ " " ++ slice None (Some 3%Z) utt_id ++ nl)%string).
Proof.
  intros Hwv1 Hwav. unfold utt_of, segment_line, speaker_line, wav_of.
  rewrite !basename_app, (replace_wv1_app _ Hwv1), (replace_wav_app _ Hwav).
  auto.
Qed.

(** The sample: the utterance of the sample corpus. *)
Lemma utterance_goes_through_manifests_sample :
  utt_of (["wsj"; "si_tr_s"] ++ [("4k0c0301" ++ ".wv1")%string]) = "4k0c0301"
  /\
  segment_line (wav_of sample_self "4k0c0301")
  = Ok (Some ("4k0c0301" ++ " "
              ++ path_str (wav_of sample_self "4k0c0301") ++ nl)%string) /\
  speaker_line (wav_of sample_self "4k0c0301")
  = Ok (Some ("4k0c0301" ++ " "
              ++ slice None (Some 3%Z) "4k0c0301" ++ nl)%string).
Proof.
  apply (utterance_goes_through_manifests sample_self ["wsj"; "si_tr_s"]
           "4k0c0301"); reflexivity.
Defined.

End RecordingFacts.

(** ** More on the command-line entry point *)

Module EntryFacts.

Import Selector Preparator Cli FsSpec FsFacts FsMoreFacts InitSpec ObjectSpec InitFacts
  InitMoreFacts ConstructorFacts SelectorMoreFacts
  Samples.
Local Open Scope list_scope.

Lemma bad_utts_of_lines_raise_kind (lines : list string) :
  forall acc e, bad_utts_of_lines acc lines = Raise e -> e = AttributeError.
Proof.
  induction lines as [|line lines IH]; intros acc e; simpl; [discriminate|].
  unfold bad_utt_of_line.
  destruct (contains "[bad_recording]" line); simpl.
  - destruct (re_match_utt line) as [[text utt_id]|]; simpl.
    + apply IH.
    + congruence.
  - apply IH.
Qed.

Lemma read_file_raise (p : path) (fs : node) (e : exception) :
  read_file p fs = Raise e -> exists msg, e = IOError msg.
Proof.
  unfold read_file. destruct (lookup p fs) as [[content|es]|];
    [discriminate| |]; intros [= <-]; eauto.
Qed.

Lemma find_bad_utts_raise (fs : node) (files : list path) :
  forall acc e, find_bad_utts fs acc files = Raise e -> is_Exception e = true.
Proof.
  induction files as [|trs files IH]; intros acc e; simpl; [discriminate|].
  destruct (read_file trs fs) as [content|e'] eqn:Hr; simpl.
  - destruct (bad_utts_of_lines acc (readlines content)) as [bad|e''] eqn:Hb;
      simpl.
    + apply IH.
    + intros [= <-]. now rewrite (bad_utts_of_lines_raise_kind _ _ _ Hb).
  - intros [= <-]. destruct (read_file_raise _ _ _ Hr) as [msg ->].
    reflexivity.
Qed.

(** [AbstractPreparator.__init__] likewise, when it does not overwrite. *)
Lemma abstract_init_raise (default_dir : path) (cls : variant)
    (input_dir : path) (output_dir : option path) (verbose : bool)
    (fs fs' : node) (e : exception) :
  abstract_init default_dir cls input_dir output_dir verbose false fs
  = (Raise e, fs') ->
  is_Exception e = true.
Proof.
  rewrite abstract_init_run.
  destruct (negb (isdir fs input_dir)); [intros [= <- _]; reflexivity|].
  destruct (path_exists fs _); [intros [= <- _]; reflexivity|].
  destruct (makedirs _ fs) as [fs1|e1] eqn:H1.
  - destruct (makedirs _ fs1) as [fs2|e2] eqn:H2; [discriminate|].
    intros [= <- _]. destruct (makedirs_raises_OSError _ _ _ H2) as [msg ->].
    reflexivity.
  - intros [= <- _]. destruct (makedirs_raises_OSError _ _ _ H1) as [msg ->].
    reflexivity.
Qed.

(** The constructor raises exceptions that derive from [Exception]
    only. *)
Lemma wsj_init_raise (default_dir : path) (cls : variant)
    (input_dir cmu_dict : path) (output_dir : option path) (verbose : bool)
    (fs fs' : node) (e : exception) :
  wsj_init default_dir cls input_dir cmu_dict output_dir verbose fs
  = (Raise e, fs') ->
  is_Exception e = true.
Proof.
  unfold wsj_init, bind_io.
  destruct (abstract_init default_dir cls input_dir output_dir verbose false
              fs) as [[self|e0] fs1] eqn:Hinit.
  - unfold ask, raise, ret. simpl.
    destruct (isfile fs1 cmu_dict); simpl; [|intros [= <- _]; reflexivity].
    destruct (list_files fs1 _ _ (filter_wv1 cls)) as [recs|e1] eqn:H1.
    + destruct (list_files fs1 _ _ (filter_dot cls)) as [trs|e2] eqn:H2.
      * destruct (find_bad_utts fs1 [] trs) as [bad|e3] eqn:H3;
          [discriminate|].
        intros [= <- _]. apply (find_bad_utts_raise _ _ _ _ H3).
      * intros [= <- _]. now rewrite (list_files_raise _ _ _ _ _ _ H2).
    + intros [= <- _]. now rewrite (list_files_raise _ _ _ _ _ _ H1).
  - intros [= <- _]. apply (abstract_init_raise _ _ _ _ _ _ _ _ Hinit).
Qed.

Lemma list_getitem_raise {A} (l : list A) (i : Z) (e : exception) :
  list_getitem l i = Raise e -> e = IndexError.
Proof.
  unfold list_getitem. cbv zeta. destruct (_ <? 0); [congruence|].
  destruct (nth_error l _); congruence.
Qed.

(** X17: [main] never gets a corpus prepared.  Whatever the command line that
    is parsed and whatever the file system, the call prints one line that
    starts with [fatal error: ] and returns, so that the script ends with
    the exit code 0; the validation is not reached, and what was in the
    file system before is there after, as it was. *)
Theorem main_always_reports_fatal_error
    (default_dir : path) (validate : path -> bool -> io unit)
    (a : args) (fs : node) :
  exists msg fs',
    main default_dir validate (Ok a) fs
    = (["fatal error: " ++ msg]%string, Ok tt, fs') /\
    process_exit_code default_dir validate (Ok a) fs = 0%Z /\
    forall q, kind_at fs q = Absent \/ kind_at fs' q = kind_at fs q.
Proof.
  unfold process_exit_code, main, main_try, bind_io, lift.
  destruct (match arg_selection a with
            | None => Ok WallStreetJournalPreparator
            | Some i => bind (list_getitem selection (i - 1))
                          (fun entry => Ok (snd entry))
            end) as [cls|e] eqn:Hsel.
  - pose proof (wsj_init_snd default_dir cls (arg_input_dir a)
                  (arg_cmu_dict a) (arg_output_dir a) (arg_verbose a) fs)
      as Hsnd.
    assert (Hadds : forall q,
               kind_at fs q = Absent \/
               kind_at (snd (wsj_init default_dir cls (arg_input_dir a)
                               (arg_cmu_dict a) (arg_output_dir a)
                               (arg_verbose a) fs)) q = kind_at fs q).
    { intros q. rewrite Hsnd.
      destruct (abstract_init_only_adds default_dir cls (arg_input_dir a)
                  (arg_output_dir a) (arg_verbose a) fs q) as [H|[H _]];
        auto. }
    destruct (wsj_init default_dir cls (arg_input_dir a) (arg_cmu_dict a)
                (arg_output_dir a) (arg_verbose a) fs)
      as [[self|e] fs1] eqn:Hinit.
    + exists ""%string, fs1. simpl. auto.
    + rewrite (wsj_init_raise _ _ _ _ _ _ _ _ _ Hinit).
      exists (str_of_exception e), fs1. simpl. auto.
  - assert (e = IndexError) as ->.
    { destruct (arg_selection a) as [i|]; [|discriminate].
      unfold bind in Hsel.
      destruct (list_getitem selection (i - 1)) as [entry|e'] eqn:Hg;
        [discriminate|].
      injection Hsel as <-. apply (list_getitem_raise _ _ _ Hg). }
    exists (str_of_exception IndexError), fs. simpl. auto.
Qed.

End EntryFacts.
